(** * system/core: the fs_config rule matcher and the ueventd cold boot

    A shallow embedding of [libcutils/fs_config.c] (rule matcher and packed
    rule-file codec) and of [init/ueventd.cpp] (cold-boot coordinator), with
    the properties the specification states about them.

    Conventions of the embedding.
    - A [char] or [uint8_t] is an [ascii]; a buffer is a [list ascii].  A C
      string is the buffer up to its first NUL; the end of the list stands
      for the terminating NUL of a string literal.
    - [size_t] is 64 bits wide and the host is little-endian (the Android
      targets of this code); unsigned arithmetic is written with its
      wrap-around.
    - A load outside its buffer cannot be given a value by the program: it
      yields the byte [stray] (arbitrary, a parameter of the development)
      and is recorded in a log of faults, so that results can be stated for
      every value of that byte and memory safety can be stated on the log. *)

From Stdlib Require Import ZArith List Ascii String Bool Lia.
From stdpp Require Import base tactics option list gmap strings.

Local Open Scope Z_scope.

Set Warnings "-clear-no-such-hyp".

#[global] Arguments Ascii.eqb : simpl never.

(** ** C bytes, strings and unsigned arithmetic *)

Module C.

Definition NUL : ascii := "000"%char.

Definition byte_val (c : ascii) : Z := Z.of_N (N_of_ascii c).
Definition byte_of (z : Z) : ascii := ascii_of_N (Z.to_N (z mod 256)).
Arguments byte_val : simpl never.
Arguments byte_of : simpl never.

(** [size_t] and [unsigned int] arithmetic. *)
Definition SIZE_WIDTH : Z := 64.
Definition size_wrap (z : Z) : Z := z mod 2 ^ SIZE_WIDTH.
Definition uint_wrap (z : Z) : Z := z mod 2 ^ 32.
Definition UINT16_MAX : Z := 65535.

(** [s[i]] for [i] inside the buffer; the end of the list reads as NUL. *)
Definition char_at (s : list ascii) (i : nat) : ascii := nth i s NUL.

(** [strlen]: the index of the first NUL. *)
Fixpoint strlen (s : list ascii) : Z :=
  match s with
  | [] => 0
  | c :: s' => if Ascii.eqb c NUL then 0 else 1 + strlen s'
  end.

(** [strnlen(s, maxlen)]. *)
Fixpoint strnlen (s : list ascii) (maxlen : nat) : Z :=
  match maxlen, s with
  | O, _ => 0
  | _, [] => 0
  | S m, c :: s' => if Ascii.eqb c NUL then 0 else 1 + strnlen s' m
  end.

(** The characters of the C string held in a buffer. *)
Fixpoint c_str (s : list ascii) : list ascii :=
  match s with
  | [] => []
  | c :: s' => if Ascii.eqb c NUL then [] else c :: c_str s'
  end.

(** [strncmp(s1, s2, n)]: compares at most [n] characters and stops after
    a NUL.  The sign of the result is that of the first difference. *)
Fixpoint strncmp (s1 s2 : list ascii) (n : Z) : Z :=
  if n <=? 0 then 0
  else
    let c1 := hd NUL s1 in
    let c2 := hd NUL s2 in
    if negb (Ascii.eqb c1 c2) then byte_val c1 - byte_val c2
    else if Ascii.eqb c1 NUL then 0
    else match s1 with
         | [] => 0
         | _ :: s1' => strncmp s1' (tl s2) (n - 1)
         end.

(** [strcmp(s1, s2)]. *)
Fixpoint strcmp (s1 s2 : list ascii) : Z :=
  let c1 := hd NUL s1 in
  let c2 := hd NUL s2 in
  if negb (Ascii.eqb c1 c2) then byte_val c1 - byte_val c2
  else if Ascii.eqb c1 NUL then 0
  else match s1 with
       | [] => 0
       | _ :: s1' => strcmp s1' (tl s2)
       end.

(** Host (little-endian) representation of unsigned integers. *)
Definition u16_bytes (x : Z) : list ascii :=
  [byte_of x; byte_of (Z.shiftr x 8)].
Definition u32_bytes (x : Z) : list ascii :=
  u16_bytes x ++ u16_bytes (Z.shiftr x 16).
Definition u64_bytes (x : Z) : list ascii :=
  u32_bytes x ++ u32_bytes (Z.shiftr x 32).

(** [read(fd, buf, n)] on a regular file whose unread content is [fd]:
    the bytes read (fewer than [n] only at the end of the file) and the
    content left. *)
Definition read (fd : list ascii) (n : Z) : list ascii * list ascii :=
  (take (Z.to_nat n) fd, drop (Z.to_nat n) fd).

End C.

(** ** Loads that may fall outside their buffer *)

Inductive fault : Type :=
| OutOfBounds (index : Z).

Definition M (A : Type) : Type := (A * list fault)%type.

Definition ret {A} (a : A) : M A := (a, []).

Definition bind {A B} (m : M A) (f : A -> M B) : M B :=
  let '(a, l1) := m in
  let '(b, l2) := f a in
  (b, l1 ++ l2).

Notation "'do' x <- m ; k" := (bind m (fun x => k))
  (at level 10, x name, m at level 100, k at level 200).

Definition value {A} (m : M A) : A := fst m.
Definition faults {A} (m : M A) : list fault := snd m.

(** ** libcutils/fs_config.c *)

Module FsConfig.
Import C.

(** [get2LE] and [get8LE]: little-endian decoding of the bytes at [src]. *)
Definition get2LE (src : list ascii) : Z :=
  Z.lor (byte_val (char_at src 0)) (Z.shiftl (byte_val (char_at src 1)) 8).

Definition get8LE (src : list ascii) : Z :=
  let low := uint_wrap
    (Z.lor (Z.lor (Z.lor (byte_val (char_at src 0))
                         (Z.shiftl (byte_val (char_at src 1)) 8))
                  (Z.shiftl (byte_val (char_at src 2)) 16))
           (Z.shiftl (byte_val (char_at src 3)) 24)) in
  let high := uint_wrap
    (Z.lor (Z.lor (Z.lor (byte_val (char_at src 4))
                         (Z.shiftl (byte_val (char_at src 5)) 8))
                  (Z.shiftl (byte_val (char_at src 6)) 16))
           (Z.shiftl (byte_val (char_at src 7)) 24)) in
  Z.lor (Z.shiftl high 32) low.

(** [ALIGN(x, alignment)], in [size_t] arithmetic. *)
Definition ALIGN (x alignment : Z) : Z :=
  Z.land (size_wrap (x + (alignment - 1)))
         (size_wrap (Z.lnot (alignment - 1))).

(** [struct fs_path_config]: [unsigned mode, uid, gid], [uint64_t
    capabilities] and [const char* prefix] ([None] is the null pointer). *)
Record fs_path_config : Type := {
  mode : Z;
  uid : Z;
  gid : Z;
  capabilities : Z;
  prefix : option (list ascii)
}.

(** [struct fs_path_config_from_file]: the header of a packed record,
    [uint16_t len, mode, uid, gid; uint64_t capabilities], followed by the
    flexible [char prefix[]].  A header is kept as its 16 raw bytes and a
    field is the bytes at its offset. *)
Definition sizeof_header : Z := 16.
Definition header_len (h : list ascii) : list ascii := take 2 h.
Definition header_mode (h : list ascii) : list ascii := take 2 (drop 2 h).
Definition header_uid (h : list ascii) : list ascii := take 2 (drop 4 h).
Definition header_gid (h : list ascii) : list ascii := take 2 (drop 6 h).
Definition header_capabilities (h : list ascii) : list ascii :=
  take 8 (drop 8 h).

(** An octal literal, as the tables write their modes. *)
Definition octal (digits : string) : Z :=
  fold_left (fun acc c => 8 * acc + (byte_val c - 48))
            (list_ascii_of_string digits) 0.

Definition lit (s : string) : list ascii := list_ascii_of_string s.

Definition sys_conf_dir : list ascii := lit "/system/etc/fs_config_dirs".
Definition sys_conf_file : list ascii := lit "/system/etc/fs_config_files".
Definition ven_conf_dir : list ascii := lit "/vendor/etc/fs_config_dirs".
Definition ven_conf_file : list ascii := lit "/vendor/etc/fs_config_files".
Definition oem_conf_dir : list ascii := lit "/oem/etc/fs_config_dirs".
Definition oem_conf_file : list ascii := lit "/oem/etc/fs_config_files".
Definition odm_conf_dir : list ascii := lit "/odm/etc/fs_config_dirs".
Definition odm_conf_file : list ascii := lit "/odm/etc/fs_config_files".

(** [conf[which][dir]]: column 0 is the file table, column 1 the directory
    table. *)
Definition conf : list (list ascii * list ascii) :=
  [ (sys_conf_file, sys_conf_dir);
    (ven_conf_file, ven_conf_dir);
    (oem_conf_file, oem_conf_dir);
    (odm_conf_file, odm_conf_dir) ].

Definition conf_at (which : nat) (dir : bool) : list ascii :=
  let row := nth which conf ([], []) in
  if dir then snd row else fst row.

(** The ids and capability numbers of [private/android_filesystem_config.h]
    and [linux/capability.h], which the sources do not include: parameters
    of the tables. *)
Record android_ids : Type := {
  AID_SYSTEM : Z; AID_RADIO : Z; AID_BLUETOOTH : Z; AID_GRAPHICS : Z;
  AID_WIFI : Z; AID_DHCP : Z; AID_MEDIA_RW : Z; AID_SDCARD_R : Z;
  AID_LOGD : Z; AID_SHARED_RELRO : Z; AID_SHELL : Z; AID_CACHE : Z;
  AID_MISC : Z; AID_APP : Z;
  CAP_MASK_LONG : Z -> Z;
  CAP_SETGID : Z; CAP_SETUID : Z; CAP_SETPCAP : Z; CAP_NET_ADMIN : Z;
  CAP_NET_RAW : Z; CAP_SYS_NICE : Z; CAP_AUDIT_CONTROL : Z; CAP_SYSLOG : Z;
  CAP_BLOCK_SUSPEND : Z
}.

(** Modelled from the spec: [AID_ROOT], of the absent
    [private/android_filesystem_config.h]; the spec gives the terminal
    entries of the built-in tables with mode 0755 (directories) or 0644
    (files), uid 0, gid 0 and no capabilities; the source writes their uid
    and gid [AID_ROOT]. *)
Definition AID_ROOT : Z := 0.

(** The files of the device: what [open(name, O_RDONLY)] finds. *)
Definition open (fs : gmap string (list ascii)) (name : list ascii)
  : option (list ascii) :=
  fs !! string_of_list_ascii (c_str name).

(** The outputs [*uid], [*gid], [*mode] and [*capabilities]. *)
Record fs_config_result : Type := {
  out_uid : Z;
  out_gid : Z;
  out_mode : Z;
  out_capabilities : Z
}.

(** What one turn of the record loop of [fs_config] reads from a file. *)
Inductive record_read : Type :=
| NoHeader
| Corrupt (message : string)
| Record (header prefix : list ascii) (len : Z) (fd : list ascii).

(** The state of a scan: a record matched, none did, or the model ran out
    of the fuel that bounds its loop. *)
Inductive scan (A : Type) : Type :=
| Matched (a : A)
| Unmatched
| Unfinished.
Arguments Matched {A} a.
Arguments Unmatched {A}.
Arguments Unfinished {A}.

(** [(ssize_t)z] of a [size_t] value. *)
Definition ssize_of (z : Z) : Z :=
  if z <? 2 ^ (SIZE_WIDTH - 1) then z else z - 2 ^ SIZE_WIDTH.

(** The body of the record loop of [fs_config] up to the comparison: the
    header is read, then the [host_len - sizeof(header)] bytes of the
    prefix, whose NUL is looked for.  The allocation of the prefix buffer is
    taken to succeed. *)
Definition read_record (fd : list ascii) : record_read :=
  let '(header, fd1) := read fd sizeof_header in
  if negb (Z.of_nat (length header) =? sizeof_header) then NoHeader
  else
    let host_len := get2LE (header_len header) in
    let remainder := ssize_of (size_wrap (host_len - sizeof_header)) in
    if remainder <=? 0 then Corrupt "len is corrupted"
    else
      let '(prefix, fd2) := read fd1 remainder in
      if negb (Z.of_nat (length prefix) =? remainder)
      then Corrupt "prefix is truncated"
      else
        let len := strnlen prefix (Z.to_nat remainder) in
        if len >=? remainder then Corrupt "is corrupted"
        else Record header prefix len fd2.

(** The update of the mode output: its bits above the low twelve are kept
    and [m] is or-ed in, on [unsigned]. *)
Definition set_mode (mode m : Z) : Z :=
  Z.lor (Z.land mode (uint_wrap (Z.lnot (octal "07777")))) m.

(** [(int)z] of a [size_t] value. *)
Definition int_of (z : Z) : Z := (z + 2 ^ 31) mod 2 ^ 32 - 2 ^ 31.

(** The [while] loop of [fs_config_open] from a positive
    [target_out_path_len]: the count goes down over the trailing slashes
    and stops at 0. *)
Fixpoint strip_slashes (target_out_path : list ascii) (len : nat) : nat :=
  match len with
  | O => O
  | S len' =>
      if Ascii.eqb (char_at target_out_path len') "/"
      then strip_slashes target_out_path len'
      else len
  end.

(** The [int target_out_path_len] of [fs_config_open] when the name is
    printed: [strlen] converted to [int], less the trailing slashes, less a
    final "/system".  A count that is not positive leaves the loop alone,
    and one below the length of "/system" leaves the [strcmp] alone. *)
Definition target_out_path_len (target_out_path : list ascii) : Z :=
  let len0 := int_of (strlen target_out_path) in
  let len :=
    if 0 <? len0
    then Z.of_nat (strip_slashes target_out_path (Z.to_nat len0))
    else len0 in
  let system := lit "/system" in
  if (int_of (strlen system) <=? len)
     && (strcmp (drop (Z.to_nat (len - strlen system)) target_out_path)
           system =? 0)
  then int_of (size_wrap (len - strlen system))
  else len.

(** What the conversion [%.*s] prints of a string: at most [precision]
    characters, and all of them when the precision is negative. *)
Definition precision_string (precision : Z) (s : list ascii) : list ascii :=
  if precision <? 0 then c_str s
  else take (Z.to_nat precision) (c_str s).

Section Matcher.

(** The byte a load outside its buffer yields. *)
Variable stray : ascii.

Variable ids : android_ids.

(** [buf[i]]. *)
Definition load (buf : list ascii) (i : Z) : M ascii :=
  if (0 <=? i) && (i <? Z.of_nat (length buf))
  then ret (char_at buf (Z.to_nat i))
  else (stray, [OutOfBounds i]).

Definition fs_config_cmp (dir : bool) (prefix : list ascii) (len : Z)
    (path : list ascii) (plen : Z) : M bool :=
  if dir then
    if plen <? len then ret false
    else ret (strncmp prefix path len =? 0)
  else
    do c <- load prefix (size_wrap (len - 1));
    if Ascii.eqb c "*" then
      ret (strncmp prefix path (size_wrap (len - 1)) =? 0)
    else if negb (plen =? len) then ret false
    else ret (strncmp prefix path len =? 0).

(** [fs_config_open]: the content of the file opened, [None] for a
    negative descriptor.  [asprintf] is taken to succeed. *)
Definition fs_config_open (fs : gmap string (list ascii)) (dir : bool)
    (which : nat) (target_out_path : option (list ascii))
  : option (list ascii) :=
  let fd :=
    match target_out_path with
    | Some t =>
        if negb (Ascii.eqb (char_at t 0) NUL) then
          let name := precision_string (target_out_path_len t) t
                      ++ conf_at which dir in
          open fs name
        else None
    | None => None
    end in
  match fd with
  | Some f => Some f
  | None => open fs (conf_at which dir)
  end.

Definition record_result (header : list ascii) (mode : Z)
  : fs_config_result :=
  {| out_uid := get2LE (header_uid header);
     out_gid := get2LE (header_gid header);
     out_mode := set_mode mode (get2LE (header_mode header));
     out_capabilities := get8LE (header_capabilities header) |}.

(** The [while (read(fd, &header, ...))] loop over the records of one
    file.  Every turn consumes at least the header, so the length of the
    file bounds the number of turns. *)
Fixpoint record_loop (fuel : nat) (dir : bool) (path : list ascii)
    (plen : Z) (mode : Z) (fd : list ascii) : M (scan fs_config_result) :=
  match fuel with
  | O => ret Unfinished
  | S fuel' =>
      match read_record fd with
      | NoHeader => ret Unmatched
      | Corrupt _ => ret Unmatched
      | Record header prefix len fd' =>
          do hit <- fs_config_cmp dir prefix len path plen;
          if hit : bool then ret (Matched (record_result header mode))
          else record_loop fuel' dir path plen mode fd'
      end
  end.

(** The [for (which = 0; ...)] loop over the packed rule files. *)
Fixpoint conf_loop (whichs : list nat) (fs : gmap string (list ascii))
    (dir : bool) (target_out_path : option (list ascii))
    (path : list ascii) (plen : Z) (mode : Z)
  : M (scan fs_config_result) :=
  match whichs with
  | [] => ret Unmatched
  | which :: whichs' =>
      match fs_config_open fs dir which target_out_path with
      | None => conf_loop whichs' fs dir target_out_path path plen mode
      | Some fd =>
          do r <- record_loop (S (length fd)) dir path plen mode fd;
          match r with
          | Unmatched =>
              conf_loop whichs' fs dir target_out_path path plen mode
          | _ => ret r
          end
      end
  end.

(** The [for (pc = ...; pc->prefix; pc++)] loop over a built-in table: the
    entry [pc] points to when the loop ends, [None] when [pc] has left the
    table. *)
Fixpoint table_loop (table : list fs_path_config) (dir : bool)
    (path : list ascii) (plen : Z) : M (option fs_path_config) :=
  match table with
  | [] => ret None
  | pc :: table' =>
      match prefix pc with
      | None => ret (Some pc)
      | Some pfx =>
          do hit <- fs_config_cmp dir pfx (strlen pfx) path plen;
          if hit : bool then ret (Some pc)
          else table_loop table' dir path plen
      end
  end.

Definition rule (m : string) (u g caps : Z) (pfx : list ascii)
  : fs_path_config :=
  {| mode := octal m; uid := u; gid := g; capabilities := caps;
     prefix := Some pfx |}.

(** The terminal entry of a table: its prefix is the null pointer. *)
Definition last_rule (m : string) (u g caps : Z) : fs_path_config :=
  {| mode := octal m; uid := u; gid := g; capabilities := caps;
     prefix := None |}.

Definition android_dirs : list fs_path_config :=
  [ rule "00770" (AID_SYSTEM ids) (AID_CACHE ids) 0 (lit "cache");
    rule "00500" AID_ROOT AID_ROOT 0 (lit "config");
    rule "00771" (AID_SYSTEM ids) (AID_SYSTEM ids) 0 (lit "data/app");
    rule "00771" (AID_SYSTEM ids) (AID_SYSTEM ids) 0 (lit "data/app-private");
    rule "00771" (AID_SYSTEM ids) (AID_SYSTEM ids) 0 (lit "data/app-ephemeral");
    rule "00771" AID_ROOT AID_ROOT 0 (lit "data/dalvik-cache");
    rule "00771" (AID_SYSTEM ids) (AID_SYSTEM ids) 0 (lit "data/data");
    rule "00771" (AID_SHELL ids) (AID_SHELL ids) 0 (lit "data/local/tmp");
    rule "00771" (AID_SHELL ids) (AID_SHELL ids) 0 (lit "data/local");
    rule "00770" (AID_DHCP ids) (AID_DHCP ids) 0 (lit "data/misc/dhcp");
    rule "00771" (AID_SHARED_RELRO ids) (AID_SHARED_RELRO ids) 0
         (lit "data/misc/shared_relro");
    rule "01771" (AID_SYSTEM ids) (AID_MISC ids) 0 (lit "data/misc");
    rule "00775" (AID_MEDIA_RW ids) (AID_MEDIA_RW ids) 0 (lit "data/media/Music");
    rule "00775" (AID_MEDIA_RW ids) (AID_MEDIA_RW ids) 0 (lit "data/media");
    rule "00750" AID_ROOT (AID_SHELL ids) 0 (lit "data/nativetest");
    rule "00750" AID_ROOT (AID_SHELL ids) 0 (lit "data/nativetest64");
    rule "00775" AID_ROOT AID_ROOT 0 (lit "data/preloads");
    rule "00771" (AID_SYSTEM ids) (AID_SYSTEM ids) 0 (lit "data");
    rule "00755" AID_ROOT (AID_SYSTEM ids) 0 (lit "mnt");
    rule "00755" AID_ROOT AID_ROOT 0 (lit "root");
    rule "00750" AID_ROOT (AID_SHELL ids) 0 (lit "sbin");
    rule "00777" AID_ROOT AID_ROOT 0 (lit "sdcard");
    rule "00751" AID_ROOT (AID_SDCARD_R ids) 0 (lit "storage");
    rule "00755" AID_ROOT (AID_SHELL ids) 0 (lit "system/bin");
    rule "00755" AID_ROOT AID_ROOT 0 (lit "system/etc/ppp");
    rule "00755" AID_ROOT (AID_SHELL ids) 0 (lit "system/vendor");
    rule "00755" AID_ROOT (AID_SHELL ids) 0 (lit "system/xbin");
    rule "00755" AID_ROOT (AID_SHELL ids) 0 (lit "vendor");
    last_rule "00755" AID_ROOT AID_ROOT 0 ].

Definition cap (c : android_ids -> Z) : Z := CAP_MASK_LONG ids (c ids).

Definition android_files : list fs_path_config :=
  [ rule "00644" (AID_SYSTEM ids) (AID_SYSTEM ids) 0 (lit "data/app/*");
    rule "00644" (AID_SYSTEM ids) (AID_SYSTEM ids) 0 (lit "data/app-ephemeral/*");
    rule "00644" (AID_SYSTEM ids) (AID_SYSTEM ids) 0 (lit "data/app-private/*");
    rule "00644" (AID_APP ids) (AID_APP ids) 0 (lit "data/data/*");
    rule "00644" (AID_MEDIA_RW ids) (AID_MEDIA_RW ids) 0 (lit "data/media/*");
    rule "00640" AID_ROOT (AID_SHELL ids) 0 (lit "data/nativetest/tests.txt");
    rule "00640" AID_ROOT (AID_SHELL ids) 0 (lit "data/nativetest64/tests.txt");
    rule "00750" AID_ROOT (AID_SHELL ids) 0 (lit "data/nativetest/*");
    rule "00750" AID_ROOT (AID_SHELL ids) 0 (lit "data/nativetest64/*");
    rule "00600" AID_ROOT AID_ROOT 0 (lit "default.prop");
    rule "00600" AID_ROOT AID_ROOT 0 (lit "odm/build.prop");
    rule "00600" AID_ROOT AID_ROOT 0 (lit "odm/default.prop");
    rule "00444" AID_ROOT AID_ROOT 0 (drop 1 odm_conf_dir);
    rule "00444" AID_ROOT AID_ROOT 0 (drop 1 odm_conf_file);
    rule "00444" AID_ROOT AID_ROOT 0 (drop 1 oem_conf_dir);
    rule "00444" AID_ROOT AID_ROOT 0 (drop 1 oem_conf_file);
    rule "00750" AID_ROOT (AID_SHELL ids) 0 (lit "sbin/fs_mgr");
    rule "00755" AID_ROOT (AID_SHELL ids) 0 (lit "system/bin/crash_dump32");
    rule "00755" AID_ROOT (AID_SHELL ids) 0 (lit "system/bin/crash_dump64");
    rule "00755" AID_ROOT (AID_SHELL ids) 0 (lit "system/bin/debuggerd");
    rule "00750" AID_ROOT AID_ROOT 0 (lit "system/bin/install-recovery.sh");
    rule "00700" AID_ROOT AID_ROOT 0 (lit "system/bin/secilc");
    rule "00750" AID_ROOT AID_ROOT 0 (lit "system/bin/uncrypt");
    rule "00600" AID_ROOT AID_ROOT 0 (lit "system/build.prop");
    rule "00444" AID_ROOT AID_ROOT 0 (drop 1 sys_conf_dir);
    rule "00444" AID_ROOT AID_ROOT 0 (drop 1 sys_conf_file);
    rule "00440" AID_ROOT (AID_SHELL ids) 0 (lit "system/etc/init.goldfish.rc");
    rule "00550" AID_ROOT (AID_SHELL ids) 0 (lit "system/etc/init.goldfish.sh");
    rule "00550" AID_ROOT (AID_SHELL ids) 0 (lit "system/etc/init.ril");
    rule "00555" AID_ROOT AID_ROOT 0 (lit "system/etc/ppp/*");
    rule "00555" AID_ROOT AID_ROOT 0 (lit "system/etc/rc.*");
    rule "00440" AID_ROOT AID_ROOT 0 (lit "system/etc/recovery.img");
    rule "00440" (AID_RADIO ids) AID_ROOT 0 (lit "system/etc/xtables.lock");
    rule "00600" AID_ROOT AID_ROOT 0 (lit "vendor/build.prop");
    rule "00600" AID_ROOT AID_ROOT 0 (lit "vendor/default.prop");
    rule "00444" AID_ROOT AID_ROOT 0 (drop 1 ven_conf_dir);
    rule "00444" AID_ROOT AID_ROOT 0 (drop 1 ven_conf_file);
    rule "06755" AID_ROOT AID_ROOT 0 (lit "system/xbin/procmem");
    rule "04750" AID_ROOT (AID_SHELL ids) 0 (lit "system/xbin/su");
    rule "00700" (AID_SYSTEM ids) (AID_SHELL ids) (cap CAP_BLOCK_SUSPEND)
         (lit "system/bin/inputflinger");
    rule "00550" (AID_LOGD ids) (AID_LOGD ids)
         (Z.lor (Z.lor (cap CAP_SYSLOG) (cap CAP_AUDIT_CONTROL))
                (cap CAP_SETGID))
         (lit "system/bin/logd");
    rule "00750" AID_ROOT (AID_SHELL ids)
         (Z.lor (cap CAP_SETUID) (cap CAP_SETGID))
         (lit "system/bin/run-as");
    rule "00755" (AID_SYSTEM ids) (AID_GRAPHICS ids) (cap CAP_SYS_NICE)
         (lit "system/bin/surfaceflinger");
    rule "00755" (AID_WIFI ids) (AID_WIFI ids)
         (Z.lor (cap CAP_NET_ADMIN) (cap CAP_NET_RAW))
         (lit "system/bin/hostapd");
    rule "00700" (AID_BLUETOOTH ids) (AID_BLUETOOTH ids) (cap CAP_NET_ADMIN)
         (lit "vendor/bin/hw/android.hardware.bluetooth@1.0-service");
    rule "00755" (AID_WIFI ids) (AID_WIFI ids)
         (Z.lor (cap CAP_NET_ADMIN) (cap CAP_NET_RAW))
         (lit "vendor/bin/hw/android.hardware.wifi@1.0-service");
    rule "0750" AID_ROOT AID_ROOT
         (Z.lor (Z.lor (cap CAP_SETUID) (cap CAP_SETGID)) (cap CAP_SETPCAP))
         (lit "system/bin/webview_zygote32");
    rule "0750" AID_ROOT AID_ROOT
         (Z.lor (Z.lor (cap CAP_SETUID) (cap CAP_SETGID)) (cap CAP_SETPCAP))
         (lit "system/bin/webview_zygote64");
    rule "00755" AID_ROOT AID_ROOT 0 (lit "bin/*");
    rule "00640" AID_ROOT (AID_SHELL ids) 0 (lit "fstab.*");
    rule "00750" AID_ROOT (AID_SHELL ids) 0 (lit "init*");
    rule "00750" AID_ROOT (AID_SHELL ids) 0 (lit "sbin/*");
    rule "00755" AID_ROOT (AID_SHELL ids) 0 (lit "system/bin/*");
    rule "00755" AID_ROOT AID_ROOT 0 (lit "system/lib/valgrind/*");
    rule "00755" AID_ROOT AID_ROOT 0 (lit "system/lib64/valgrind/*");
    rule "00755" AID_ROOT (AID_SHELL ids) 0 (lit "system/vendor/bin/*");
    rule "00755" AID_ROOT (AID_SHELL ids) 0 (lit "system/vendor/xbin/*");
    rule "00755" AID_ROOT (AID_SHELL ids) 0 (lit "system/xbin/*");
    rule "00755" AID_ROOT (AID_SHELL ids) 0 (lit "vendor/bin/*");
    rule "00755" AID_ROOT (AID_SHELL ids) 0 (lit "vendor/xbin/*");
    last_rule "00644" AID_ROOT AID_ROOT 0 ].

Definition table_result (pc : fs_path_config) (mode : Z)
  : fs_config_result :=
  {| out_uid := uid pc;
     out_gid := gid pc;
     out_mode := set_mode mode (FsConfig.mode pc);
     out_capabilities := capabilities pc |}.

(** [fs_config(path, dir, target_out_path, uid, gid, mode, capabilities)]:
    [mode] is the value the caller left in the mode output; the
    result is what the four outputs hold on return, [None] when the model has
    no return to describe (the table pointer left its table, or a record
    loop was cut short). *)
Definition fs_config (fs : gmap string (list ascii)) (path : list ascii)
    (dir : bool) (target_out_path : option (list ascii)) (mode : Z)
  : M (option fs_config_result) :=
  let path := if Ascii.eqb (char_at path 0) "/" then drop 1 path else path in
  let plen := strlen path in
  do r <- conf_loop (seq 0 (length conf)) fs dir target_out_path
                    path plen mode;
  match r with
  | Matched out => ret (Some out)
  | Unfinished => ret None
  | Unmatched =>
      do pc <- table_loop (if dir then android_dirs else android_files)
                          dir path plen;
      match pc with
      | Some pc => ret (Some (table_result pc mode))
      | None => ret None
      end
  end.

End Matcher.

(** Writing [bytes] into [buf] at offset [off]. *)
Definition store (buf : list ascii) (off : nat) (bytes : list ascii)
  : list ascii :=
  take off buf ++ bytes ++ drop (off + length bytes) buf.

Definition ENOSPC : Z := 28.

(** [fs_config_generate(buffer, length, pc)]: the value returned and the
    content of [buffer] afterwards; [None] when [pc->prefix] is the null
    pointer, which [strlen] may not be given. *)
Definition fs_config_generate (buffer : list ascii) (length : Z)
    (pc : fs_path_config) : option (Z * list ascii) :=
  match prefix pc with
  | None => None
  | Some pfx =>
      let len := ALIGN (size_wrap (sizeof_header + strlen pfx + 1)) 8 in
      if (length <? len) || (len >? UINT16_MAX)
      then Some (- ENOSPC, buffer)
      else
        let p := store buffer 0 (replicate (Z.to_nat len) NUL) in
        let host_len := len mod 2 ^ 16 in
        let p := store p 0 (u16_bytes (get2LE (u16_bytes host_len))) in
        let p := store p 2 (u16_bytes (get2LE (u32_bytes (mode pc)))) in
        let p := store p 4 (u16_bytes (get2LE (u32_bytes (uid pc)))) in
        let p := store p 6 (u16_bytes (get2LE (u32_bytes (gid pc)))) in
        let p := store p 8
                   (u64_bytes (get8LE (u64_bytes (capabilities pc)))) in
        let p := store p 16 (c_str pfx ++ [NUL]) in
        Some (len, p)
  end.

End FsConfig.

(** ** init/ueventd.cpp: the cold boot *)

Module Ueventd.
Import C.

(** What [waitpid] stores in [status]: [WIFEXITED] with its
    [WEXITSTATUS], [WIFSIGNALED] with its [WTERMSIG], or neither. *)
Inductive wstatus : Type :=
| WExited (exit_status : Z)
| WSignaled (sig : Z)
| WOther.

Inductive open_flag : Type := O_WRONLY | O_CREAT | O_CLOEXEC.

Inductive restorecon_flag : Type := SELINUX_ANDROID_RESTORECON_RECURSE.

Definition EXIT_SUCCESS : Z := 0.

(** The calls a run makes on the system, in order, with what they
    returned.  [HandleFirmwareEvent i] and [HandleDeviceEvent i] are the
    calls on the uevent at position [i] of [uevent_queue_]. *)
Inductive event : Type :=
| Access (path : string) (found : bool)
| HandleFirmwareEvent (i : Z)
| HandleDeviceEvent (i : Z)
| Fork (pid : Z)
| Restorecon (path : string) (flags : list restorecon_flag)
| SetSkipRestorecon (skip : bool)
| Waitpid (pid : Z) (status : wstatus)
| Open (path : string) (flags : list open_flag) (mode : Z) (fd : Z)
| Close (fd : Z)
| Poll.

(** How a run stops short of returning: [_exit], the abort of
    [LOG(FATAL)], a [waitpid] that does not return, the poll loop of the
    steady state, or a loop of the model cut by its fuel. *)
Inductive halt : Type :=
| Exited (exit_status : Z)
| Aborted
| Blocked
| Polling
| OutOfFuel.

Inductive result (A : Type) : Type :=
| Ok (a : A)
| Halt (h : halt).
Arguments Ok {A} a.
Arguments Halt {A} h.

Section ColdBoot.

(** [struct Uevent] and the path [COLDBOOT_DONE] are declared in headers
    the sources do not include. *)
Variable Uevent : Type.
Variable COLDBOOT_DONE : string.

(** What the system answers to a run. *)
Record environment : Type := {
  hardware_concurrency : Z;
  regenerated : list Uevent;
  fork_result : nat -> Z;
  waitpid_results : list (Z * wstatus);
  open_result : Z;
  coldboot_done_exists : bool
}.

(** The fields of [class ColdBoot] that its methods change. *)
Record ColdBoot : Type := {
  num_handler_subprocesses_ : Z;
  uevent_queue_ : list Uevent;
  subprocess_pids_ : gset Z
}.

(** A method: from the object to its result, the object afterwards and
    the system calls made. *)
Definition proc (A : Type) : Type :=
  ColdBoot -> result A * ColdBoot * list event.

#[export] Instance proc_ret : MRet proc := fun A a cb => (Ok a, cb, []).

#[export] Instance proc_bind : MBind proc := fun A B f m cb =>
  match m cb with
  | (Ok a, cb', evs) =>
      match f a cb' with
      | (r, cb'', evs') => (r, cb'', evs ++ evs')
      end
  | (Halt h, cb', evs) => (Halt h, cb', evs)
  end.

Definition emit (e : event) : proc unit := fun cb => (Ok tt, cb, [e]).
Definition stop {A} (h : halt) : proc A := fun cb => (Halt h, cb, []).
Definition get : proc ColdBoot := fun cb => (Ok cb, cb, []).
Definition put (cb : ColdBoot) : proc unit := fun _ => (Ok tt, cb, []).

(** The constructor: [hardware_concurrency() ?: 4]. *)
Definition ColdBoot_new (env : environment) : ColdBoot :=
  {| num_handler_subprocesses_ :=
       if hardware_concurrency env =? 0 then 4 else hardware_concurrency env;
     uevent_queue_ := [];
     subprocess_pids_ := ∅ |}.

(** The loop of [UeventHandlerMain]: [i] is an [unsigned int] and [size]
    is [uevent_queue_.size()], which the loop leaves as it is. *)
Fixpoint handler_loop (fuel : nat) (i total_processes size : Z)
  : proc unit :=
  match fuel with
  | O => stop OutOfFuel
  | S fuel' =>
      if i <? size then
        emit (HandleDeviceEvent i);;
        handler_loop fuel' (uint_wrap (i + total_processes))
                     total_processes size
      else mret tt
  end.

Definition UeventHandlerMain (fuel : nat) (process_num total_processes : Z)
  : proc unit :=
  cb ← get;
  handler_loop fuel process_num total_processes
               (Z.of_nat (length (uevent_queue_ cb)));;
  stop (Exited EXIT_SUCCESS).

(** The callback of [RegenerateUevents], for each uevent the listener
    delivers. *)
Fixpoint regenerate_loop (uevents : list Uevent) : proc unit :=
  match uevents with
  | [] => mret tt
  | uevent :: uevents' =>
      cb ← get;
      emit (HandleFirmwareEvent (Z.of_nat (length (uevent_queue_ cb))));;
      put {| num_handler_subprocesses_ := num_handler_subprocesses_ cb;
             uevent_queue_ := uevent_queue_ cb ++ [uevent];
             subprocess_pids_ := subprocess_pids_ cb |};;
      regenerate_loop uevents'
  end.

Definition RegenerateUevents (env : environment) : proc unit :=
  regenerate_loop (regenerated env).

(** The loop of [ForkSubProcesses], with [remaining] turns to go from
    index [i]. *)
Fixpoint fork_loop (env : environment) (fuel : nat) (remaining : nat)
    (i : Z) : proc unit :=
  match remaining with
  | O => mret tt
  | S remaining' =>
      let pid := fork_result env (Z.to_nat i) in
      emit (Fork pid);;
      (if pid <? 0 then stop Aborted else mret tt);;
      cb ← get;
      (if pid =? 0
       then UeventHandlerMain fuel i (num_handler_subprocesses_ cb)
       else mret tt);;
      put {| num_handler_subprocesses_ := num_handler_subprocesses_ cb;
             uevent_queue_ := uevent_queue_ cb;
             subprocess_pids_ := {[pid]} ∪ subprocess_pids_ cb |};;
      fork_loop env fuel remaining' (i + 1)
  end.

Definition ForkSubProcesses (env : environment) (fuel : nat) : proc unit :=
  cb ← get;
  fork_loop env fuel (Z.to_nat (num_handler_subprocesses_ cb)) 0.

Definition DoRestoreCon : proc unit :=
  emit (Restorecon "/sys" [SELINUX_ANDROID_RESTORECON_RECURSE]);;
  emit (SetSkipRestorecon false).

(** The loop of [WaitForSubProcesses] over the successive returns of
    [waitpid]; when they are used up, [waitpid] does not return. *)
Fixpoint wait_loop (returns : list (Z * wstatus)) : proc unit :=
  cb ← get;
  if decide (subprocess_pids_ cb = ∅) then mret tt
  else
    match returns with
    | [] => stop Blocked
    | (pid, status) :: returns' =>
        emit (Waitpid pid status);;
        if pid =? -1 then wait_loop returns'
        else if decide (pid ∈ subprocess_pids_ cb) then
          match status with
          | WExited exit_status =>
              if exit_status =? EXIT_SUCCESS then
                put {| num_handler_subprocesses_ :=
                         num_handler_subprocesses_ cb;
                       uevent_queue_ := uevent_queue_ cb;
                       subprocess_pids_ := subprocess_pids_ cb ∖ {[pid]} |};;
                wait_loop returns'
              else stop Aborted
          | WSignaled _ => stop Aborted
          | WOther => wait_loop returns'
          end
        else wait_loop returns'
    end.

Definition WaitForSubProcesses (env : environment) : proc unit :=
  wait_loop (waitpid_results env).

Definition mark_done (env : environment) : proc unit :=
  emit (Open COLDBOOT_DONE [O_WRONLY; O_CREAT; O_CLOEXEC] 0
          (open_result env));;
  emit (Close (open_result env)).

Definition Run (env : environment) (fuel : nat) : proc unit :=
  RegenerateUevents env;;
  ForkSubProcesses env fuel;;
  DoRestoreCon;;
  WaitForSubProcesses env;;
  mark_done env.

(** [ueventd_main], from the test of the marker on: how the run stops and
    the system calls made.  [Poll] does not return. *)
Definition ueventd_main (env : environment) (fuel : nat)
  : result unit * list event :=
  let cold_boot : proc unit :=
    emit (Access COLDBOOT_DONE (coldboot_done_exists env));;
    (if negb (coldboot_done_exists env) then Run env fuel else mret tt);;
    emit Poll;;
    stop Polling in
  match cold_boot (ColdBoot_new env) with
  | (r, _, evs) => (r, evs)
  end.

(** Projections of a run. *)
Definition outcome {A} (run : result A * ColdBoot * list event) : result A :=
  run.1.1.
Definition object {A} (run : result A * ColdBoot * list event) : ColdBoot :=
  run.1.2.
Definition trace {A} (run : result A * ColdBoot * list event) : list event :=
  run.2.

End ColdBoot.

Arguments outcome {Uevent A} run.
Arguments object {Uevent A} run.
Arguments trace {Uevent A} run.

(** The queue positions handled, the pids forked and the files opened in
    a trace. *)
Definition handled (evs : list event) : list Z :=
  omap (fun e => match e with HandleDeviceEvent i => Some i | _ => None end)
       evs.

Definition forked (evs : list event) : list Z :=
  omap (fun e => match e with Fork pid => Some pid | _ => None end) evs.

Definition opened (evs : list event)
  : list (string * list open_flag * Z * Z) :=
  omap (fun e => match e with
                 | Open path flags mode fd => Some (path, flags, mode, fd)
                 | _ => None
                 end) evs.

End Ueventd.

(** * Properties *)

(** ** C strings *)

Module CFacts.
Import C.

Lemma byte_val_inj c1 c2 : byte_val c1 = byte_val c2 -> c1 = c2.
Proof.
  unfold byte_val. intros H. apply N2Z.inj in H.
  rewrite <- (ascii_N_embedding c1), <- (ascii_N_embedding c2).
  now rewrite H.
Qed.

Lemma byte_val_range c : 0 <= byte_val c < 256.
Proof.
  unfold byte_val. pose proof (N_ascii_bounded c). lia.
Qed.

Lemma strlen_c_str s : strlen s = Z.of_nat (length (c_str s)).
Proof.
  induction s as [|c s IH]; simpl; [reflexivity|].
  destruct (Ascii.eqb c NUL); simpl; lia.
Qed.

Lemma strlen_nonneg s : 0 <= strlen s.
Proof. rewrite strlen_c_str. lia. Qed.

Lemma c_str_length_le s : (length (c_str s) <= length s)%nat.
Proof.
  induction s as [|c s IH]; simpl; [lia|].
  destruct (Ascii.eqb c NUL); simpl; lia.
Qed.

Lemma c_str_no_NUL s : Forall (fun c => c <> NUL) (c_str s).
Proof.
  induction s as [|c s IH]; simpl; [constructor|].
  destruct (Ascii.eqb_spec c NUL); [constructor|].
  constructor; assumption.
Qed.

Lemma c_str_id s : Forall (fun c => c <> NUL) s -> c_str s = s.
Proof.
  induction 1 as [|c s Hc _ IH]; simpl; [reflexivity|].
  destruct (Ascii.eqb_spec c NUL); congruence.
Qed.

Lemma c_str_idemp s : c_str (c_str s) = c_str s.
Proof. apply c_str_id, c_str_no_NUL. Qed.

(** Within the string, the buffer and the string hold the same bytes. *)
Lemma char_at_c_str s i :
  (i < length (c_str s))%nat -> char_at s i = char_at (c_str s) i.
Proof.
  revert i. induction s as [|c s IH]; simpl; intros i Hi; [lia|].
  destruct (Ascii.eqb c NUL); simpl in *; [lia|].
  destruct i as [|i]; simpl; [reflexivity|].
  apply IH. lia.
Qed.

(** [strncmp] returns 0 exactly when the two strings agree on their first
    [n] characters. *)
Lemma strncmp_zero s1 : forall s2 n,
  strncmp s1 s2 n = 0 <->
  take (Z.to_nat n) (c_str s1) = take (Z.to_nat n) (c_str s2).
Proof.
  induction s1 as [|a s1 IH]; intros s2 n; simpl.
  - destruct (Z.leb_spec n 0) as [Hn|Hn].
    { replace (Z.to_nat n) with O by lia. simpl. tauto. }
    destruct (Z.to_nat n) as [|k] eqn:Hk; [lia|].
    destruct s2 as [|b s2]; simpl; [tauto|].
    destruct (Ascii.eqb_spec NUL b) as [<-|Hb]; simpl.
    + tauto.
    + destruct (Ascii.eqb_spec b NUL) as [->|_]; [congruence|].
      split; [|discriminate].
      intros H. exfalso. apply Hb. apply byte_val_inj. lia.
  - destruct (Z.leb_spec n 0) as [Hn|Hn].
    { replace (Z.to_nat n) with O by lia. simpl. tauto. }
    destruct (Z.to_nat n) as [|k] eqn:Hk; [lia|].
    assert (Hk' : Z.to_nat (n - 1) = k) by lia.
    destruct s2 as [|b s2]; simpl.
    + destruct (Ascii.eqb_spec a NUL) as [->|Ha]; simpl; [tauto|].
      split; [|discriminate].
      intros H. exfalso. apply Ha. apply byte_val_inj. lia.
    + destruct (Ascii.eqb_spec a b) as [<-|Hab]; simpl.
      * destruct (Ascii.eqb_spec a NUL) as [->|Ha]; simpl; [tauto|].
        rewrite IH, Hk'. split; [congruence|].
        intros H. now inversion H.
      * split.
        { intros H. exfalso. apply Hab. apply byte_val_inj. lia. }
        destruct (Ascii.eqb_spec a NUL) as [->|Ha];
          destruct (Ascii.eqb_spec b NUL) as [->|Hb]; simpl;
          try discriminate; try congruence.
Qed.

Lemma strcmp_zero s1 : forall s2,
  strcmp s1 s2 = 0 <-> c_str s1 = c_str s2.
Proof.
  induction s1 as [|a s1 IH]; intros s2; simpl.
  - destruct s2 as [|b s2]; simpl; [tauto|].
    destruct (Ascii.eqb_spec NUL b) as [<-|Hb]; simpl; [tauto|].
    destruct (Ascii.eqb_spec b NUL) as [->|_]; [congruence|].
    split; [|discriminate].
    intros H. exfalso. apply Hb. apply byte_val_inj. lia.
  - destruct s2 as [|b s2]; simpl.
    + destruct (Ascii.eqb_spec a NUL) as [->|Ha]; simpl; [tauto|].
      split; [|discriminate].
      intros H. exfalso. apply Ha. apply byte_val_inj. lia.
    + destruct (Ascii.eqb_spec a b) as [<-|Hab]; simpl.
      * destruct (Ascii.eqb_spec a NUL) as [->|Ha]; simpl; [tauto|].
        rewrite IH. split; [congruence|].
        intros H. now inversion H.
      * split.
        { intros H. exfalso. apply Hab. apply byte_val_inj. lia. }
        destruct (Ascii.eqb_spec a NUL) as [->|Ha];
          destruct (Ascii.eqb_spec b NUL) as [->|Hb]; simpl;
          try discriminate; try congruence.
Qed.

End CFacts.

(** ** The writer of faults *)

Lemma value_bind {A B} (m : M A) (f : A -> M B) :
  value (bind m f) = value (f (value m)).
Proof.
  unfold value, bind. destruct m as [a l1]. simpl.
  destruct (f a); reflexivity.
Qed.

Lemma faults_bind {A B} (m : M A) (f : A -> M B) :
  faults (bind m f) = faults m ++ faults (f (value m)).
Proof.
  unfold faults, value, bind. destruct m as [a l1]. simpl.
  destruct (f a); reflexivity.
Qed.

Lemma value_ret {A} (a : A) : value (ret a) = a.
Proof. reflexivity. Qed.

(** ** The match predicate of the rule matcher *)

Module CmpSpec.
Import C CFacts FsConfig.

(** The three cases of a match as the specification words them, on the
    strings [r] (rule prefix) and [p] (normalized path). *)
Definition spec_match (dir : bool) (r p : list ascii) : Prop :=
  if dir then (length r <= length p)%nat /\ take (length r) p = r
  else if decide (last r = Some "*"%char)
       then take (length r - 1) p = take (length r - 1) r
       else length p = length r /\ p = r.

Lemma take_all_eq (r p : list ascii) :
  (length r <= length p)%nat ->
  take (length r) r = take (length r) p <-> take (length r) p = r.
Proof.
  intros _. rewrite firstn_all. split; congruence.
Qed.

Lemma same_length_take (r p : list ascii) :
  length p = length r ->
  take (length r) r = take (length r) p <-> p = r.
Proof.
  intros H. rewrite firstn_all, <- H, firstn_all. split; congruence.
Qed.

(** The byte at [len - 1] of a non-empty prefix is the last character of
    the string, and the load is inside the buffer. *)
Lemma load_last stray (prefix : list ascii) :
  0 < strlen prefix < 2 ^ 64 ->
  exists c,
    load stray prefix (size_wrap (strlen prefix - 1)) = (c, [])
    /\ last (c_str prefix) = Some c.
Proof.
  intros Hlen.
  pose proof (strlen_c_str prefix) as Hs.
  pose proof (c_str_length_le prefix) as Hle.
  unfold load, size_wrap, SIZE_WIDTH.
  rewrite Z.mod_small by lia.
  replace ((0 <=? strlen prefix - 1)
           && (strlen prefix - 1 <? Z.of_nat (length prefix))) with true
    by (symmetry; apply andb_true_iff; split;
        [apply Z.leb_le|apply Z.ltb_lt]; lia).
  eexists. split; [reflexivity|].
  rewrite char_at_c_str by lia.
  rewrite last_lookup. unfold char_at. rewrite nth_lookup.
  replace (Z.to_nat (strlen prefix - 1))
    with (Nat.pred (length (c_str prefix))) by lia.
  destruct (c_str prefix !! Nat.pred (length (c_str prefix))) eqn:E;
    [reflexivity|].
  apply lookup_ge_None in E. lia.
Qed.

(** C2.  [fs_config_cmp], called as the matcher calls it (with the lengths
    of the two strings), returns true exactly in the cases the
    specification lists: with the directory flag, when the path is at least
    as long as the prefix and starts with it; without the flag and with a
    prefix ending in a star, when path and prefix agree on the first
    [rlen - 1] characters; otherwise when path and prefix are equal.  This
    holds for every byte a load outside the prefix may yield. *)
Theorem fs_config_cmp_spec (stray : ascii) (dir : bool)
    (prefix path : list ascii) :
  strlen prefix < 2 ^ 64 ->
  value (fs_config_cmp stray dir prefix (strlen prefix) path (strlen path))
    = true
  <-> spec_match dir (c_str prefix) (c_str path).
Proof.
  intros Hsize.
  pose proof (strlen_c_str prefix) as Hr.
  pose proof (strlen_c_str path) as Hp.
  unfold fs_config_cmp, spec_match.
  destruct dir.
  - destruct (Z.ltb_spec (strlen path) (strlen prefix)) as [Hlt|Hge].
    + rewrite value_ret. split; [discriminate|]. intros [H _]. lia.
    + rewrite value_ret, Z.eqb_eq, strncmp_zero.
      replace (Z.to_nat (strlen prefix)) with (length (c_str prefix)) by lia.
      rewrite take_all_eq by lia. split; [intros H; split; [lia|exact H]|].
      intros [_ H]; exact H.
  - rewrite value_bind.
    destruct (Z.eq_dec (strlen prefix) 0) as [Hz|Hnz].
    + (* the empty prefix: whatever byte is loaded, only the empty path
         matches *)
      assert (Hnil : c_str prefix = []).
      { destruct (c_str prefix); [reflexivity|simpl in Hr; lia]. }
      rewrite Hnil, Hz. simpl length.
      destruct (decide (last [] = Some "*"%char)) as [E|_];
        [discriminate E|].
      set (c := value (load stray prefix (size_wrap (0 - 1)))).
      destruct (Ascii.eqb c "*").
      * rewrite value_ret, Z.eqb_eq, strncmp_zero, Hnil.
        replace (Z.to_nat (size_wrap (0 - 1)))
          with (S (Z.to_nat (2 ^ 64 - 2)))
          by (unfold size_wrap, SIZE_WIDTH;
              change ((0 - 1) mod 2 ^ 64) with (2 ^ 64 - 1); lia).
        rewrite firstn_nil.
        destruct (c_str path); simpl; split; try tauto; try discriminate.
        intros [H _]. discriminate H.
      * destruct (Z.eqb_spec (strlen path) 0) as [E|E]; cbn [negb].
        -- rewrite value_ret, Z.eqb_eq, strncmp_zero, Hnil. simpl.
           destruct (c_str path); simpl in *; [tauto|lia].
        -- rewrite value_ret. split; [discriminate|].
           intros [H _]. simpl in H. lia.
    + destruct (load_last stray prefix) as (c & Hload & Hlast);
        [pose proof (strlen_nonneg prefix); lia|].
      rewrite Hload. unfold value at 2. simpl fst.
      assert (Hw : size_wrap (strlen prefix - 1) = strlen prefix - 1).
      { unfold size_wrap, SIZE_WIDTH. apply Z.mod_small.
        pose proof (strlen_nonneg prefix). lia. }
      destruct (Ascii.eqb_spec c "*") as [->|Hc].
      * destruct (decide (last (c_str prefix) = Some "*"%char))
          as [_|E]; [|contradiction].
        rewrite value_ret, Z.eqb_eq, strncmp_zero, Hw.
        replace (Z.to_nat (strlen prefix - 1))
          with (length (c_str prefix) - 1)%nat by lia.
        split; congruence.
      * destruct (decide (last (c_str prefix) = Some "*"%char))
          as [E|_]; [congruence|].
        destruct (Z.eqb_spec (strlen path) (strlen prefix)) as [E|E];
          cbn [negb].
        -- rewrite value_ret, Z.eqb_eq, strncmp_zero.
           replace (Z.to_nat (strlen prefix))
             with (length (c_str prefix)) by lia.
           rewrite same_length_take by lia.
           split; [intros H; split; [lia|exact H]|]. intros [_ H]; exact H.
        -- rewrite value_ret. split; [discriminate|].
           intros [H _]. lia.
Qed.

(** The theorem at the rule and path of scenario S3: the file rule
    "system/bin/*" matches "system/bin/ls". *)
Lemma fs_config_cmp_spec_witness :
  strlen (lit "system/bin/*") < 2 ^ 64
  /\ (value (fs_config_cmp "x" false (lit "system/bin/*")
               (strlen (lit "system/bin/*")) (lit "system/bin/ls")
               (strlen (lit "system/bin/ls"))) = true
      <-> spec_match false (c_str (lit "system/bin/*"))
                     (c_str (lit "system/bin/ls"))).
Proof.
  split; [reflexivity|].
  apply (fs_config_cmp_spec "x" false (lit "system/bin/*")
           (lit "system/bin/ls")).
  reflexivity.
Defined.

End CmpSpec.

(** ** Totality of the matcher *)

Module Totality.
Import C CFacts FsConfig.


Section Loops.

Variables (stray : ascii) (ids : android_ids).
Variables (dir : bool) (path : list ascii) (plen mode : Z).





End Loops.







(** The result the terminal entry of a built-in table gives. *)
Definition catch_all (dir : bool) (mode : Z) : fs_config_result :=
  {| out_uid := 0;
     out_gid := 0;
     out_mode := set_mode mode (if dir then octal "0755" else octal "0644");
     out_capabilities := 0 |}.

(** The path the matcher compares: a leading slash is dropped. *)
Definition normalized (path : list ascii) : list ascii :=
  if Ascii.eqb (char_at path 0) "/" then drop 1 path else path.


(** The ids and capability numbers of the Android headers, to run the
    matcher on examples. *)
Definition aosp_ids : android_ids :=
  {| AID_SYSTEM := 1000; AID_RADIO := 1001; AID_BLUETOOTH := 1002;
     AID_GRAPHICS := 1003; AID_WIFI := 1010; AID_DHCP := 1014;
     AID_MEDIA_RW := 1023; AID_SDCARD_R := 1028; AID_LOGD := 1036;
     AID_SHARED_RELRO := 1037; AID_SHELL := 2000; AID_CACHE := 2001;
     AID_MISC := 9998; AID_APP := 10000;
     CAP_MASK_LONG := fun cap_num => Z.shiftl 1 cap_num;
     CAP_SETGID := 6; CAP_SETUID := 7; CAP_SETPCAP := 8;
     CAP_NET_ADMIN := 12; CAP_NET_RAW := 13; CAP_SYS_NICE := 23;
     CAP_AUDIT_CONTROL := 30; CAP_SYSLOG := 34; CAP_BLOCK_SUSPEND := 36 |}.

(** Scenario S3 on the built-in table: the file "/system/bin/ls". *)
Example fs_config_system_bin_ls :
  fs_config "x" aosp_ids ∅ (lit "/system/bin/ls") false None 0
  = (Some {| out_uid := 0; out_gid := 2000; out_mode := octal "0755";
             out_capabilities := 0 |}, []).
Proof. vm_compute. reflexivity. Qed.

End Totality.

(** ** The rule-file codec *)

Module Codec.
Import C CFacts FsConfig.

Lemma byte_val_of z : byte_val (byte_of z) = z mod 256.
Proof.
  unfold byte_val, byte_of.
  pose proof (Z.mod_pos_bound z 256).
  rewrite N_ascii_embedding by lia.
  apply Z2N.id. lia.
Qed.

Lemma testbit_wrap z k n :
  0 <= k ->
  Z.testbit (z mod 2 ^ k) n = (0 <=? n) && (n <? k) && Z.testbit z n.
Proof.
  intros Hk.
  destruct (Z.leb_spec 0 n); [|now rewrite Z.testbit_neg_r by lia].
  destruct (Z.ltb_spec n k).
  - rewrite Z.mod_pow2_bits_low by lia. reflexivity.
  - rewrite Z.mod_pow2_bits_high by lia. reflexivity.
Qed.

Lemma testbit_byte z n :
  Z.testbit (byte_val (byte_of z)) n
  = (0 <=? n) && (n <? 8) && Z.testbit z n.
Proof.
  rewrite byte_val_of. change 256 with (2 ^ 8). apply testbit_wrap. lia.
Qed.

Lemma testbit_shiftl a k n :
  Z.testbit (Z.shiftl a k) n = (0 <=? n) && Z.testbit a (n - k).
Proof.
  destruct (Z.leb_spec 0 n); [apply Z.shiftl_spec; lia|].
  apply Z.testbit_neg_r. lia.
Qed.

Lemma testbit_shiftr a k n :
  Z.testbit (Z.shiftr a k) n = (0 <=? n) && Z.testbit a (n + k).
Proof.
  destruct (Z.leb_spec 0 n); [apply Z.shiftr_spec; lia|].
  apply Z.testbit_neg_r. lia.
Qed.

(** Equality of two words assembled from bytes, bit by bit. *)
Ltac bitwise :=
  apply Z.bits_inj'; intros n Hn;
  repeat first
    [ rewrite Z.lor_spec
    | rewrite testbit_shiftl
    | rewrite testbit_shiftr
    | rewrite testbit_byte
    | rewrite testbit_wrap by lia ];
  repeat match goal with
    | |- context [?a <? ?b] => destruct (Z.ltb_spec a b); try lia
    | |- context [?a <=? ?b] => destruct (Z.leb_spec a b); try lia
    end;
  cbn [andb orb];
  repeat rewrite orb_false_r;
  try reflexivity;
  try (f_equal; lia).

Lemma get2LE_u16_bytes x : get2LE (u16_bytes x) = x mod 2 ^ 16.
Proof. unfold get2LE, u16_bytes, char_at. cbn [nth]. bitwise. Qed.

(** Read through a [uint8_t*], an [unsigned] gives its low 16 bits. *)
Lemma get2LE_u32_bytes x : get2LE (u32_bytes x) = x mod 2 ^ 16.
Proof.
  unfold get2LE, u32_bytes, u16_bytes, char_at. cbn [nth app]. bitwise.
Qed.

Lemma get8LE_u64_bytes x : get8LE (u64_bytes x) = x mod 2 ^ 64.
Proof.
  unfold get8LE, u64_bytes, u32_bytes, u16_bytes, char_at, uint_wrap.
  cbn [nth app]. bitwise.
Qed.

Lemma align8_bits y :
  Z.land y (Z.lnot 7 mod 2 ^ 64) = Z.shiftl (Z.shiftr y 3) 3 mod 2 ^ 64.
Proof.
  apply Z.bits_inj'; intros n Hn.
  rewrite Z.land_spec, !testbit_wrap by lia. rewrite Z.lnot_spec by lia.
  change 7 with (Z.ones 3). rewrite Z.shiftl_spec by lia.
  destruct (Z.leb_spec 0 n); [|lia].
  destruct (Z.ltb_spec n 3).
  - rewrite Z.ones_spec_low by lia.
    rewrite (Z.testbit_neg_r _ (n - 3)) by lia.
    cbn. rewrite !andb_false_r. reflexivity.
  - rewrite Z.ones_spec_high by lia. rewrite Z.shiftr_spec by lia.
    replace (n - 3 + 3) with n by lia.
    cbn. destruct (n <? 64); cbn;
      [rewrite andb_true_r|rewrite andb_false_r]; reflexivity.
Qed.

(** [ALIGN(x, 8)] rounds up to the next multiple of 8. *)
Lemma ALIGN_8 x :
  0 <= x -> x + 7 < 2 ^ 64 ->
  ALIGN (size_wrap x) 8 = 8 * ((x + 7) / 8).
Proof.
  intros H0 H1. unfold ALIGN, size_wrap, SIZE_WIDTH.
  rewrite (Z.mod_small x) by lia.
  change (8 - 1) with 7. rewrite (Z.mod_small (x + 7)) by lia.
  rewrite align8_bits, Z.shiftr_div_pow2, Z.shiftl_mul_pow2 by lia.
  change (2 ^ 3) with 8.
  assert (0 <= (x + 7) / 8 * 8 <= x + 7)
    by (pose proof (Z.mul_div_le (x + 7) 8);
        pose proof (Z.div_pos (x + 7) 8); lia).
  rewrite Z.mod_small by lia. lia.
Qed.

(** The bytes of a packed record of size [16 + body]: the header fields,
    the prefix, and NULs up to the size of the record. *)
Definition record_bytes (len m u g caps : Z) (pfx : list ascii) (body : nat)
  : list ascii :=
  (u16_bytes len ++ u16_bytes m ++ u16_bytes u ++ u16_bytes g
   ++ u64_bytes caps)
  ++ c_str pfx ++ replicate (body - length (c_str pfx)) NUL.

Lemma strnlen_c_str_pad pfx k j :
  strnlen (c_str pfx ++ replicate (S j) NUL) k
  = Z.of_nat (Nat.min k (length (c_str pfx))).
Proof.
  pose proof (c_str_no_NUL pfx) as Hno.
  revert k. induction Hno as [|c s Hc _ IH]; intros k.
  - destruct k; reflexivity.
  - destruct k as [|k]; [reflexivity|].
    cbn [app strnlen length Nat.min].
    destruct (Ascii.eqb_spec c NUL); [contradiction|].
    rewrite IH. lia.
Qed.

Lemma c_str_pad pfx j :
  c_str (c_str pfx ++ replicate (S j) NUL) = c_str pfx.
Proof.
  pose proof (c_str_no_NUL pfx) as Hno.
  induction Hno as [|c s Hc _ IH]; [reflexivity|].
  cbn [app c_str]. destruct (Ascii.eqb_spec c NUL); [contradiction|].
  now rewrite IH.
Qed.

(** What [fs_config_generate] leaves in the buffer. *)
Lemma fs_config_generate_layout buffer size pc pfx :
  prefix pc = Some pfx ->
  strlen pfx <= 65511 ->
  let len := 8 * ((strlen pfx + 24) / 8) in
  len <= size ->
  size <= Z.of_nat (length buffer) ->
  fs_config_generate buffer size pc
  = Some (len,
          record_bytes len (mode pc mod 2 ^ 16) (uid pc mod 2 ^ 16)
            (gid pc mod 2 ^ 16) (capabilities pc mod 2 ^ 64) pfx
            (Z.to_nat len - 16)
          ++ drop (Z.to_nat len) buffer).
Proof.
  intros Hpfx Hmax len Hsize Hbuf.
  pose proof (strlen_nonneg pfx) as H0.
  pose proof (strlen_c_str pfx) as Hl.
  assert (Halign : ALIGN (size_wrap (sizeof_header + strlen pfx + 1)) 8
                   = len).
  { unfold sizeof_header. rewrite ALIGN_8 by lia.
    subst len. do 2 f_equal. lia. }
  unfold fs_config_generate. rewrite Hpfx. cbv zeta. rewrite !Halign.
  assert (Hlen : strlen pfx + 17 <= len <= 65528).
  { subst len. pose proof (Z.mul_div_le (strlen pfx + 24) 8).
    pose proof (Z.mod_pos_bound (strlen pfx + 24) 8).
    pose proof (Z.div_mod (strlen pfx + 24) 8).
    assert ((strlen pfx + 24) / 8 <= 65535 / 8)
      by (apply Z.div_le_mono; lia).
    change (65535 / 8) with 8191 in *. lia. }
  replace ((size <? len) || (len >? UINT16_MAX)) with false
    by (symmetry; apply orb_false_iff; unfold UINT16_MAX; split;
        [apply Z.ltb_ge|rewrite Z.gtb_ltb; apply Z.ltb_ge]; lia).
  rewrite get2LE_u16_bytes, !get2LE_u32_bytes, get8LE_u64_bytes.
  rewrite Z.mod_mod by lia. rewrite (Z.mod_small len) by lia.
  f_equal. f_equal.
  unfold record_bytes.
  set (m := mode pc mod 2 ^ 16). set (u := uid pc mod 2 ^ 16).
  set (g := gid pc mod 2 ^ 16). set (c := capabilities pc mod 2 ^ 64).
  remember (length (c_str pfx)) as l eqn:El.
  assert (Hn : exists j, Z.to_nat len = (16 + (l + S j))%nat)
    by (exists (Z.to_nat len - 17 - l)%nat; lia).
  destruct Hn as [j Hn]. rewrite Hn.
  assert (Hb : exists b1 b2, buffer = b1 ++ b2
                 /\ length b1 = (16 + (l + S j))%nat).
  { exists (take (16 + (l + S j)) buffer), (drop (16 + (l + S j)) buffer).
    split; [symmetry; apply take_drop|]. rewrite length_take. lia. }
  destruct Hb as (b1 & b2 & -> & Hb1).
  rewrite drop_app_length' by (symmetry; exact Hb1).
  assert (Hzero : store (b1 ++ b2) 0 (replicate (16 + (l + S j)) NUL)
                  = replicate (16 + (l + S j)) NUL ++ b2).
  { unfold store. cbn [take app Nat.add].
    now rewrite length_replicate, drop_app_length' by (symmetry; exact Hb1). }
  rewrite Hzero. clear Hzero.
  replace (16 + (l + S j) - 16 - l)%nat with (S j) by lia.
  cbn [replicate Nat.add app].
  unfold store, u64_bytes, u32_bytes, u16_bytes.
  cbn [take drop app length Nat.add].
  rewrite length_app, <- El. cbn [length].
  do 16 f_equal.
  rewrite !drop_0, take_0. cbn [app].
  rewrite drop_app_le by (rewrite length_replicate; lia).
  rewrite drop_replicate.
  replace (l + S j - (l + 1))%nat with j by lia.
  rewrite <- !app_assoc. reflexivity.
Qed.

Definition header_bytes (len m u g caps : Z) : list ascii :=
  u16_bytes len ++ u16_bytes m ++ u16_bytes u ++ u16_bytes g
  ++ u64_bytes caps.

(** The record reader of the matcher on the bytes of a record. *)
Lemma read_record_bytes len m u g caps pfx rest :
  Z.of_nat (length (c_str pfx)) + 17 <= len <= 65535 ->
  read_record
    (record_bytes len m u g caps pfx (Z.to_nat len - 16) ++ rest)
  = Record (header_bytes len m u g caps)
           (c_str pfx
            ++ replicate (Z.to_nat len - 16 - length (c_str pfx)) NUL)
           (Z.of_nat (length (c_str pfx))) rest.
Proof.
  intros Hlen.
  unfold record_bytes. fold (header_bytes len m u g caps).
  set (hdr := header_bytes len m u g caps).
  set (body := c_str pfx
               ++ replicate (Z.to_nat len - 16 - length (c_str pfx)) NUL).
  assert (Hhdr : length hdr = 16%nat) by reflexivity.
  assert (Hbody : length body = (Z.to_nat len - 16)%nat).
  { subst body. rewrite length_app, length_replicate. lia. }
  unfold read_record, read, sizeof_header. rewrite <- !app_assoc.
  rewrite take_app_length', drop_app_length' by (rewrite Hhdr; reflexivity).
  rewrite Hhdr. cbn [Z.of_nat Z.eqb Pos.of_succ_nat Pos.succ Pos.eqb negb].
  change (header_len hdr) with (u16_bytes len).
  rewrite get2LE_u16_bytes, (Z.mod_small len) by lia.
  assert (Hrem : ssize_of (size_wrap (len - 16)) = len - 16).
  { unfold size_wrap, ssize_of, SIZE_WIDTH. rewrite Z.mod_small by lia.
    destruct (Z.ltb_spec (len - 16) (2 ^ (64 - 1))); [reflexivity|].
    change (2 ^ (64 - 1)) with 9223372036854775808 in *. lia. }
  rewrite Hrem.
  destruct (Z.leb_spec (len - 16) 0) as [?|_]; [lia|].
  rewrite take_app_length', drop_app_length' by (rewrite Hbody; lia).
  rewrite Hbody.
  destruct (Z.eqb_spec (Z.of_nat (Z.to_nat len - 16)) (len - 16)) as [_|?];
    [|lia].
  cbn [negb].
  assert (Hpad : exists j,
            (Z.to_nat len - 16 - length (c_str pfx))%nat = S j)
    by (exists (Z.to_nat len - 17 - length (c_str pfx))%nat; lia).
  destruct Hpad as [j Hpad].
  subst body. rewrite Hpad, strnlen_c_str_pad.
  rewrite Nat.min_r by lia.
  destruct (Z.geb_spec (Z.of_nat (length (c_str pfx))) (len - 16)) as [?|_];
    [lia|].
  reflexivity.
Qed.

(** The rule a record of the matcher's reader stands for. *)
Definition decoded (r : record_read)
  : option (Z * Z * Z * Z * list ascii) :=
  match r with
  | Record header pfx _ _ =>
      Some (get2LE (header_mode header), get2LE (header_uid header),
            get2LE (header_gid header),
            get8LE (header_capabilities header), c_str pfx)
  | _ => None
  end.

(** C4, as the code has it.  A rule whose prefix has at most 65511
    characters (the record, 16 bytes of header, the prefix and its NUL,
    rounded up to a multiple of 8, is then at most [UINT16_MAX] long) and
    whose mode, uid and gid fit in 16 bits is written by
    [fs_config_generate] into any buffer that is large enough, and the
    record reader of the matcher reads the same mode, uid, gid,
    capabilities and prefix back from that buffer. *)
Theorem generate_read_roundtrip (buffer : list ascii) (size : Z)
    (pc : fs_path_config) (pfx : list ascii) :
  prefix pc = Some pfx ->
  strlen pfx <= 65511 ->
  0 <= mode pc < 2 ^ 16 ->
  0 <= uid pc < 2 ^ 16 ->
  0 <= gid pc < 2 ^ 16 ->
  0 <= capabilities pc < 2 ^ 64 ->
  let len := 8 * ((strlen pfx + 24) / 8) in
  len <= size ->
  size <= Z.of_nat (length buffer) ->
  exists p,
    fs_config_generate buffer size pc = Some (len, p)
    /\ len = ALIGN (sizeof_header + strlen pfx + 1) 8
    /\ decoded (read_record p)
       = Some (mode pc, uid pc, gid pc, capabilities pc, c_str pfx).
Proof.
  intros Hpfx Hmax Hm Hu Hg Hc len Hsize Hbuf.
  pose proof (strlen_nonneg pfx) as H0.
  pose proof (strlen_c_str pfx) as Hl.
  assert (Hlen : strlen pfx + 17 <= len <= 65528).
  { subst len. pose proof (Z.mul_div_le (strlen pfx + 24) 8).
    pose proof (Z.mod_pos_bound (strlen pfx + 24) 8).
    pose proof (Z.div_mod (strlen pfx + 24) 8).
    assert ((strlen pfx + 24) / 8 <= 65535 / 8)
      by (apply Z.div_le_mono; lia).
    change (65535 / 8) with 8191 in *. lia. }
  eexists. split; [apply fs_config_generate_layout; assumption|].
  split.
  { unfold sizeof_header.
    rewrite <- (Z.mod_small (16 + strlen pfx + 1) (2 ^ 64)) by lia.
    change ((16 + strlen pfx + 1) mod 2 ^ 64)
      with (size_wrap (16 + strlen pfx + 1)).
    rewrite ALIGN_8 by lia. subst len. do 2 f_equal. lia. }
  fold len. rewrite read_record_bytes by lia.
  unfold decoded.
  change (header_mode (header_bytes ?l ?m ?u ?g ?c)) with (u16_bytes m).
  change (header_uid (header_bytes ?l ?m ?u ?g ?c)) with (u16_bytes u).
  change (header_gid (header_bytes ?l ?m ?u ?g ?c)) with (u16_bytes g).
  change (header_capabilities (header_bytes ?l ?m ?u ?g ?c))
    with (u64_bytes c).
  rewrite !get2LE_u16_bytes, get8LE_u64_bytes, !Z.mod_mod by lia.
  rewrite !Z.mod_small by lia.
  assert (Hpad : exists j,
            (Z.to_nat len - 16 - length (c_str pfx))%nat = S j)
    by (exists (Z.to_nat len - 17 - length (c_str pfx))%nat; lia).
  destruct Hpad as [j ->]. rewrite c_str_pad. reflexivity.
Qed.

(** The rule of scenario S3 and the buffer it is written to. *)
Definition rule_S3 : fs_path_config :=
  rule "0755" 0 2000 0 (lit "system/bin/*").

Lemma generate_read_roundtrip_witness :
  exists p,
    fs_config_generate (replicate 32 NUL) 32 rule_S3 = Some (32, p)
    /\ 32 = ALIGN (sizeof_header + strlen (lit "system/bin/*") + 1) 8
    /\ decoded (read_record p)
       = Some (octal "0755", 0, 2000, 0, lit "system/bin/*").
Proof.
  apply (generate_read_roundtrip (replicate 32 NUL) 32 rule_S3
           (lit "system/bin/*"));
    first [ reflexivity
          | vm_compute; discriminate
          | split; vm_compute; first [reflexivity | discriminate] ].
Defined.

(** A prefix of 65512 characters: with the 16 bytes of the header it stays
    below [UINT16_MAX], and its record does not. *)
Definition long_prefix : list ascii := replicate (Z.to_nat 65512) "a"%char.

Definition large_buffer : list ascii := replicate (Z.to_nat 65544) NUL.

Lemma strlen_replicate n c :
  c <> NUL -> strlen (replicate n c) = Z.of_nat n.
Proof.
  intros Hc. induction n as [|n IH]; [reflexivity|].
  cbn [replicate strlen]. destruct (Ascii.eqb_spec c NUL); [contradiction|].
  lia.
Qed.

(** C4, as the specification words it, fails: the rule with [long_prefix]
    satisfies its bound, the buffer is larger than any record, and
    [fs_config_generate] refuses the rule with [-ENOSPC], leaving a buffer
    from which the reader reads no rule. *)
Lemma roundtrip_counterexample :
  strlen long_prefix + sizeof_header <= UINT16_MAX
  /\ Z.of_nat (length large_buffer) = 65544
  /\ fs_config_generate large_buffer 65544 (rule "0644" 0 0 0 long_prefix)
     = Some (- ENOSPC, large_buffer)
  /\ decoded (read_record large_buffer) = None.
Proof.
  assert (Hlen : strlen long_prefix = 65512).
  { unfold long_prefix. rewrite strlen_replicate by discriminate.
    apply Z2Nat.id. discriminate. }
  split; [rewrite Hlen; discriminate|].
  split; [unfold large_buffer; rewrite length_replicate; apply Z2Nat.id;
          discriminate|].
  split.
  - unfold fs_config_generate, rule. cbn [prefix]. rewrite Hlen.
    reflexivity.
  - lazy. reflexivity.
Qed.

(** The record keeps the low 16 bits of mode, uid and gid only: a uid of
    70000 is read back as 4464. *)
Example generate_truncates_uid :
  exists p,
    fs_config_generate (replicate 24 NUL) 24 (rule "0644" 70000 0 0 (lit "x"))
      = Some (24, p)
    /\ decoded (read_record p) = Some (octal "0644", 4464, 0, 0, lit "x").
Proof.
  eexists. split; [vm_compute; reflexivity|]. vm_compute. reflexivity.
Qed.

End Codec.

(** ** The outputs of the terminal entry *)

Module TerminalEntry.
Import C CFacts FsConfig Codec.

Lemma mode_mask_bit n :
  Z.testbit (uint_wrap (Z.lnot (octal "07777"))) n
  = (12 <=? n) && (n <? 32).
Proof.
  change (uint_wrap (Z.lnot (octal "07777")))
    with (Z.shiftl (Z.ones 20) 12).
  rewrite testbit_shiftl.
  destruct (Z.leb_spec 0 n), (Z.leb_spec 12 n), (Z.ltb_spec n 32);
    cbn [andb]; try lia; try reflexivity.
  - apply Z.ones_spec_low. lia.
  - apply Z.ones_spec_high. lia.
  - apply Z.testbit_neg_r. lia.
Qed.

Lemma mode_bit_above mode n :
  0 <= mode < 2 ^ 32 -> 32 <= n -> Z.testbit mode n = false.
Proof.
  intros Hmode Hn. rewrite <- (Z.mod_small mode (2 ^ 32)) by lia.
  rewrite testbit_wrap by lia.
  destruct (Z.ltb_spec n 32); [lia|]. now rewrite andb_false_r.
Qed.

(** The update of the mode, in arithmetic: the low twelve bits of the
    result are those of [m]; above them, the bits of [m] are or-ed into
    those of the caller's mode. *)
Lemma set_mode_bits mode m :
  0 <= mode < 2 ^ 32 ->
  set_mode mode m mod 4096 = m mod 4096
  /\ set_mode mode m / 4096 = Z.lor (mode / 4096) (m / 4096).
Proof.
  intros Hmode. unfold set_mode. split.
  - change 4096 with (2 ^ 12). apply Z.bits_inj'; intros n Hn.
    rewrite !testbit_wrap, Z.lor_spec, Z.land_spec, mode_mask_bit by lia.
    destruct (Z.leb_spec 0 n); [|lia].
    destruct (Z.ltb_spec n 12); cbn [andb]; [|reflexivity].
    destruct (Z.leb_spec 12 n); [lia|]. cbn [andb].
    now rewrite andb_false_r.
  - change 4096 with (2 ^ 12). rewrite <- !Z.shiftr_div_pow2 by lia.
    apply Z.bits_inj'; intros n Hn.
    rewrite Z.lor_spec, !testbit_shiftr, Z.lor_spec, Z.land_spec,
      mode_mask_bit.
    destruct (Z.leb_spec 0 n); [|lia]. cbn [andb].
    destruct (Z.leb_spec 12 (n + 12)); [|lia]. cbn [andb].
    destruct (Z.ltb_spec (n + 12) 32); [now rewrite andb_true_r|].
    rewrite (mode_bit_above mode (n + 12)) by lia. reflexivity.
Qed.

(** Below [2^32], [set_mode] keeps the caller's bits above the low twelve
    and puts a twelve-bit mode in the low twelve. *)
Lemma set_mode_split mode m :
  0 <= mode < 2 ^ 32 -> 0 <= m < 4096 ->
  set_mode mode m = 4096 * (mode / 4096) + m.
Proof.
  intros Hmode Hm. destruct (set_mode_bits mode m Hmode) as [Hlow Hhigh].
  rewrite (Z.div_small m 4096), Z.lor_0_r in Hhigh by lia.
  rewrite (Z.mod_small m 4096) in Hlow by lia.
  pose proof (Z.div_mod (set_mode mode m) 4096 ltac:(lia)). lia.
Qed.



End TerminalEntry.

(** ** Corrupt records in a packed rule file *)

Module Corruption.
Import C CFacts FsConfig Codec.

Lemma byte_of_val c : byte_of (byte_val c) = c.
Proof.
  unfold byte_of. pose proof (byte_val_range c).
  rewrite Z.mod_small by lia. unfold byte_val.
  rewrite N2Z.id. apply ascii_N_embedding.
Qed.

Lemma get2LE_range s : 0 <= get2LE s < 2 ^ 16.
Proof.
  assert (H : get2LE s = get2LE s mod 2 ^ 16).
  { unfold get2LE.
    rewrite <- (byte_of_val (char_at s 0)), <- (byte_of_val (char_at s 1)).
    bitwise. }
  rewrite H. apply Z.mod_pos_bound. lia.
Qed.

Lemma remainder_value d :
  0 <= d < 2 ^ 16 -> ssize_of (size_wrap (d - sizeof_header)) = d - 16.
Proof.
  intros Hd. unfold ssize_of, size_wrap, SIZE_WIDTH, sizeof_header.
  change (2 ^ (64 - 1)) with 9223372036854775808.
  change (2 ^ 64) with 18446744073709551616.
  destruct (Z.le_gt_cases 16 d).
  - rewrite Z.mod_small by lia.
    destruct (Z.ltb_spec (d - 16) 9223372036854775808); lia.
  - replace ((d - 16) mod 18446744073709551616)
      with (d - 16 + 18446744073709551616)
      by (apply Z.mod_unique with (q := -1); lia).
    destruct (Z.ltb_spec (d - 16 + 18446744073709551616)
                9223372036854775808); lia.
Qed.

Lemma strnlen_no_NUL s :
  Forall (fun c => c <> NUL) s -> strnlen s (length s) = Z.of_nat (length s).
Proof.
  induction 1 as [|c s Hc _ IH]; [reflexivity|].
  cbn [length strnlen]. destruct (Ascii.eqb_spec c NUL); [contradiction|].
  lia.
Qed.

(** The length a record declares: its first two bytes. *)
Definition declared_len (fd : list ascii) : Z :=
  get2LE (header_len (take 16 fd)).

(** The three corruptions of the specification, for a record that starts
    the unread content [fd] of a file (its header is complete): the
    declared length is at most the size of the header; the file ends before
    the declared length; there is no NUL among the prefix bytes. *)
Definition corrupt_at (fd : list ascii) : Prop :=
  (16 <= length fd)%nat
  /\ (declared_len fd <= 16
      \/ (16 < declared_len fd /\ Z.of_nat (length fd) < declared_len fd)
      \/ (16 < declared_len fd <= Z.of_nat (length fd)
          /\ Forall (fun c => c <> NUL)
               (take (Z.to_nat (declared_len fd) - 16) (drop 16 fd)))).

(** The reader stops on each of them. *)
Lemma read_record_corrupt fd :
  corrupt_at fd -> exists message, read_record fd = Corrupt message.
Proof.
  intros [Hhdr Hbad].
  pose proof (get2LE_range (header_len (take 16 fd))) as Hd.
  unfold read_record, read. unfold declared_len in Hbad.
  change (Z.to_nat sizeof_header) with 16%nat.
  rewrite length_take, Nat.min_l by lia.
  change (negb (Z.of_nat 16 =? sizeof_header)) with false. cbv iota.
  rewrite remainder_value by exact Hd.
  set (d := get2LE (header_len (take 16 fd))) in *.
  destruct Hbad as [Hsmall|[[Hbig Hshort]|[Hbig Hnul]]].
  - destruct (Z.leb_spec (d - 16) 0); [|lia].
    eexists; reflexivity.
  - destruct (Z.leb_spec (d - 16) 0); [lia|].
    rewrite length_take, length_drop.
    destruct (Z.eqb_spec
                (Z.of_nat (Nat.min (Z.to_nat (d - 16)) (length fd - 16)))
                (d - 16)); [lia|].
    eexists; reflexivity.
  - destruct (Z.leb_spec (d - 16) 0); [lia|].
    rewrite length_take, length_drop.
    destruct (Z.eqb_spec
                (Z.of_nat (Nat.min (Z.to_nat (d - 16)) (length fd - 16)))
                (d - 16)); [|lia].
    cbn [negb].
    replace (Z.to_nat (d - 16)) with (Z.to_nat d - 16)%nat by lia.
    set (pfx := take (Z.to_nat d - 16) (drop 16 fd)) in *.
    assert (Hlen : length pfx = (Z.to_nat d - 16)%nat).
    { subst pfx. rewrite length_take, length_drop. lia. }
    rewrite <- Hlen, strnlen_no_NUL by exact Hnul.
    destruct (Z.geb_spec (Z.of_nat (length pfx)) (d - 16)); [|lia].
    eexists; reflexivity.
Qed.

(** A rule [fs_config_generate] accepts, and the record it writes for it
    into a buffer of exactly the size of the record. *)
Definition encodable (pc : fs_path_config) : Prop :=
  exists pfx, prefix pc = Some pfx /\ strlen pfx <= 65511.

Definition packed (pc : fs_path_config) : list ascii :=
  match prefix pc with
  | Some pfx =>
      let size := ALIGN (size_wrap (sizeof_header + strlen pfx + 1)) 8 in
      match fs_config_generate (replicate (Z.to_nat size) NUL) size pc with
      | Some (_, p) => p
      | None => []
      end
  | None => []
  end.

(** A packed rule file: the records of its rules, one after the other. *)
Definition packed_file (rules : list fs_path_config) : list ascii :=
  flat_map packed rules.

Lemma aligned_size pfx :
  0 <= strlen pfx <= 65511 ->
  let len := 8 * ((strlen pfx + 24) / 8) in
  ALIGN (size_wrap (sizeof_header + strlen pfx + 1)) 8 = len
  /\ strlen pfx + 17 <= len <= 65528.
Proof.
  intros Hl len. split.
  - unfold sizeof_header. rewrite ALIGN_8 by lia.
    subst len. do 2 f_equal. lia.
  - subst len. pose proof (Z.mul_div_le (strlen pfx + 24) 8).
    pose proof (Z.mod_pos_bound (strlen pfx + 24) 8).
    pose proof (Z.div_mod (strlen pfx + 24) 8).
    assert ((strlen pfx + 24) / 8 <= 65535 / 8)
      by (apply Z.div_le_mono; lia).
    change (65535 / 8) with 8191 in *. lia.
Qed.

Lemma packed_bytes pc pfx :
  prefix pc = Some pfx ->
  strlen pfx <= 65511 ->
  let len := 8 * ((strlen pfx + 24) / 8) in
  packed pc
  = record_bytes len (mode pc mod 2 ^ 16) (uid pc mod 2 ^ 16)
      (gid pc mod 2 ^ 16) (capabilities pc mod 2 ^ 64) pfx
      (Z.to_nat len - 16).
Proof.
  intros Hpfx Hmax len.
  pose proof (strlen_nonneg pfx) as H0.
  destruct (aligned_size pfx) as [Ha Hlen]; [lia|]. fold len in Ha, Hlen.
  unfold packed. rewrite Hpfx. cbv zeta. rewrite Ha.
  rewrite (fs_config_generate_layout _ len pc pfx Hpfx Hmax);
    [|fold len; lia|rewrite length_replicate; lia].
  fold len.
  rewrite drop_ge by (rewrite length_replicate; lia).
  apply app_nil_r.
Qed.

Lemma packed_file_length rules :
  Forall encodable rules -> (length rules <= length (packed_file rules))%nat.
Proof.
  induction 1 as [|pc rules (pfx & Hpfx & Hmax) _ IH]; [reflexivity|].
  cbn [packed_file flat_map length]. fold (packed_file rules).
  rewrite length_app, (packed_bytes pc pfx Hpfx Hmax).
  unfold record_bytes. rewrite length_app.
  change (length (u16_bytes _ ++ _)) with 16%nat. lia.
Qed.

(** The content of a file that the reader goes through: records it
    accepts, one after the other.  A record is a header of 16 bytes, whose
    length field is 16 plus the number of bytes that follow as the prefix
    buffer, and a prefix buffer that holds a NUL.  The records
    [fs_config_generate] writes are of this form; so are records with bytes
    after the NUL of the prefix, or of a size that is no multiple of 8. *)
Inductive accepted : list ascii -> Prop :=
| accepted_end : accepted []
| accepted_record (header buffer records : list ascii) :
    length header = 16%nat ->
    get2LE (header_len header) = 16 + Z.of_nat (length buffer) ->
    In NUL buffer ->
    accepted records ->
    accepted (header ++ buffer ++ records).

Lemma strnlen_finds_NUL buffer :
  In NUL buffer ->
  0 <= strnlen buffer (length buffer) < Z.of_nat (length buffer).
Proof.
  induction buffer as [|c buffer IH]; intros Hin; [destruct Hin|].
  cbn [strnlen length].
  destruct (Ascii.eqb_spec c NUL) as [->|Hc]; [lia|].
  destruct Hin as [->|Hin]; [contradiction|].
  specialize (IH Hin). lia.
Qed.

(** The reader on a record of that form. *)
Lemma read_record_accepts header buffer rest :
  length header = 16%nat ->
  get2LE (header_len header) = 16 + Z.of_nat (length buffer) ->
  In NUL buffer ->
  read_record (header ++ buffer ++ rest)
  = Record header buffer (strnlen buffer (length buffer)) rest.
Proof.
  intros Hhdr Hlen Hnul.
  pose proof (strnlen_finds_NUL buffer Hnul) as Hfound.
  pose proof (get2LE_range (header_len header)) as Hd.
  pose proof (remainder_value _ Hd) as Hrem.
  replace (get2LE (header_len header) - 16)
    with (Z.of_nat (length buffer)) in Hrem by lia.
  unfold read_record, read.
  change (Z.to_nat sizeof_header) with 16%nat.
  rewrite take_app_length', drop_app_length' by (rewrite Hhdr; reflexivity).
  rewrite Hhdr. change (negb (Z.of_nat 16 =? sizeof_header)) with false.
  cbv iota. rewrite Hrem.
  destruct (Z.leb_spec (Z.of_nat (length buffer)) 0); [lia|].
  rewrite Nat2Z.id.
  rewrite take_app_length', drop_app_length' by reflexivity.
  rewrite Z.eqb_refl. cbn [negb].
  destruct (Z.geb_spec (strnlen buffer (length buffer))
              (Z.of_nat (length buffer))); [lia|].
  reflexivity.
Qed.

Lemma strnlen_misses_NUL buffer :
  Z.of_nat (length buffer) <= strnlen buffer (length buffer) ->
  Forall (fun c => c <> NUL) buffer.
Proof.
  induction buffer as [|c buffer IH]; intros Hlen; [constructor|].
  cbn [strnlen length] in Hlen.
  destruct (Ascii.eqb_spec c NUL) as [->|Hc]; [lia|].
  constructor; [exact Hc|]. apply IH. lia.
Qed.

(** Every record the reader accepts is of that form. *)
Lemma read_record_splits fd header buffer len fd' :
  read_record fd = Record header buffer len fd' ->
  fd = header ++ buffer ++ fd'
  /\ length header = 16%nat
  /\ get2LE (header_len header) = 16 + Z.of_nat (length buffer)
  /\ In NUL buffer.
Proof.
  unfold read_record, read.
  pose proof (get2LE_range (header_len (take (Z.to_nat sizeof_header) fd)))
    as Hd.
  rewrite remainder_value by exact Hd.
  set (d := get2LE (header_len (take (Z.to_nat sizeof_header) fd))) in *.
  change (Z.to_nat sizeof_header) with 16%nat in *.
  destruct (Z.eqb_spec (Z.of_nat (length (take 16 fd))) sizeof_header)
    as [H16|]; [|discriminate].
  cbn [negb]. unfold sizeof_header in H16.
  destruct (Z.leb_spec (d - 16) 0) as [|Hrem]; [discriminate|].
  destruct (Z.eqb_spec
              (Z.of_nat (length (take (Z.to_nat (d - 16)) (drop 16 fd))))
              (d - 16)) as [Hlen|]; [|discriminate].
  cbn [negb].
  set (pfx := take (Z.to_nat (d - 16)) (drop 16 fd)) in *.
  assert (Hk : Z.to_nat (d - 16) = length pfx) by lia.
  rewrite Hk.
  destruct (Z.geb_spec (strnlen pfx (length pfx)) (d - 16)) as [|Hnul];
    [discriminate|].
  intros [= <- <- <- <-].
  split; [rewrite <- Hk; subst pfx; now rewrite !take_drop|].
  split; [lia|]. split; [fold d; lia|].
  destruct (in_dec ascii_dec NUL pfx) as [Hin|Hout]; [exact Hin|].
  exfalso. assert (Hno : Forall (fun c => c <> NUL) pfx).
  { apply List.Forall_forall. intros c Hc ->. contradiction. }
  rewrite strnlen_no_NUL in Hnul by exact Hno. lia.
Qed.

(** Every record the reader stops on is corrupt in one of the three
    ways. *)
Lemma read_record_corrupt_inv fd message :
  read_record fd = Corrupt message -> corrupt_at fd.
Proof.
  unfold read_record, read, corrupt_at, declared_len.
  pose proof (get2LE_range (header_len (take (Z.to_nat sizeof_header) fd)))
    as Hd.
  rewrite remainder_value by exact Hd.
  change (Z.to_nat sizeof_header) with 16%nat in *.
  set (d := get2LE (header_len (take 16 fd))) in *.
  destruct (Z.eqb_spec (Z.of_nat (length (take 16 fd))) sizeof_header)
    as [H16|]; [|discriminate].
  cbn [negb]. unfold sizeof_header in H16.
  rewrite length_take in H16.
  intros Hread. split; [lia|].
  destruct (Z.leb_spec (d - 16) 0) as [|Hrem]; [left; lia|].
  right. revert Hread.
  destruct (Z.eqb_spec
              (Z.of_nat (length (take (Z.to_nat (d - 16)) (drop 16 fd))))
              (d - 16)) as [Hlen|Hshort]; cbn [negb].
  - set (pfx := take (Z.to_nat (d - 16)) (drop 16 fd)) in *.
    assert (Hk : Z.to_nat (d - 16) = length pfx) by lia.
    rewrite Hk.
    destruct (Z.geb_spec (strnlen pfx (length pfx)) (d - 16)) as [Hnul|];
      [|discriminate].
    intros _. right.
    assert (Hfit : 16 < d <= Z.of_nat (length fd)).
    { subst pfx. rewrite length_take, length_drop in Hlen. lia. }
    split; [exact Hfit|].
    replace (Z.to_nat d - 16)%nat with (Z.to_nat (d - 16)) by lia.
    fold pfx. apply strnlen_misses_NUL. lia.
  - intros _. left. rewrite length_take, length_drop in Hshort. lia.
Qed.

(** Every file is made of records the reader accepts, followed by its
    end, by fewer bytes than a header, or by a corrupt record. *)
Lemma file_splits (fd : list ascii) :
  exists good rest,
    fd = good ++ rest
    /\ accepted good
    /\ (read_record rest = NoHeader \/ corrupt_at rest).
Proof.
  remember (length fd) as n eqn:Hn.
  revert fd Hn. induction n as [n IH] using lt_wf_ind. intros fd ->.
  destruct (read_record fd) as [|message|header buffer len fd'] eqn:Hread.
  - exists [], fd. repeat split; [constructor|now left].
  - exists [], fd. repeat split; [constructor|].
    right. exact (read_record_corrupt_inv fd message Hread).
  - destruct (read_record_splits fd header buffer len fd' Hread)
      as (-> & Hhdr & Hlen & Hnul).
    destruct (IH (length fd')) with (fd := fd')
      as (good & rest & -> & Hgood & Hrest); [|reflexivity|].
    { rewrite !length_app. lia. }
    exists (header ++ buffer ++ good), rest.
    split; [now rewrite <- !app_assoc|].
    split; [now constructor|exact Hrest].
Qed.

(** The records [fs_config_generate] writes are accepted. *)
Lemma packed_file_accepted rules :
  Forall encodable rules -> accepted (packed_file rules).
Proof.
  induction 1 as [|pc rules (pfx & Hpfx & Hmax) _ IH]; [constructor|].
  cbn [packed_file flat_map]. fold (packed_file rules).
  pose proof (strlen_nonneg pfx) as H0.
  pose proof (strlen_c_str pfx) as Hl.
  destruct (aligned_size pfx) as [_ Hlen]; [lia|].
  rewrite (packed_bytes pc pfx Hpfx Hmax). cbv zeta.
  unfold record_bytes. rewrite <- app_assoc.
  set (len := 8 * ((strlen pfx + 24) / 8)) in *.
  assert (Hpad : exists j,
            (Z.to_nat len - 16 - length (c_str pfx))%nat = S j)
    by (exists (Z.to_nat len - 17 - length (c_str pfx))%nat; lia).
  destruct Hpad as [j Hpad]. rewrite Hpad.
  apply accepted_record; [reflexivity| | |exact IH].
  - change (header_len (u16_bytes len ++ _)) with (u16_bytes len).
    rewrite get2LE_u16_bytes, (Z.mod_small len) by lia.
    rewrite length_app, length_replicate. lia.
  - apply in_or_app. right. now left.
Qed.

Section Skip.

Variable stray : ascii.
Variables (dir : bool) (path : list ascii) (plen mode : Z).

(** The records read before a corrupt one decide the scan of a file, as if
    the file ended where the corrupt record starts. *)
Lemma record_loop_ignores_tail good bad :
  accepted good ->
  corrupt_at bad ->
  forall fuel1 fuel2,
    (length good < fuel1)%nat -> (length good < fuel2)%nat ->
    record_loop stray fuel1 dir path plen mode (good ++ bad)
    = record_loop stray fuel2 dir path plen mode good.
Proof.
  intros Hgood Hbad.
  induction Hgood as [|header buffer records Hhdr Hlen Hnul _ IH];
    intros fuel1 fuel2 H1 H2;
    destruct fuel1 as [|fuel1]; [cbn in H1; lia| |cbn in H1; lia|];
    destruct fuel2 as [|fuel2]; try (cbn in H2; lia).
  - cbn [app record_loop].
    destruct (read_record_corrupt bad Hbad) as [message ->].
    reflexivity.
  - cbn [record_loop]. rewrite <- !app_assoc.
    rewrite !read_record_accepts by assumption.
    rewrite !length_app in H1, H2.
    rewrite (IH fuel1 fuel2) by lia.
    reflexivity.
Qed.

(** C5.  When a rule file holds a corrupt record (declared length at
    most the header size, prefix cut short by the end of the file, or
    prefix without NUL within the declared length) after any records the
    reader accepts, the matcher gives the result it would give if the file
    ended where the corrupt record starts: a complete record read before it
    may match, and otherwise matching goes on with the next file.  Neither
    the corrupt record nor anything after it in the file reaches the
    outputs; in particular a file that starts with a corrupt record is
    skipped whole.  By [file_splits] and [read_record_splits], every file
    in which the scan meets a corrupt record is of this form. *)
Theorem corrupt_record_skips_file (fs : gmap string (list ascii))
    (target_out_path : option (list ascii)) (which : nat)
    (whichs : list nat) (good bad : list ascii) :
  accepted good ->
  corrupt_at bad ->
  fs_config_open fs dir which target_out_path = Some (good ++ bad) ->
  conf_loop stray (which :: whichs) fs dir target_out_path path plen mode
  = bind (record_loop stray (S (length good)) dir path plen mode good)
      (fun r =>
         match r with
         | Unmatched =>
             conf_loop stray whichs fs dir target_out_path path plen mode
         | _ => ret r
         end)
  /\ (value (record_loop stray (S (length good)) dir path plen mode good)
      = Unmatched ->
      value (conf_loop stray (which :: whichs) fs dir target_out_path path
               plen mode)
      = value (conf_loop stray whichs fs dir target_out_path path plen
                 mode))
  /\ (good = [] ->
      conf_loop stray (which :: whichs) fs dir target_out_path path plen mode
      = conf_loop stray whichs fs dir target_out_path path plen mode).
Proof.
  intros Hgood Hbad Hopen.
  assert (Hloop :
    conf_loop stray (which :: whichs) fs dir target_out_path path plen mode
    = bind (record_loop stray (S (length good)) dir path plen mode good)
        (fun r =>
           match r with
           | Unmatched =>
               conf_loop stray whichs fs dir target_out_path path plen mode
           | _ => ret r
           end)).
  { cbn [conf_loop]. rewrite Hopen.
    rewrite (record_loop_ignores_tail good bad Hgood Hbad
               (S (length (good ++ bad))) (S (length good)));
      [reflexivity|rewrite length_app; lia|lia]. }
  split; [exact Hloop|]. split.
  - intros Hnone. rewrite Hloop, value_bind, Hnone. reflexivity.
  - intros ->. rewrite Hloop. cbn [length record_loop].
    change (read_record []) with NoHeader. cbv iota.
    unfold bind, ret.
    destruct (conf_loop stray whichs fs dir target_out_path path plen mode).
    reflexivity.
Qed.

End Skip.

(** A system rule file of three records.  The first is the record
    [fs_config_generate] writes for the rule of scenario S3.  The second is
    one the reader accepts and [fs_config_generate] never writes: 22 bytes,
    with "xy" after the NUL of its prefix "bar".  The third is corrupt: it
    declares 19 bytes, and its prefix "foo" has no NUL. *)
Definition fat_record : list ascii :=
  header_bytes 22 (octal "0600") 7 7 0 ++ lit "bar" ++ [NUL] ++ lit "xy".

Definition sample_good : list ascii := packed_file [rule_S3] ++ fat_record.

Definition sample_bad : list ascii :=
  header_bytes 19 (octal "0777") 1234 1234 0 ++ lit "foo".

Definition sample_fs : gmap string (list ascii) :=
  {[ "/system/etc/fs_config_files"%string := sample_good ++ sample_bad ]}.

(** The file "foo": the scan goes through the two records before the
    corrupt one, reaches it, and goes on with the next file. *)
Lemma corrupt_record_skips_file_witness :
  conf_loop "x" [0; 1; 2; 3]%nat sample_fs false None (lit "foo") 3 0
  = bind (record_loop "x" (S (length sample_good)) false (lit "foo") 3 0
            sample_good)
      (fun r =>
         match r with
         | Unmatched =>
             conf_loop "x" [1; 2; 3]%nat sample_fs false None (lit "foo") 3 0
         | _ => ret r
         end)
  /\ (value (record_loop "x" (S (length sample_good)) false (lit "foo") 3 0
               sample_good)
      = Unmatched ->
      value (conf_loop "x" [0; 1; 2; 3]%nat sample_fs false None (lit "foo")
               3 0)
      = value (conf_loop "x" [1; 2; 3]%nat sample_fs false None (lit "foo")
                 3 0))
  /\ (sample_good = [] ->
      conf_loop "x" [0; 1; 2; 3]%nat sample_fs false None (lit "foo") 3 0
      = conf_loop "x" [1; 2; 3]%nat sample_fs false None (lit "foo") 3 0).
Proof.
  apply (corrupt_record_skips_file "x" false (lit "foo") 3 0
           sample_fs None 0%nat [1; 2; 3]%nat sample_good sample_bad).
  - change sample_good
      with (take 16 (packed rule_S3)
            ++ drop 16 (packed rule_S3)
            ++ take 16 fat_record ++ drop 16 fat_record ++ []).
    apply accepted_record;
      [reflexivity|vm_compute; reflexivity|vm_compute; tauto|].
    apply accepted_record;
      [reflexivity|vm_compute; reflexivity|vm_compute; tauto|].
    apply accepted_end.
  - split; [vm_compute; lia|]. right. right.
    split; [vm_compute; split; [reflexivity|discriminate]|].
    vm_compute. repeat (constructor; [discriminate|]). constructor.
  - vm_compute. reflexivity.
Defined.

(** On that file, the corrupt record for "foo" gives nothing to the file
    "foo", which gets the terminal entry of [android_files]; the record
    read before it gives the result of scenario S3. *)
Example sample_fs_foo :
  fs_config "x" Totality.aosp_ids sample_fs (lit "/foo") false None 0
  = (Some {| out_uid := 0; out_gid := 0; out_mode := 420;
             out_capabilities := 0 |}, []).
Proof. vm_compute. reflexivity. Qed.

Example sample_fs_result :
  fs_config "x" Totality.aosp_ids sample_fs (lit "/system/bin/ls") false
    None 0
  = (Some {| out_uid := 0; out_gid := 2000; out_mode := octal "0755";
             out_capabilities := 0 |}, []).
Proof. vm_compute. reflexivity. Qed.

End Corruption.

(** ** The load at [len - 1] of an empty prefix *)

Module EmptyPrefix.
Import C CFacts FsConfig Codec Corruption.

(** Without the directory flag and with [len = 0], [fs_config_cmp] loads
    the byte at index [SIZE_MAX] of the prefix, which no buffer holds. *)
Lemma fs_config_cmp_empty_prefix (stray : ascii) (pfx path : list ascii)
    (plen : Z) :
  Z.of_nat (length pfx) < 2 ^ 64 ->
  faults (fs_config_cmp stray false pfx 0 path plen)
  = [OutOfBounds (2 ^ 64 - 1)].
Proof.
  intros Hsize. unfold fs_config_cmp. rewrite faults_bind.
  change (size_wrap (0 - 1)) with (2 ^ 64 - 1).
  unfold load.
  destruct (Z.ltb_spec (2 ^ 64 - 1) (Z.of_nat (length pfx))); [lia|].
  rewrite andb_false_r. unfold faults at 1, value. cbn [fst snd app].
  destruct (Ascii.eqb stray "*"); [reflexivity|].
  destruct (negb (plen =? 0)); reflexivity.
Qed.

(** With a prefix of at least one character the load is inside the
    buffer. *)
Lemma fs_config_cmp_in_bounds (stray : ascii) (dir : bool)
    (pfx path : list ascii) (plen : Z) :
  0 < strlen pfx < 2 ^ 64 ->
  faults (fs_config_cmp stray dir pfx (strlen pfx) path plen) = [].
Proof.
  intros Hlen. unfold fs_config_cmp.
  destruct dir.
  - destruct (plen <? strlen pfx); reflexivity.
  - rewrite faults_bind.
    destruct (CmpSpec.load_last stray pfx Hlen) as (c & -> & _).
    unfold faults at 1, value. cbn [fst snd app].
    destruct (Ascii.eqb c "*"); [reflexivity|].
    destruct (negb (plen =? strlen pfx)); reflexivity.
Qed.

(** The prefixes of the built-in tables are not empty, and the scan of a
    table makes no load outside a prefix. *)
Definition named (pc : fs_path_config) : Prop :=
  match prefix pc with
  | Some pfx => 0 < strlen pfx < 2 ^ 64
  | None => True
  end.

Lemma table_loop_in_bounds (stray : ascii) (table : list fs_path_config)
    (dir : bool) (path : list ascii) (plen : Z) :
  Forall named table ->
  faults (table_loop stray table dir path plen) = [].
Proof.
  induction 1 as [|pc table Hpc _ IH]; [reflexivity|].
  cbn [table_loop]. unfold named in Hpc.
  destruct (prefix pc) as [pfx|]; [|reflexivity].
  rewrite faults_bind, fs_config_cmp_in_bounds by exact Hpc.
  destruct (value (fs_config_cmp stray dir pfx (strlen pfx) path plen));
    [reflexivity|exact IH].
Qed.

Lemma built_in_tables_named (ids : android_ids) :
  Forall named (android_dirs ids) /\ Forall named (android_files ids).
Proof.
  split; repeat (constructor; [first [exact I | split; reflexivity]|]);
    constructor.
Qed.

(** A rule with the empty prefix, and the device whose system rule file
    holds the record [fs_config_generate] writes for it. *)
Definition empty_rule : fs_path_config := rule "0644" 0 0 0 [].

Definition empty_prefix_fs : gmap string (list ascii) :=
  {[ "/system/etc/fs_config_files"%string := packed empty_rule ]}.

(** C9 fails on the code.  The record of [empty_rule] is well formed: the
    reader accepts it with [len = 0]; and [fs_config], asked about a file
    on [empty_prefix_fs], calls [fs_config_cmp] with that length and loads
    the byte before the prefix buffer. *)
Theorem empty_prefix_out_of_bounds (stray : ascii) (ids : android_ids)
    (mode : Z) :
  (exists header,
     read_record (packed empty_rule)
     = Record header (replicate 8 NUL) 0 [])
  /\ exists log,
       faults (fs_config stray ids empty_prefix_fs (lit "/default.prop")
                 false None mode)
       = OutOfBounds (2 ^ 64 - 1) :: log.
Proof.
  assert (Hread : exists header,
            read_record (packed empty_rule)
            = Record header (replicate 8 NUL) 0 []).
  { eexists. vm_compute. reflexivity. }
  split; [exact Hread|]. destruct Hread as [header Hread].
  unfold fs_config.
  change (if Ascii.eqb (char_at (lit "/default.prop") 0) "/"
          then drop 1 (lit "/default.prop") else lit "/default.prop")
    with (lit "default.prop").
  change (seq 0 (length conf)) with [0; 1; 2; 3]%nat.
  rewrite faults_bind. cbn [conf_loop].
  replace (fs_config_open empty_prefix_fs false 0 None)
    with (Some (packed empty_rule)) by (vm_compute; reflexivity).
  rewrite faults_bind. cbn [record_loop]. rewrite Hread.
  rewrite faults_bind, fs_config_cmp_empty_prefix by (cbn; lia).
  eexists. reflexivity.
Qed.

End EmptyPrefix.

(** ** The prefix [fs_config_open] takes from [target_out_path] *)

Module TargetOutPath.
Import C FsConfig.

Fixpoint strip_suffix_slashes (rev_path : list ascii) : list ascii :=
  match rev_path with
  | c :: rest => if Ascii.eqb c "/" then strip_suffix_slashes rest
                 else rev_path
  | [] => []
  end.

(** The prefix as the comment of [fs_config_open] and the specification
    describe it: the trailing slashes are taken off the path, then a final
    "/system". *)
Definition spec_prefix (target_out_path : list ascii) : list ascii :=
  let stripped := rev (strip_suffix_slashes (rev (c_str target_out_path))) in
  let keep := (length stripped - length (lit "/system"))%nat in
  if decide (drop keep stripped = lit "/system")
  then take keep stripped
  else stripped.

(** The part of C10 that holds: when the prefixed name cannot be opened,
    or no [target_out_path] is given, the absolute name is opened. *)
Lemma fs_config_open_fallback (fs : gmap string (list ascii)) (dir : bool)
    (which : nat) (target_out_path : option (list ascii)) :
  (forall t, target_out_path = Some t ->
     open fs (precision_string (target_out_path_len t) t
              ++ conf_at which dir)
     = None) ->
  fs_config_open fs dir which target_out_path
  = open fs (conf_at which dir).
Proof.
  intros Hfail. unfold fs_config_open.
  destruct target_out_path as [t|]; [|reflexivity].
  destruct (negb (Ascii.eqb (char_at t 0) NUL)); [|reflexivity].
  now rewrite (Hfail t eq_refl).
Qed.

Definition out_fs (content : list ascii) : gmap string (list ascii) :=
  {[ "out/system/etc/fs_config_files"%string := content ]}.

(** C10 fails on the code.  For "out/system/" the prefix described is
    "out", and the code keeps "out/system": its [strcmp] compares
    "/system/", slash included, with "/system".  The file
    "out/system/etc/fs_config_files" is then not the one opened, while it is
    for "out/system". *)
Theorem trailing_slash_keeps_system (content : list ascii) :
  spec_prefix (lit "out/system/") = lit "out"
  /\ precision_string (target_out_path_len (lit "out/system/"))
       (lit "out/system/")
     = lit "out/system"
  /\ fs_config_open (out_fs content) false 0 (Some (lit "out/system/"))
     = None
  /\ fs_config_open (out_fs content) false 0 (Some (lit "out/system"))
     = Some content.
Proof.
  split; [reflexivity|]. split; [reflexivity|].
  split; reflexivity.
Qed.

End TargetOutPath.

(** ** The partition of the queue among the workers *)

Module Partition.
Import C Ueventd.

Section Workers.

Variable Uevent : Type.

Lemma emit_then {A} (e : event) (k : proc Uevent A) cb :
  (emit Uevent e;; k) cb
  = (outcome (k cb), object (k cb), e :: trace (k cb)).
Proof.
  unfold mbind, proc_bind, emit, outcome, object, trace.
  destruct (k cb) as [[r cb'] evs]. reflexivity.
Qed.

(** Two positions of one residue class are a multiple of [N] apart. *)
Lemma same_class_apart N i j :
  1 <= N -> i mod N = j mod N -> i < j -> i + N <= j.
Proof.
  intros HN Hmod Hlt.
  pose proof (Z.div_mod i N ltac:(lia)) as Hi.
  pose proof (Z.div_mod j N ltac:(lia)) as Hj.
  rewrite Hmod in Hi.
  assert (i / N < j / N) by nia.
  nia.
Qed.

(** Without wrap-around of the index, the loop started at [i] handles
    the positions from [i] on that are in the class of [i], once each. *)
Lemma handler_loop_spec N size cb :
  1 <= N -> size + N <= 2 ^ 32 ->
  forall fuel i,
    0 <= i -> Z.max 0 (size - i) < Z.of_nat fuel ->
    exists evs,
      handler_loop Uevent fuel i N size cb = (Ok tt, cb, evs)
      /\ forall j,
           count_occ Z.eq_dec (handled evs) j
           = if (i <=? j) && (j <? size) && (j mod N =? i mod N)
             then 1%nat else 0%nat.
Proof.
  intros HN Hsize fuel.
  induction fuel as [|fuel IH]; intros i Hi Hfuel; [lia|].
  cbn [handler_loop].
  destruct (Z.ltb_spec i size) as [Hlt|Hge].
  - rewrite emit_then.
    assert (Hw : uint_wrap (i + N) = i + N)
      by (unfold uint_wrap; apply Z.mod_small; lia).
    rewrite Hw.
    destruct (IH (i + N)) as (evs & Hrun & Hcount); [lia|lia|].
    rewrite Hrun. unfold outcome, object, trace. cbn [fst snd].
    eexists. split; [reflexivity|].
    intros j.
    change (handled (HandleDeviceEvent i :: evs)) with (i :: handled evs).
    cbn [count_occ]. rewrite Hcount.
    replace ((i + N) mod N) with (i mod N)
      by (rewrite <- (Z.mul_1_l N) at 2; now rewrite Z.mod_add by lia).
    destruct (Z.eq_dec i j) as [<-|Hne].
    + rewrite Z.leb_refl, Z.eqb_refl.
      destruct (Z.leb_spec (i + N) i); [lia|].
      destruct (Z.ltb_spec i size); [|lia]. reflexivity.
    + destruct (Z.eqb_spec (j mod N) (i mod N)) as [Hmod|_];
        [|now rewrite !andb_false_r].
      rewrite !andb_true_r.
      destruct (Z.leb_spec (i + N) j), (Z.leb_spec i j);
        try reflexivity; try lia.
      pose proof (same_class_apart N i j HN (eq_sym Hmod)). lia.
  - eexists. split; [reflexivity|].
    intros j. change (handled []) with (@nil Z). cbn [count_occ].
    destruct (Z.leb_spec i j), (Z.ltb_spec j size); try reflexivity. lia.
Qed.

(** C6, as the code has it.  For a queue [Q] and [N >= 1] workers with
    [|Q| + N <= 2^32] (the index of the loop is an [unsigned int]), the
    worker [w] runs to its [_exit(EXIT_SUCCESS)] and handles the position
    [i] exactly once when [i] is in the queue and [i mod N = w], and not at
    all otherwise: every position of the queue is handled by exactly one
    worker, once. *)
Theorem partition_exactly_once (cb : ColdBoot Uevent) (N w : Z) :
  1 <= N ->
  Z.of_nat (length (uevent_queue_ Uevent cb)) + N <= 2 ^ 32 ->
  0 <= w < N ->
  let run := UeventHandlerMain Uevent (S (length (uevent_queue_ Uevent cb)))
               w N cb in
  outcome run = Halt (Exited EXIT_SUCCESS)
  /\ forall i,
       count_occ Z.eq_dec (handled (trace run)) i
       = if (0 <=? i) && (i <? Z.of_nat (length (uevent_queue_ Uevent cb)))
            && (i mod N =? w)
         then 1%nat else 0%nat.
Proof.
  intros HN Hsize Hw run. subst run.
  set (size := Z.of_nat (length (uevent_queue_ Uevent cb))) in *.
  destruct (handler_loop_spec N size cb HN Hsize
              (S (length (uevent_queue_ Uevent cb))) w)
    as (evs & Hrun & Hcount); [lia|lia|].
  unfold UeventHandlerMain, mbind, proc_bind, get. fold size.
  rewrite Hrun. unfold outcome, trace, stop. cbn [fst snd].
  split; [reflexivity|].
  intros i. rewrite app_nil_r, Hcount.
  rewrite (Z.mod_small w N) by lia.
  destruct (Z.leb_spec w i), (Z.leb_spec 0 i); try reflexivity; try lia.
  cbn [andb].
  destruct (Z.eqb_spec (i mod N) w) as [Hmod|_];
    [|now rewrite !andb_false_r].
  pose proof (Z.mod_pos_bound i N ltac:(lia)).
  pose proof (Z.mod_le i N ltac:(lia) ltac:(lia)). lia.
Qed.

End Workers.

(** Five uevents and two workers: the second worker. *)
Definition five_queued : ColdBoot unit :=
  {| num_handler_subprocesses_ := 2;
     uevent_queue_ := [(); (); (); (); ()];
     subprocess_pids_ := ∅ |}.

Lemma partition_exactly_once_witness :
  outcome (UeventHandlerMain unit 6 1 2 five_queued)
  = Halt (Exited EXIT_SUCCESS)
  /\ forall i,
       count_occ Z.eq_dec
         (handled (trace (UeventHandlerMain unit 6 1 2 five_queued))) i
       = if (0 <=? i) && (i <? 5) && (i mod 2 =? 1) then 1%nat else 0%nat.
Proof.
  apply (partition_exactly_once unit five_queued 2 1);
    [lia|vm_compute; discriminate|lia].
Defined.

(** A queue of [2^31 + 1] uevents, for [2^31] workers. *)
Definition huge_queue : ColdBoot unit :=
  {| num_handler_subprocesses_ := 2 ^ 31;
     uevent_queue_ := replicate (Z.to_nat (2 ^ 31 + 1)) ();
     subprocess_pids_ := ∅ |}.

(** C6, as the specification words it, fails: on [huge_queue] the index of
    worker 0 goes from 0 to [2^31] and wraps around to 0, so that the first
    three turns of its loop handle position 0 twice. *)
Lemma partition_counterexample :
  1 <= num_handler_subprocesses_ unit huge_queue
  /\ Z.of_nat (length (uevent_queue_ unit huge_queue)) = 2 ^ 31 + 1
  /\ trace (UeventHandlerMain unit 3 0 (2 ^ 31) huge_queue)
     = [HandleDeviceEvent 0; HandleDeviceEvent (2 ^ 31); HandleDeviceEvent 0]
  /\ count_occ Z.eq_dec
       (handled (trace (UeventHandlerMain unit 3 0 (2 ^ 31) huge_queue))) 0
     = 2%nat.
Proof.
  assert (Hsize : Z.of_nat (length (uevent_queue_ unit huge_queue))
                  = 2 ^ 31 + 1).
  { cbn [huge_queue uevent_queue_]. rewrite length_replicate.
    apply Z2Nat.id. discriminate. }
  assert (Htrace : trace (UeventHandlerMain unit 3 0 (2 ^ 31) huge_queue)
                   = [HandleDeviceEvent 0; HandleDeviceEvent (2 ^ 31);
                      HandleDeviceEvent 0]).
  { unfold UeventHandlerMain, mbind, proc_bind, get. rewrite Hsize.
    cbn [handler_loop].
    repeat (rewrite emit_then; unfold outcome, object, trace; cbn [fst snd]).
    reflexivity. }
  split; [discriminate|]. split; [exact Hsize|]. split; [exact Htrace|].
  rewrite Htrace. reflexivity.
Qed.

End Partition.

(** ** The order of the cold boot *)

Module ColdBootOrder.
Import C Ueventd.

Section Phases.

Variable Uevent : Type.
Variable COLDBOOT_DONE : string.

Abbreviation environment := (environment Uevent).
Abbreviation ColdBoot := (ColdBoot Uevent).
Abbreviation proc := (proc Uevent).

Lemma bind_run {A B} (m : proc A) (f : A -> proc B) (cb : ColdBoot) :
  (m ≫= f) cb
  = match outcome (m cb) with
    | Ok a =>
        let next := f a (object (m cb)) in
        (outcome next, object next, trace (m cb) ++ trace next)
    | Halt h => (Halt h, object (m cb), trace (m cb))
    end.
Proof.
  unfold mbind, proc_bind, outcome, object, trace.
  destruct (m cb) as [[[a|h] cb'] evs]; cbn [fst snd]; [|reflexivity].
  destruct (f a cb') as [[r cb''] evs']. reflexivity.
Qed.

Lemma run_eta {A} (run : result A * ColdBoot * list event) :
  run = (outcome run, object run, trace run).
Proof. destruct run as [[r cb] evs]. reflexivity. Qed.

Lemma forked_app evs1 evs2 : forked (evs1 ++ evs2) = forked evs1 ++ forked evs2.
Proof. apply omap_app. Qed.

Lemma opened_app evs1 evs2 : opened (evs1 ++ evs2) = opened evs1 ++ opened evs2.
Proof. apply omap_app. Qed.


(** *** [RegenerateUevents] *)

Lemma regenerate_loop_run uevents : forall cb,
  let run := regenerate_loop Uevent uevents cb in
  outcome run = Ok tt
  /\ num_handler_subprocesses_ _ (object run) = num_handler_subprocesses_ _ cb
  /\ subprocess_pids_ _ (object run) = subprocess_pids_ _ cb
  /\ forked (trace run) = []
  /\ opened (trace run) = [].
Proof.
  induction uevents as [|uevent uevents IH]; intros cb; [repeat split|].
  cbn [regenerate_loop].
  set (cb1 := {| num_handler_subprocesses_ := num_handler_subprocesses_ _ cb;
                 uevent_queue_ := uevent_queue_ _ cb ++ [uevent];
                 subprocess_pids_ := subprocess_pids_ _ cb |}).
  destruct (IH cb1) as (Hok & Hnum & Hpids & Hforked & Hopened).
  rewrite !bind_run. cbn [get emit put outcome object trace fst snd app].
  cbv zeta. rewrite !bind_run.
  cbn [get emit put outcome object trace fst snd app]. cbv zeta.
  fold cb1. unfold outcome, object, trace in *. cbn [fst snd].
  repeat split; assumption.
Qed.

(** *** [ForkSubProcesses] *)

Lemma handler_loop_quiet fuel : forall i total size cb,
  let run := handler_loop Uevent fuel i total size cb in
  forked (trace run) = [] /\ opened (trace run) = [].
Proof.
  induction fuel as [|fuel IH]; intros i total size cb; [split; reflexivity|].
  cbn [handler_loop]. destruct (i <? size); [|split; reflexivity].
  rewrite Partition.emit_then. unfold trace at 1 3. cbn [snd].
  apply (IH (uint_wrap (i + total)) total size cb).
Qed.

Lemma UeventHandlerMain_run fuel process_num total cb :
  let run := UeventHandlerMain Uevent fuel process_num total cb in
  outcome run <> Ok tt
  /\ forked (trace run) = [] /\ opened (trace run) = [].
Proof.
  unfold UeventHandlerMain. rewrite bind_run.
  cbn [get outcome object trace fst snd app]. cbv zeta.
  rewrite bind_run.
  destruct (handler_loop_quiet fuel process_num total
              (Z.of_nat (length (uevent_queue_ _ cb))) cb) as [Hf Ho].
  destruct (outcome (handler_loop Uevent fuel process_num total _ cb));
    cbn [stop outcome object trace fst snd]; cbv zeta.
  - rewrite app_nil_r. repeat split; [discriminate|assumption..].
  - repeat split; [discriminate|assumption..].
Qed.

Ltac step_bind :=
  rewrite bind_run;
  cbn [get emit put stop mret proc_ret outcome object trace fst snd app];
  cbv zeta.

Lemma fork_loop_run (env : environment) fuel remaining : forall i cb,
  let run := fork_loop Uevent env fuel remaining i cb in
  opened (trace run) = []
  /\ (outcome run = Ok tt ->
      num_handler_subprocesses_ _ (object run)
        = num_handler_subprocesses_ _ cb
      /\ subprocess_pids_ _ (object run)
         = list_to_set (forked (trace run)) ∪ subprocess_pids_ _ cb
      /\ length (forked (trace run)) = remaining)
  /\ ((forall k, 0 < fork_result _ env k) -> outcome run = Ok tt).
Proof.
  induction remaining as [|remaining IH]; intros i cb.
  { cbn. repeat split. set_solver. }
  cbn [fork_loop]. set (pid := fork_result _ env (Z.to_nat i)).
  step_bind.
  destruct (Z.ltb_spec pid 0) as [Hneg|Hpos].
  { step_bind. repeat split; try discriminate.
    intros Hall. specialize (Hall (Z.to_nat i)). fold pid in Hall. lia. }
  do 2 step_bind.
  destruct (Z.eqb_spec pid 0) as [Hchild|Hparent].
  { rewrite bind_run.
    destruct (UeventHandlerMain_run fuel i
                (num_handler_subprocesses_ _ cb) cb) as (Hhalt & _ & Ho).
    destruct (outcome (UeventHandlerMain Uevent fuel i _ cb)) as [[]|h];
      [contradiction|].
    cbn [outcome object trace fst snd].
    change (opened (Fork pid :: ?evs)) with (opened evs).
    repeat split; try discriminate; [exact Ho|].
    intros Hall. specialize (Hall (Z.to_nat i)). fold pid in Hall. lia. }
  do 2 step_bind.
  set (cb1 := {| num_handler_subprocesses_ :=
                   num_handler_subprocesses_ _ cb;
                 uevent_queue_ := uevent_queue_ _ cb;
                 subprocess_pids_ := {[pid]} ∪ subprocess_pids_ _ cb |}).
  destruct (IH (i + 1) cb1) as (Ho & Hok & Hall).
  change (opened (Fork pid :: ?evs)) with (opened evs).
  change (forked (Fork pid :: ?evs)) with (pid :: forked evs).
  split; [exact Ho|]. split; [|exact Hall].
  intros Hrun. destruct (Hok Hrun) as (Hnum & Hpids & Hlen).
  split; [exact Hnum|]. split; [|cbn [length]; now rewrite Hlen].
  rewrite Hpids. cbn [subprocess_pids_ cb1 list_to_set]. set_solver.
Qed.

(** *** [WaitForSubProcesses] *)

Lemma wait_loop_run returns : forall cb,
  let run := wait_loop Uevent returns cb in
  opened (trace run) = []
  /\ forked (trace run) = []
  /\ (outcome run = Ok tt ->
      forall pid, pid ∈ subprocess_pids_ _ cb ->
        In (Waitpid pid (WExited EXIT_SUCCESS)) (trace run)).
Proof.
  induction returns as [|[pid status] returns IH]; intros cb;
    cbn [wait_loop]; step_bind;
    destruct (decide (subprocess_pids_ _ cb = ∅)) as [Hempty|Hpids];
    try (cbn; repeat split; try discriminate;
         intros _ pid' Hin; rewrite Hempty in Hin; set_solver).
  step_bind.
  change (opened (Waitpid pid status :: ?evs)) with (opened evs).
  change (forked (Waitpid pid status :: ?evs)) with (forked evs).
  assert (Hsame :
    let run := wait_loop Uevent returns cb in
    opened (trace run) = [] /\ forked (trace run) = []
    /\ (outcome run = Ok tt ->
        forall pid', pid' ∈ subprocess_pids_ _ cb ->
          In (Waitpid pid' (WExited EXIT_SUCCESS))
             (Waitpid pid status :: trace run))).
  { destruct (IH cb) as (Ho & Hf & Hreap).
    repeat split; [exact Ho|exact Hf|].
    intros Hok pid' Hin. right. exact (Hreap Hok pid' Hin). }
  destruct (Z.eqb_spec pid (-1)); [exact Hsame|].
  destruct (decide (pid ∈ subprocess_pids_ _ cb)) as [Hmine|_];
    [|exact Hsame].
  destruct status as [exit_status|sig|]; [| |exact Hsame].
  - destruct (Z.eqb_spec exit_status EXIT_SUCCESS) as [->|Hfail].
    + step_bind.
      set (cb1 := {| num_handler_subprocesses_ :=
                       num_handler_subprocesses_ _ cb;
                     uevent_queue_ := uevent_queue_ _ cb;
                     subprocess_pids_ := subprocess_pids_ _ cb ∖ {[pid]} |}).
      destruct (IH cb1) as (Ho & Hf & Hreap).
      repeat split; [exact Ho|exact Hf|].
      intros Hok pid' Hin.
      destruct (decide (pid' = pid)) as [->|Hne]; [left; reflexivity|].
      right. apply (Hreap Hok). cbn [subprocess_pids_ cb1]. set_solver.
    + cbn. repeat split. discriminate.
  - cbn. repeat split. discriminate.
Qed.

(** *** [Run] *)

Definition restorecon_events : list event :=
  [Restorecon "/sys" [SELINUX_ANDROID_RESTORECON_RECURSE];
   SetSkipRestorecon false].

Definition mark_done_events (env : environment) : list event :=
  [Open COLDBOOT_DONE [O_WRONLY; O_CREAT; O_CLOEXEC] 0 (open_result _ env);
   Close (open_result _ env)].

(** [Run], phase by phase. *)
Lemma Run_phases (env : environment) fuel cb :
  let regen := RegenerateUevents Uevent env cb in
  let forks := ForkSubProcesses Uevent env fuel (object regen) in
  let waits := WaitForSubProcesses Uevent env (object forks) in
  Run Uevent COLDBOOT_DONE env fuel cb
  = match outcome forks with
    | Halt h => (Halt h, object forks, trace regen ++ trace forks)
    | Ok _ =>
        match outcome waits with
        | Halt h =>
            (Halt h, object waits,
             trace regen ++ trace forks ++ restorecon_events ++ trace waits)
        | Ok _ =>
            (Ok tt, object waits,
             trace regen ++ trace forks ++ restorecon_events
             ++ trace waits ++ mark_done_events env)
        end
    end.
Proof.
  intros regen forks waits. unfold Run.
  destruct (regenerate_loop_run (regenerated _ env) cb) as (Hregen & _).
  fold (RegenerateUevents Uevent env) in Hregen. fold regen in Hregen.
  rewrite bind_run. fold regen. rewrite Hregen. cbv zeta.
  rewrite bind_run. fold forks.
  destruct (outcome forks) as [[]|h]; [|reflexivity].
  cbv zeta. rewrite bind_run.
  change (DoRestoreCon Uevent (object forks))
    with (Ok tt, object forks, restorecon_events).
  cbn [outcome object trace fst snd]. cbv zeta.
  rewrite bind_run. fold waits.
  destruct (outcome waits) as [[]|h]; [|reflexivity].
  reflexivity.
Qed.

Lemma ForkSubProcesses_run (env : environment) fuel cb :
  let run := ForkSubProcesses Uevent env fuel cb in
  opened (trace run) = []
  /\ (outcome run = Ok tt ->
      subprocess_pids_ _ (object run)
        = list_to_set (forked (trace run)) ∪ subprocess_pids_ _ cb
      /\ length (forked (trace run))
         = Z.to_nat (num_handler_subprocesses_ _ cb))
  /\ ((forall k, 0 < fork_result _ env k) -> outcome run = Ok tt).
Proof.
  unfold ForkSubProcesses. step_bind.
  destruct (fork_loop_run env fuel
              (Z.to_nat (num_handler_subprocesses_ _ cb)) 0 cb)
    as (Ho & Hok & Hall).
  split; [exact Ho|]. split; [|exact Hall].
  intros Hrun. destruct (Hok Hrun) as (_ & Hpids & Hlen). now split.
Qed.

(** An [Open] in a trace whose other events are not [Open]s is where it
    is. *)
Lemma split_at_open A a B : forall pre path flags mode fd post,
  opened A = [] -> opened B = [] ->
  A ++ a :: B = pre ++ Open path flags mode fd :: post ->
  opened [a] <> [] ->
  pre = A /\ a = Open path flags mode fd /\ post = B.
Proof.
  induction A as [|e A IH]; intros pre path flags mode fd post HA HB Heq Ha.
  - destruct pre as [|e' pre]; cbn [app] in Heq.
    + injection Heq as -> ->. repeat split.
    + injection Heq as -> ->. rewrite opened_app in HB.
      apply app_eq_nil in HB as [_ HB]. discriminate HB.
  - destruct pre as [|e' pre]; cbn [app] in Heq.
    + injection Heq as -> _. discriminate HA.
    + injection Heq as <- Heq.
      assert (HA' : opened A = []).
      { change (e :: A) with ([e] ++ A) in HA. rewrite opened_app in HA.
        now apply app_eq_nil in HA as [_ HA]. }
      destruct (IH pre path flags mode fd post HA' HB Heq Ha)
        as (-> & -> & ->).
      repeat split.
Qed.

Lemma no_open_in evs pre path flags mode fd post :
  opened evs = [] -> evs <> pre ++ Open path flags mode fd :: post.
Proof.
  intros Ho ->. rewrite opened_app in Ho.
  apply app_eq_nil in Ho as [_ Ho]. discriminate Ho.
Qed.


(** Either [Run] returns and its trace ends with the events of the
    marker, the first [open] of the trace, or it does not return and
    opens nothing. *)
Lemma Run_trace (env : environment) fuel cb :
  let run := Run Uevent COLDBOOT_DONE env fuel cb in
  (outcome run = Ok tt
   /\ exists before,
        opened before = []
        /\ trace run = before ++ mark_done_events env)
  \/ (outcome run <> Ok tt /\ opened (trace run) = []).
Proof.
  intros run. subst run. rewrite Run_phases. cbv zeta.
  destruct (regenerate_loop_run (regenerated _ env) cb)
    as (_ & _ & _ & _ & Hor).
  fold (RegenerateUevents Uevent env) in Hor.
  set (regen := RegenerateUevents Uevent env cb) in *.
  destruct (ForkSubProcesses_run env fuel (object regen)) as (Hof & _).
  set (forks := ForkSubProcesses Uevent env fuel (object regen)) in *.
  destruct (wait_loop_run (waitpid_results _ env) (object forks))
    as (How & _).
  fold (WaitForSubProcesses Uevent env) in How.
  set (waits := WaitForSubProcesses Uevent env (object forks)) in *.
  destruct (outcome forks) as [[]|h].
  2:{ right. cbn [outcome trace fst snd]. split; [discriminate|].
      now rewrite opened_app, Hor, Hof. }
  destruct (outcome waits) as [[]|h].
  2:{ right. cbn [outcome trace fst snd]. split; [discriminate|].
      now rewrite !opened_app, Hor, Hof, How. }
  left. cbn [outcome trace fst snd]. split; [reflexivity|].
  exists (trace regen ++ trace forks ++ restorecon_events ++ trace waits).
  split; [now rewrite !opened_app, Hor, Hof, How|].
  now rewrite <- !app_assoc.
Qed.

(** C7, as the code has it.  When no [fork] fails and the run is the
    parent's, the number of workers forked is the hardware concurrency, or
    4 when the hardware concurrency is reported as 0; it is at least 1. *)
Theorem forked_worker_count (env : environment) (fuel : nat) :
  0 <= hardware_concurrency _ env ->
  (forall k, 0 < fork_result _ env k) ->
  let run := Run Uevent COLDBOOT_DONE env fuel (ColdBoot_new Uevent env) in
  Z.of_nat (length (forked (trace run)))
  = (if hardware_concurrency _ env =? 0 then 4
     else hardware_concurrency _ env)
  /\ 1 <= Z.of_nat (length (forked (trace run))).
Proof.
  intros Hhc Hall run. subst run. rewrite Run_phases. cbv zeta.
  set (cb := ColdBoot_new Uevent env).
  destruct (regenerate_loop_run (regenerated _ env) cb)
    as (_ & Hnum & _ & Hfr & _).
  fold (RegenerateUevents Uevent env) in Hnum, Hfr.
  set (regen := RegenerateUevents Uevent env cb) in *.
  destruct (ForkSubProcesses_run env fuel (object regen))
    as (_ & Hforks & Hok).
  set (forks := ForkSubProcesses Uevent env fuel (object regen)) in *.
  destruct (wait_loop_run (waitpid_results _ env) (object forks))
    as (_ & Hfw & _).
  fold (WaitForSubProcesses Uevent env) in Hfw.
  set (waits := WaitForSubProcesses Uevent env (object forks)) in *.
  specialize (Hok Hall). destruct (Hforks Hok) as (_ & Hcount).
  rewrite Hok.
  assert (Hlen : Z.of_nat (length (forked (trace forks)))
                 = if hardware_concurrency _ env =? 0 then 4
                   else hardware_concurrency _ env).
  { rewrite Hcount, Hnum. subst cb. cbn [ColdBoot_new num_handler_subprocesses_].
    destruct (Z.eqb_spec (hardware_concurrency _ env) 0); lia. }
  assert (Hpos : 1 <= Z.of_nat (length (forked (trace forks))))
    by (rewrite Hlen;
        destruct (Z.eqb_spec (hardware_concurrency _ env) 0); lia).
  destruct (outcome waits) as [[]|h]; cbn [trace snd];
    rewrite !forked_app, Hfr, Hfw;
    change (forked restorecon_events) with (@nil Z);
    try change (forked (mark_done_events env)) with (@nil Z);
    cbn [app]; rewrite ?app_nil_r; split; assumption.
Qed.

(** C8, as the code has it.  The value [open] returns for the marker is
    passed to [close] and looked at by nothing else: when the trace of
    [ueventd_main] holds the [open] of the marker, whatever it returned, a
    failure included, the next calls are that [close] and [Poll], and the
    daemon is in its steady-state loop. *)
Theorem marker_failure_ignored (env : environment) (fuel : nat)
    (pre : list event) (path : string) (flags : list open_flag)
    (mode fd : Z) (post : list event) :
  (ueventd_main Uevent COLDBOOT_DONE env fuel).2
    = pre ++ Open path flags mode fd :: post ->
  fd = open_result _ env
  /\ post = [Close fd; Poll]
  /\ (ueventd_main Uevent COLDBOOT_DONE env fuel).1 = Halt Polling.
Proof.
  unfold ueventd_main. step_bind.
  destruct (coldboot_done_exists _ env); cbn [negb].
  { repeat step_bind. intros Heq.
    exfalso. revert Heq. now apply no_open_in. }
  rewrite bind_run.
  destruct (Run_trace env fuel (ColdBoot_new Uevent env))
    as [(Hok & before & Hbefore & Htrace)|(Hhalt & Hnone)].
  - rewrite Hok, Htrace. cbv zeta. repeat step_bind.
    intros Heq.
    rewrite <- app_assoc in Heq. unfold mark_done_events in Heq.
    cbn [app] in Heq.
    change (Access COLDBOOT_DONE false :: before ++ ?l)
      with ((Access COLDBOOT_DONE false :: before) ++ l) in Heq.
    apply split_at_open in Heq as (_ & Hopen & Hpost);
      [|exact Hbefore|reflexivity|discriminate].
    injection Hopen as _ _ _ Hfd. subst fd post. repeat split.
  - destruct (outcome (Run Uevent COLDBOOT_DONE env fuel _)) as [[]|h];
      [now contradict Hhalt|].
    cbn [outcome object trace fst snd]. intros Heq. exfalso. revert Heq.
    change (Access COLDBOOT_DONE false :: ?l)
      with ([Access COLDBOOT_DONE false] ++ l).
    apply no_open_in. now rewrite opened_app, Hnone.
Qed.

End Phases.

(** A cold boot of two uevents on a machine that reports two hardware
    threads: both workers exit with status 0 after a failed [waitpid] and
    the exit of a process that is not a worker; the [open] of the marker
    fails. *)
Definition marker : string := "/dev/.coldboot_done".

Definition two_workers : environment unit :=
  {| hardware_concurrency := 2;
     regenerated := [(); ()];
     fork_result := fun k => 100 + Z.of_nat k;
     waitpid_results :=
       [(-1, WOther); (101, WExited 0); (7, WExited 1); (100, WExited 0)];
     open_result := -1;
     coldboot_done_exists := false |}.

Definition before_marker : list event :=
  [HandleFirmwareEvent 0; HandleFirmwareEvent 1; Fork 100; Fork 101;
   Restorecon "/sys" [SELINUX_ANDROID_RESTORECON_RECURSE];
   SetSkipRestorecon false;
   Waitpid (-1) WOther; Waitpid 101 (WExited 0); Waitpid 7 (WExited 1);
   Waitpid 100 (WExited 0)].


(** C7, as the specification words it, fails: with a hardware concurrency
    of 2, two workers are forked, not [max 2 4 = 4]. *)
Lemma forked_worker_count_counterexample :
  hardware_concurrency unit two_workers = 2
  /\ forked (trace (Run unit marker two_workers 0
                      (ColdBoot_new unit two_workers)))
     = [100; 101]
  /\ Z.max (hardware_concurrency unit two_workers) 4 = 4.
Proof. repeat split. Qed.

Lemma forked_worker_count_witness :
  Z.of_nat (length (forked (trace (Run unit marker two_workers 0
                                     (ColdBoot_new unit two_workers)))))
  = 2
  /\ 1 <= Z.of_nat (length (forked (trace (Run unit marker two_workers 0
                                      (ColdBoot_new unit two_workers))))).
Proof.
  apply (forked_worker_count unit marker two_workers 0).
  - cbn. lia.
  - intros k. cbn. lia.
Defined.

(** C8, as the specification words it, fails: on [two_workers] the [open]
    of the marker returns -1, nothing aborts, and the daemon polls. *)
Lemma marker_failure_counterexample :
  open_result unit two_workers < 0
  /\ ueventd_main unit marker two_workers 0
     = (Halt Polling,
        Access marker false
        :: before_marker
        ++ [Open marker [O_WRONLY; O_CREAT; O_CLOEXEC] 0 (-1);
            Close (-1); Poll]).
Proof. split; [reflexivity|]. vm_compute. reflexivity. Qed.

Lemma marker_failure_ignored_witness :
  -1 = open_result unit two_workers
  /\ [Close (-1); Poll] = [Close (-1); Poll]
  /\ (ueventd_main unit marker two_workers 0).1 = Halt Polling.
Proof.
  apply (marker_failure_ignored unit marker two_workers 0
           (Access marker false :: before_marker) marker
           [O_WRONLY; O_CREAT; O_CLOEXEC] 0 (-1) [Close (-1); Poll]).
  vm_compute. reflexivity.
Defined.

End ColdBootOrder.

(** * Further properties of [fs_config.c] *)

(** ** Little-endian words, alignment and the record writer *)

Module Words.
Import C CFacts FsConfig Codec Corruption.

Lemma byte_of_congr x y : x mod 2 ^ 8 = y mod 2 ^ 8 -> byte_of x = byte_of y.
Proof. unfold byte_of. change 256 with (2 ^ 8). now intros ->. Qed.

(** X1.  [get2LE] reads back the 16 bits a little-endian host stores, and
    the two bytes it is given are those of the value it returns, which is
    below [2^16]: on the host the code is written for, a [uint16_t] field
    and its bytes in the file are one and the same. *)
Theorem get2LE_inverse (x : Z) (a b : ascii) :
  get2LE (u16_bytes x) = x mod 2 ^ 16
  /\ u16_bytes (get2LE [a; b]) = [a; b]
  /\ 0 <= get2LE [a; b] < 2 ^ 16.
Proof.
  split; [apply get2LE_u16_bytes|]. split; [|apply get2LE_range].
  unfold u16_bytes, get2LE, char_at. cbn [nth].
  rewrite <- (byte_of_val a) at 3. rewrite <- (byte_of_val b) at 3.
  rewrite <- (byte_of_val a) at 1 2. rewrite <- (byte_of_val b) at 1 2.
  generalize (byte_val a) (byte_val b). intros va vb.
  f_equal; [|f_equal]; apply byte_of_congr; bitwise.
Qed.

Lemma u64_bytes_get8LE (v0 v1 v2 v3 v4 v5 v6 v7 : Z) :
  let bytes := [byte_of v0; byte_of v1; byte_of v2; byte_of v3;
                byte_of v4; byte_of v5; byte_of v6; byte_of v7] in
  u64_bytes (get8LE bytes) = bytes.
Proof.
  cbv zeta.
  unfold u64_bytes, u32_bytes, u16_bytes, get8LE, char_at, uint_wrap.
  cbn [nth app].
  repeat (f_equal; [apply byte_of_congr; bitwise|]).
  f_equal. apply byte_of_congr. bitwise.
Qed.

(** X2.  [get8LE] reads back the 64 bits a little-endian host stores,
    and the eight bytes it is given are those of the value it returns. *)
Theorem get8LE_inverse (x : Z) (b0 b1 b2 b3 b4 b5 b6 b7 : ascii) :
  get8LE (u64_bytes x) = x mod 2 ^ 64
  /\ u64_bytes (get8LE [b0; b1; b2; b3; b4; b5; b6; b7])
     = [b0; b1; b2; b3; b4; b5; b6; b7].
Proof.
  split; [apply get8LE_u64_bytes|].
  pose proof (u64_bytes_get8LE (byte_val b0) (byte_val b1) (byte_val b2)
                (byte_val b3) (byte_val b4) (byte_val b5) (byte_val b6)
                (byte_val b7)) as H.
  cbv zeta in H. now rewrite !byte_of_val in H.
Qed.

(** X3.  [ALIGN(x, 8)] is the least multiple of 8 that is at least [x],
    as long as [x + 7] fits a [size_t]. *)
Theorem ALIGN_rounds_up (x : Z) :
  0 <= x -> x + 7 < 2 ^ 64 ->
  ALIGN x 8 mod 8 = 0 /\ x <= ALIGN x 8 < x + 8.
Proof.
  intros H0 H1.
  rewrite <- (Z.mod_small x (2 ^ 64)) at 1 3 4 by lia.
  change (x mod 2 ^ 64) with (size_wrap x).
  rewrite ALIGN_8 by lia.
  pose proof (Z.div_mod (x + 7) 8 ltac:(lia)).
  pose proof (Z.mod_pos_bound (x + 7) 8 ltac:(lia)).
  split; [|lia].
  rewrite Z.mul_comm. apply Z.mod_mul. lia.
Qed.

Lemma ALIGN_rounds_up_witness :
  ALIGN 29 8 mod 8 = 0 /\ 29 <= ALIGN 29 8 < 29 + 8.
Proof. apply (ALIGN_rounds_up 29); [lia|reflexivity]. Defined.

Lemma c_str_pad_rest pfx j rest :
  c_str ((c_str pfx ++ replicate (S j) NUL) ++ rest) = c_str pfx.
Proof.
  pose proof (c_str_no_NUL pfx) as Hno.
  induction Hno as [|c s Hc _ IH]; [reflexivity|].
  cbn [app c_str]. destruct (Ascii.eqb_spec c NUL); [contradiction|].
  now rewrite IH.
Qed.

(** X4.  What [fs_config_generate] does with a buffer of [size] bytes,
    [len] being the size of the record (16 bytes of header, the prefix and
    its NUL, rounded up to a multiple of 8).  When [size < len] or
    [len > UINT16_MAX] it returns [-ENOSPC] and writes nothing.  Otherwise
    it returns [len] and writes the first [len] bytes of the buffer only:
    the buffer keeps its size and its bytes from [len] on, and holds the
    prefix as a C string at offset 16. *)
Theorem fs_config_generate_outcome (buffer : list ascii) (size : Z)
    (pc : fs_path_config) (pfx : list ascii) :
  prefix pc = Some pfx ->
  strlen pfx + 24 < 2 ^ 64 ->
  size <= Z.of_nat (length buffer) ->
  let len := 8 * ((strlen pfx + 24) / 8) in
  (size < len \/ UINT16_MAX < len ->
   fs_config_generate buffer size pc = Some (- ENOSPC, buffer))
  /\ (len <= size -> len <= UINT16_MAX ->
      exists p,
        fs_config_generate buffer size pc = Some (len, p)
        /\ length p = length buffer
        /\ drop (Z.to_nat len) p = drop (Z.to_nat len) buffer
        /\ c_str (drop 16 p) = c_str pfx).
Proof.
  intros Hpfx Hfit Hbuf len.
  pose proof (strlen_nonneg pfx) as H0.
  pose proof (strlen_c_str pfx) as Hl.
  assert (Halign : ALIGN (size_wrap (sizeof_header + strlen pfx + 1)) 8
                   = len).
  { unfold sizeof_header. rewrite ALIGN_8 by lia.
    subst len. do 2 f_equal. lia. }
  split.
  - intros Hbad. unfold fs_config_generate. rewrite Hpfx. cbv zeta.
    rewrite !Halign.
    replace ((size <? len) || (len >? UINT16_MAX)) with true; [reflexivity|].
    symmetry. apply orb_true_iff. rewrite Z.gtb_ltb.
    destruct Hbad; [left; apply Z.ltb_lt|right; apply Z.ltb_lt]; assumption.
  - intros Hsize Hmax. unfold UINT16_MAX in Hmax.
    assert (Hshort : strlen pfx <= 65511).
    { subst len. pose proof (Z.div_mod (strlen pfx + 24) 8 ltac:(lia)).
      pose proof (Z.mod_pos_bound (strlen pfx + 24) 8 ltac:(lia)). lia. }
    destruct (aligned_size pfx) as [_ Hlen]; [lia|]. fold len in Hlen.
    eexists. split;
      [apply fs_config_generate_layout; [exact Hpfx|exact Hshort|
         exact Hsize|exact Hbuf]|].
    fold len. unfold record_bytes.
    set (hdr := u16_bytes len ++ _ ++ _ ++ _ ++ u64_bytes _).
    assert (Hhdr : length hdr = 16%nat) by reflexivity.
    assert (Hpad : exists j,
              (Z.to_nat len - 16 - length (c_str pfx))%nat = S j)
      by (exists (Z.to_nat len - 17 - length (c_str pfx))%nat; lia).
    destruct Hpad as [j Hpad]. rewrite Hpad.
    split; [|split].
    + rewrite !length_app, Hhdr, length_replicate, length_drop. lia.
    + rewrite drop_app_length'; [reflexivity|].
      rewrite !length_app, Hhdr, length_replicate. lia.
    + rewrite <- !app_assoc.
      rewrite drop_app_length' by (symmetry; exact Hhdr).
      rewrite app_assoc.
      apply c_str_pad_rest.
Qed.

Lemma fs_config_generate_outcome_witness :
  (32 < 32 \/ UINT16_MAX < 32 ->
   fs_config_generate (replicate 32 "x"%char) 32 rule_S3
   = Some (- ENOSPC, replicate 32 "x"%char))
  /\ (32 <= 32 -> 32 <= UINT16_MAX ->
      exists p,
        fs_config_generate (replicate 32 "x"%char) 32 rule_S3 = Some (32, p)
        /\ length p = length (replicate 32 "x"%char)
        /\ drop (Z.to_nat 32) p = drop (Z.to_nat 32) (replicate 32 "x"%char)
        /\ c_str (drop 16 p) = c_str (lit "system/bin/*")).
Proof.
  apply (fs_config_generate_outcome (replicate 32 "x"%char) 32 rule_S3
           (lit "system/bin/*"));
    [reflexivity|reflexivity|vm_compute; discriminate].
Defined.

Lemma strnlen_min s : forall n,
  strnlen s n = Z.min (strlen s) (Z.of_nat n).
Proof.
  induction s as [|c s IH]; intros [|n]; cbn [strnlen strlen]; try lia.
  - destruct (Ascii.eqb c NUL); [lia|]. pose proof (strlen_nonneg s). lia.
  - destruct (Ascii.eqb c NUL); [lia|]. rewrite IH. lia.
Qed.

(** X5.  What the record reader of the matcher hands to the comparison:
    the header is the next 16 bytes of the file, the prefix buffer is the
    bytes that follow, as many as the header declares beyond its own size,
    and the rest of the file is left for the next record; [len] is the
    length of the C string in the prefix buffer, whose NUL lies inside the
    buffer. *)
Theorem read_record_sound (fd header pfx : list ascii) (len : Z)
    (fd' : list ascii) :
  read_record fd = Record header pfx len fd' ->
  fd = header ++ pfx ++ fd'
  /\ length header = 16%nat
  /\ get2LE (header_len header) = 16 + Z.of_nat (length pfx)
  /\ len = strlen pfx
  /\ 0 <= len < Z.of_nat (length pfx).
Proof.
  unfold read_record, read.
  pose proof (get2LE_range (header_len (take (Z.to_nat sizeof_header) fd)))
    as Hd.
  rewrite remainder_value by exact Hd.
  set (d := get2LE (header_len (take (Z.to_nat sizeof_header) fd))) in *.
  change (Z.to_nat sizeof_header) with 16%nat in *.
  destruct (Z.eqb_spec (Z.of_nat (length (take 16 fd))) sizeof_header)
    as [H16|]; [|discriminate].
  cbn [negb]. unfold sizeof_header in H16.
  destruct (Z.leb_spec (d - 16) 0) as [|Hrem]; [discriminate|].
  destruct (Z.eqb_spec
              (Z.of_nat (length (take (Z.to_nat (d - 16)) (drop 16 fd))))
              (d - 16)) as [Hlen|]; [|discriminate].
  cbn [negb].
  destruct (Z.geb_spec
              (strnlen (take (Z.to_nat (d - 16)) (drop 16 fd))
                       (Z.to_nat (d - 16))) (d - 16)) as [|Hnul];
    [discriminate|].
  intros [= <- <- <- <-].
  set (pfx := take (Z.to_nat (d - 16)) (drop 16 fd)) in *.
  rewrite strnlen_min in Hnul |- *.
  pose proof (strlen_nonneg pfx).
  split; [subst pfx; now rewrite !take_drop|].
  split; [lia|]. split; [fold d; lia|]. split; lia.
Qed.

Definition record_S3 : list ascii := packed rule_S3.

Lemma read_record_sound_witness :
  record_S3 ++ lit "more"
  = take 16 record_S3 ++ drop 16 record_S3 ++ lit "more"
  /\ length (take 16 record_S3) = 16%nat
  /\ get2LE (header_len (take 16 record_S3))
     = 16 + Z.of_nat (length (drop 16 record_S3))
  /\ 12 = strlen (drop 16 record_S3)
  /\ 0 <= 12 < Z.of_nat (length (drop 16 record_S3)).
Proof.
  apply (read_record_sound (record_S3 ++ lit "more") (take 16 record_S3)
           (drop 16 record_S3) 12 (lit "more")).
  vm_compute. reflexivity.
Defined.

End Words.

(** ** Packed rule files before the built-in tables *)

Module Precedence.
Import C CFacts FsConfig Codec TerminalEntry Corruption.

(** The fields the matcher reads back from the record of a rule. *)
Definition packed_result (pc : fs_path_config) (mode : Z)
  : fs_config_result :=
  {| out_uid := uid pc mod 2 ^ 16;
     out_gid := gid pc mod 2 ^ 16;
     out_mode := set_mode mode (FsConfig.mode pc mod 2 ^ 16);
     out_capabilities := capabilities pc mod 2 ^ 64 |}.

(** The prefix buffer the reader allocates for the record of a rule: the
    prefix and the NULs that pad the record. *)
Definition prefix_buffer (pfx : list ascii) : list ascii :=
  c_str pfx
  ++ replicate (Z.to_nat (8 * ((strlen pfx + 24) / 8)) - 16
                - length (c_str pfx)) NUL.

Section Records.

Variable stray : ascii.
Variables (dir : bool) (path : list ascii) (plen mode : Z).

(** One turn of the record loop on the record of a rule. *)
Lemma record_loop_packed pc pfx fuel rest :
  prefix pc = Some pfx ->
  strlen pfx <= 65511 ->
  record_loop stray (S fuel) dir path plen mode (packed pc ++ rest)
  = bind (fs_config_cmp stray dir (prefix_buffer pfx) (strlen pfx) path plen)
      (fun hit : bool =>
         if hit then ret (Matched (packed_result pc mode))
         else record_loop stray fuel dir path plen mode rest).
Proof.
  intros Hpfx Hmax.
  pose proof (strlen_nonneg pfx) as H0.
  pose proof (strlen_c_str pfx) as Hl.
  destruct (aligned_size pfx) as [_ Hlen]; [lia|].
  cbn [record_loop]. rewrite (packed_bytes pc pfx Hpfx Hmax).
  rewrite read_record_bytes by lia.
  fold (prefix_buffer pfx). rewrite <- Hl.
  unfold record_result, packed_result.
  change (header_mode (header_bytes ?l ?m ?u ?g ?c)) with (u16_bytes m).
  change (header_uid (header_bytes ?l ?m ?u ?g ?c)) with (u16_bytes u).
  change (header_gid (header_bytes ?l ?m ?u ?g ?c)) with (u16_bytes g).
  change (header_capabilities (header_bytes ?l ?m ?u ?g ?c))
    with (u64_bytes c).
  rewrite !get2LE_u16_bytes, get8LE_u64_bytes, !Z.mod_mod by lia.
  reflexivity.
Qed.

Lemma prefix_buffer_pad pfx :
  strlen pfx <= 65511 ->
  exists j, prefix_buffer pfx = c_str pfx ++ replicate (S j) NUL
            /\ Z.of_nat (S j) <= 65528.
Proof.
  intros Hmax.
  pose proof (strlen_nonneg pfx) as H0.
  pose proof (strlen_c_str pfx) as Hl.
  destruct (aligned_size pfx) as [_ Hlen]; [lia|].
  exists (Z.to_nat (8 * ((strlen pfx + 24) / 8)) - 17
          - length (c_str pfx))%nat.
  unfold prefix_buffer. split; [f_equal; f_equal; lia|lia].
Qed.

Lemma strlen_prefix_buffer pfx :
  strlen pfx <= 65511 -> strlen (prefix_buffer pfx) = strlen pfx.
Proof.
  intros Hmax. destruct (prefix_buffer_pad pfx Hmax) as (j & -> & _).
  now rewrite !strlen_c_str, c_str_pad.
Qed.

Lemma strncmp_test_c_str b1 b2 n :
  c_str b1 = c_str b2 ->
  (strncmp b1 path n =? 0) = (strncmp b2 path n =? 0).
Proof.
  intros Hc.
  destruct (Z.eqb_spec (strncmp b1 path n) 0) as [H1|H1],
           (Z.eqb_spec (strncmp b2 path n) 0) as [H2|H2];
    try reflexivity; exfalso.
  - apply H2. apply strncmp_zero. rewrite <- Hc. now apply strncmp_zero.
  - apply H1. apply strncmp_zero. rewrite Hc. now apply strncmp_zero.
Qed.

(** The comparison sees of a prefix buffer only the C string in it. *)
Lemma fs_config_cmp_c_str b1 b2 :
  c_str b1 = c_str b2 ->
  Z.of_nat (length b1) < 2 ^ 64 - 1 ->
  Z.of_nat (length b2) < 2 ^ 64 - 1 ->
  fs_config_cmp stray dir b1 (strlen b1) path plen
  = fs_config_cmp stray dir b2 (strlen b2) path plen.
Proof.
  intros Hc Hl1 Hl2.
  assert (Hn : strlen b1 = strlen b2) by (now rewrite !strlen_c_str, Hc).
  pose proof (strlen_nonneg b2) as H0.
  pose proof (c_str_length_le b2) as Hle. pose proof (strlen_c_str b2) as Hs.
  unfold fs_config_cmp. rewrite Hn.
  rewrite !(strncmp_test_c_str b1 b2) by exact Hc.
  destruct dir; [reflexivity|].
  f_equal.
  destruct (Z.eq_dec (strlen b2) 0) as [Hz|Hnz].
  - rewrite Hz. change (size_wrap (0 - 1)) with (2 ^ 64 - 1). unfold load.
    destruct (Z.ltb_spec (2 ^ 64 - 1) (Z.of_nat (length b1))); [lia|].
    destruct (Z.ltb_spec (2 ^ 64 - 1) (Z.of_nat (length b2))); [lia|].
    reflexivity.
  - destruct (CmpSpec.load_last stray b2) as (c2 & Hload2 & Hlast2); [lia|].
    destruct (CmpSpec.load_last stray b1) as (c1 & Hload1 & Hlast1); [lia|].
    rewrite Hn in Hload1. rewrite Hload1, Hload2. congruence.
Qed.

End Records.

(** A rule whose prefix is a string of at most 65511 characters. *)
Definition plain (pc : fs_path_config) : Prop :=
  exists pfx, prefix pc = Some pfx
              /\ Forall (fun c => c <> NUL) pfx
              /\ Z.of_nat (length pfx) <= 65511.

(** The rule matches the normalized path [p]. *)
Definition matches (stray : ascii) (dir : bool) (p : list ascii)
    (pc : fs_path_config) : Prop :=
  exists pfx, prefix pc = Some pfx
              /\ value (fs_config_cmp stray dir pfx (strlen pfx) p (strlen p))
                 = true.

Lemma plain_encodable pc : plain pc -> encodable pc.
Proof.
  intros (pfx & Hpfx & Hno & Hlen). exists pfx. split; [exact Hpfx|].
  rewrite strlen_c_str, c_str_id by exact Hno. exact Hlen.
Qed.

Lemma conf_loop_unopened stray fs dir target path plen mode ws1 ws2 :
  (forall w, In w ws1 -> fs_config_open fs dir w target = None) ->
  conf_loop stray (ws1 ++ ws2) fs dir target path plen mode
  = conf_loop stray ws2 fs dir target path plen mode.
Proof.
  induction ws1 as [|w ws1 IH]; intros Hnone; [reflexivity|].
  cbn [app conf_loop]. rewrite (Hnone w) by now left.
  apply IH. intros w' Hin. apply Hnone. now right.
Qed.

(** On a rule with a plain prefix, the comparison of the record's buffer
    is the comparison of the rule's prefix. *)
Lemma fs_config_cmp_packed stray dir path plen pc pfx :
  prefix pc = Some pfx ->
  Forall (fun c => c <> NUL) pfx ->
  Z.of_nat (length pfx) <= 65511 ->
  fs_config_cmp stray dir (prefix_buffer pfx) (strlen pfx) path plen
  = fs_config_cmp stray dir pfx (strlen pfx) path plen.
Proof.
  intros Hpfx Hno Hlen.
  assert (Hs : strlen pfx = Z.of_nat (length pfx))
    by (now rewrite strlen_c_str, c_str_id).
  destruct (prefix_buffer_pad pfx) as (j & Hbuf & Hj); [lia|].
  rewrite <- (strlen_prefix_buffer pfx) at 1 by lia.
  apply fs_config_cmp_c_str.
  - rewrite Hbuf. apply c_str_pad.
  - rewrite Hbuf, length_app, length_replicate.
    pose proof (c_str_length_le pfx). lia.
  - lia.
Qed.

Lemma record_loop_first_match stray dir path mode pre r post :
  Forall plain (pre ++ r :: post) ->
  Forall (fun q => ~ matches stray dir path q) pre ->
  matches stray dir path r ->
  forall fuel, (length pre < fuel)%nat ->
    value (record_loop stray fuel dir path (strlen path) mode
             (packed_file (pre ++ r :: post)))
    = Matched (packed_result r mode).
Proof.
  intros Hplain Hmiss (pfx & Hpfx & Hhit).
  induction pre as [|q pre IH]; intros fuel Hfuel;
    (destruct fuel as [|fuel]; [cbn in Hfuel; lia|]);
    cbn [app packed_file flat_map] in *.
  - fold (packed_file post).
    inversion Hplain as [|? ? (pfx' & Hpfx' & Hno & Hlen) _]; subst.
    assert (pfx' = pfx) by congruence. subst pfx'.
    rewrite (record_loop_packed stray dir path (strlen path) mode r pfx)
      by (try assumption; rewrite strlen_c_str, c_str_id by exact Hno; lia).
    rewrite (fs_config_cmp_packed stray dir path (strlen path) r pfx)
      by assumption.
    rewrite value_bind, Hhit. reflexivity.
  - fold (packed_file (pre ++ r :: post)).
    inversion Hplain as [|? ? (qp & Hqp & Hno & Hlen) Hplain']; subst.
    inversion Hmiss as [|? ? Hq Hmiss']; subst.
    rewrite (record_loop_packed stray dir path (strlen path) mode q qp)
      by (try assumption; rewrite strlen_c_str, c_str_id by exact Hno; lia).
    rewrite (fs_config_cmp_packed stray dir path (strlen path) q qp)
      by assumption.
    rewrite value_bind.
    destruct (value (fs_config_cmp stray dir qp (strlen qp) path
                       (strlen path))) eqn:Hcmp.
    + exfalso. apply Hq. exists qp. now split.
    + apply IH; [assumption|assumption|cbn in Hfuel; lia].
Qed.

(** When the first rule file of the sequence that can be opened holds
    the records of plain rules, and [r] is the first of them that matches
    the path, [fs_config] returns what the code computes from the record of
    [r]. *)
Lemma first_match_packed_result (stray : ascii) (ids : android_ids)
    (fs : gmap string (list ascii)) (path : list ascii) (dir : bool)
    (target_out_path : option (list ascii)) (mode : Z) (which : nat)
    (pre : list fs_path_config) (r : fs_path_config)
    (post : list fs_path_config) :
  (which < length conf)%nat ->
  (forall w, (w < which)%nat ->
     fs_config_open fs dir w target_out_path = None) ->
  fs_config_open fs dir which target_out_path
    = Some (packed_file (pre ++ r :: post)) ->
  Forall plain (pre ++ r :: post) ->
  Forall (fun q => ~ matches stray dir (Totality.normalized path) q) pre ->
  matches stray dir (Totality.normalized path) r ->
  value (fs_config stray ids fs path dir target_out_path mode)
  = Some (packed_result r mode).
Proof.
  intros Hwhich Hnone Hopen Hplain Hmiss Hhit.
  unfold fs_config. fold (Totality.normalized path).
  set (p := Totality.normalized path) in *.
  rewrite value_bind.
  replace (seq 0 (length conf))
    with (seq 0 which ++ which :: seq (S which) (length conf - S which))
    by (replace (length conf) with (which + S (length conf - S which))%nat
          at 2 by lia; now rewrite seq_app).
  rewrite conf_loop_unopened
    by (intros w Hin; apply Hnone; apply in_seq in Hin; lia).
  cbn [conf_loop]. rewrite Hopen, value_bind.
  rewrite (record_loop_first_match stray dir p mode pre r post
             Hplain Hmiss Hhit).
  - reflexivity.
  - pose proof (packed_file_length (pre ++ r :: post)
                  (Forall_impl _ _ _ Hplain plain_encodable)) as Hlen.
    rewrite length_app in Hlen. cbn [length] in Hlen. lia.
Qed.

Lemma mod_low_twelve (m : Z) : (m mod 2 ^ 16) mod 4096 = m mod 4096.
Proof.
  change (2 ^ 16) with (4096 * 16).
  rewrite Z.rem_mul_r by lia.
  rewrite (Z.mul_comm 4096), Z.mod_add by lia.
  apply Z.mod_mod. lia.
Qed.

(** X6.  The first matching record wins, and a record wins over the
    built-in tables.  When the first rule file of the sequence that can be
    opened holds the records of plain rules, and [r] is the first of them
    that matches the path, [fs_config] returns what the record of [r]
    holds: the low 16 bits of its uid and gid, its capabilities, and a mode
    whose low twelve bits are those of the mode of [r]; above them, the
    bits 12 to 15 of the mode of [r] are or-ed into the bits of the
    caller's [unsigned] mode.  Neither the later records, nor the later
    files, nor the built-in tables are looked at. *)
Theorem first_matching_record_wins (stray : ascii) (ids : android_ids)
    (fs : gmap string (list ascii)) (path : list ascii) (dir : bool)
    (target_out_path : option (list ascii)) (mode : Z) (which : nat)
    (pre : list fs_path_config) (r : fs_path_config)
    (post : list fs_path_config) :
  0 <= mode < 2 ^ 32 ->
  (which < length conf)%nat ->
  (forall w, (w < which)%nat ->
     fs_config_open fs dir w target_out_path = None) ->
  fs_config_open fs dir which target_out_path
    = Some (packed_file (pre ++ r :: post)) ->
  Forall plain (pre ++ r :: post) ->
  Forall (fun q => ~ matches stray dir (Totality.normalized path) q) pre ->
  matches stray dir (Totality.normalized path) r ->
  exists out,
    value (fs_config stray ids fs path dir target_out_path mode) = Some out
    /\ out_uid out = uid r mod 2 ^ 16
    /\ out_gid out = gid r mod 2 ^ 16
    /\ out_capabilities out = capabilities r mod 2 ^ 64
    /\ out_mode out mod 4096 = FsConfig.mode r mod 4096
    /\ out_mode out / 4096
       = Z.lor (mode / 4096) (FsConfig.mode r mod 2 ^ 16 / 4096).
Proof.
  intros Hmode Hwhich Hnone Hopen Hplain Hmiss Hhit.
  exists (packed_result r mode).
  split; [now apply (first_match_packed_result stray ids fs path dir
                       target_out_path mode which pre r post)|].
  cbn [packed_result out_uid out_gid out_capabilities out_mode].
  destruct (set_mode_bits mode (FsConfig.mode r mod 2 ^ 16) Hmode)
    as [Hlow Hhigh].
  rewrite Hlow, Hhigh, mod_low_twelve. repeat split.
Qed.

(** A vendor rule file of three rules, on a device without system rule
    file. *)
Definition vendor_rule : fs_path_config :=
  rule "0750" 0 2000 0 (lit "vendor/*").

Definition ls_rule : fs_path_config :=
  rule "0700" 1000 1001 0 (lit "system/bin/ls").

Definition vendor_fs : gmap string (list ascii) :=
  {[ "/vendor/etc/fs_config_files"%string
     := packed_file [vendor_rule; ls_rule; rule_S3] ]}.

Ltac plain_rule :=
  eexists; split; [reflexivity|];
  split; [repeat (constructor; [discriminate|]); constructor|cbn; lia].

(** The file "/system/bin/ls" with the mode [S_IFREG] (0100000) coming
    in: the second record of the vendor file gives uid 1000, gid 1001 and
    the mode 0100700, before the third record and the built-in table, which
    both would give 0755. *)
Lemma first_matching_record_wins_witness :
  exists out,
    value (fs_config "x" Totality.aosp_ids vendor_fs (lit "/system/bin/ls")
             false None 32768) = Some out
    /\ out_uid out = 1000
    /\ out_gid out = 1001
    /\ out_capabilities out = 0
    /\ out_mode out mod 4096 = 448
    /\ out_mode out / 4096 = 8.
Proof.
  apply (first_matching_record_wins "x" Totality.aosp_ids vendor_fs
           (lit "/system/bin/ls") false None 32768 1 [vendor_rule] ls_rule
           [rule_S3]).
  - lia.
  - cbn. lia.
  - intros w Hw. replace w with 0%nat by lia. vm_compute. reflexivity.
  - vm_compute. reflexivity.
  - repeat (constructor; [plain_rule|]). constructor.
  - constructor; [|constructor].
    intros (pfx & Hpfx & Hcmp). injection Hpfx as <-.
    vm_compute in Hcmp. discriminate Hcmp.
  - eexists. split; [reflexivity|]. vm_compute. reflexivity.
Defined.

End Precedence.

(** ** Loads inside the prefix buffers *)

Module Bounds.
Import C CFacts FsConfig Codec Corruption Precedence.

(** A rule [fs_config_generate] accepts whose prefix is not empty. *)
Definition named_rule (pc : fs_path_config) : Prop :=
  exists pfx, prefix pc = Some pfx /\ 0 < strlen pfx <= 65511.

Lemma record_loop_named_in_bounds stray dir path plen mode rules :
  Forall named_rule rules ->
  forall fuel,
    faults (record_loop stray fuel dir path plen mode (packed_file rules))
    = [].
Proof.
  induction 1 as [|pc rules (pfx & Hpfx & Hlen) _ IH]; intros fuel;
    (destruct fuel as [|fuel]; [reflexivity|]).
  - reflexivity.
  - cbn [packed_file flat_map]. fold (packed_file rules).
    rewrite (record_loop_packed stray dir path plen mode pc pfx)
      by (try assumption; lia).
    rewrite faults_bind.
    rewrite <- (strlen_prefix_buffer pfx) at 1 2 by lia.
    rewrite EmptyPrefix.fs_config_cmp_in_bounds
      by (rewrite strlen_prefix_buffer by lia; lia).
    cbn [app].
    destruct (value (fs_config_cmp stray dir (prefix_buffer pfx) _ path plen));
      [reflexivity|apply IH].
Qed.

(** X8.  When every rule file that can be opened holds the records of
    rules with a non-empty prefix, [fs_config] makes no load outside a
    prefix buffer, with or without the directory flag: the load before the
    buffer needs a record with an empty prefix. *)
Theorem named_rules_in_bounds (stray : ascii) (ids : android_ids)
    (fs : gmap string (list ascii)) (path : list ascii) (dir : bool)
    (target_out_path : option (list ascii)) (mode : Z) :
  (forall which fd,
     fs_config_open fs dir which target_out_path = Some fd ->
     exists rules, fd = packed_file rules /\ Forall named_rule rules) ->
  faults (fs_config stray ids fs path dir target_out_path mode) = [].
Proof.
  intros Hfiles. unfold fs_config.
  set (p := if Ascii.eqb (char_at path 0) "/" then drop 1 path else path).
  rewrite faults_bind.
  assert (Hconf : forall ws,
            faults (conf_loop stray ws fs dir target_out_path p (strlen p)
                      mode) = []).
  { induction ws as [|w ws IH]; [reflexivity|]. cbn [conf_loop].
    destruct (fs_config_open fs dir w target_out_path) as [fd|] eqn:Hopen;
      [|exact IH].
    destruct (Hfiles w fd Hopen) as (rules & -> & Hrules).
    rewrite faults_bind, record_loop_named_in_bounds by exact Hrules.
    cbn [app].
    destruct (value (record_loop stray _ dir p (strlen p) mode _));
      [reflexivity|exact IH|reflexivity]. }
  rewrite Hconf. cbn [app].
  destruct (value (conf_loop stray _ fs dir target_out_path p (strlen p)
                     mode)); try reflexivity.
  rewrite faults_bind.
  destruct (EmptyPrefix.built_in_tables_named ids) as [Hdirs Hfiles'].
  rewrite EmptyPrefix.table_loop_in_bounds by (destruct dir; assumption).
  cbn [app].
  destruct (value (table_loop stray _ dir p (strlen p))); reflexivity.
Qed.

Lemma named_rules_in_bounds_witness :
  faults (fs_config "*" Totality.aosp_ids vendor_fs (lit "/system/bin/ls")
            false None 0) = [].
Proof.
  apply (named_rules_in_bounds "*" Totality.aosp_ids vendor_fs
           (lit "/system/bin/ls") false None 0).
  intros which fd Hopen.
  destruct which as [|[|[|[|[|which]]]]]; vm_compute in Hopen;
    try discriminate Hopen.
  exists [vendor_rule; ls_rule; rule_S3]. split.
  - injection Hopen as <-. vm_compute. reflexivity.
  - repeat (constructor;
            [eexists; split; [reflexivity|]; vm_compute;
             split; [reflexivity|discriminate]|]).
    constructor.
Defined.



End Bounds.

(** ** The mode given by the built-in tables *)

Module ModeBits.
Import C CFacts FsConfig Codec TerminalEntry.

Lemma table_loop_member stray table dir path plen pc :
  value (table_loop stray table dir path plen) = Some pc -> In pc table.
Proof.
  induction table as [|q table IH]; [discriminate|].
  cbn [table_loop]. destruct (prefix q) as [pfx|].
  - rewrite value_bind.
    destruct (value (fs_config_cmp stray dir pfx (strlen pfx) path plen)).
    + intros [= <-]. now left.
    + intros H. right. apply IH, H.
  - intros [= <-]. now left.
Qed.

Ltac twelve_bits :=
  repeat (constructor; [vm_compute; split; [discriminate|reflexivity]|]);
  constructor.

Lemma built_in_modes (ids : android_ids) :
  Forall (fun pc => 0 <= mode pc < 4096) (android_dirs ids)
  /\ Forall (fun pc => 0 <= mode pc < 4096) (android_files ids).
Proof. split; twelve_bits. Qed.

(** X10.  When no record of a rule file matches, the outputs are those
    of one entry of the built-in table of the query: its uid, gid and
    capabilities, and a mode whose low twelve bits are the entry's and whose
    other bits are the caller's. *)
Theorem built_in_result (stray : ascii) (ids : android_ids)
    (fs : gmap string (list ascii)) (path : list ascii) (dir : bool)
    (target_out_path : option (list ascii)) (mode : Z)
    (out : fs_config_result) :
  0 <= mode < 2 ^ 32 ->
  value (conf_loop stray (seq 0 (length conf)) fs dir target_out_path
           (Totality.normalized path)
           (strlen (Totality.normalized path)) mode) = Unmatched ->
  value (fs_config stray ids fs path dir target_out_path mode) = Some out ->
  exists pc,
    In pc (if dir then android_dirs ids else android_files ids)
    /\ out_uid out = uid pc
    /\ out_gid out = gid pc
    /\ out_capabilities out = capabilities pc
    /\ out_mode out mod 4096 = FsConfig.mode pc
    /\ out_mode out / 4096 = mode / 4096.
Proof.
  intros Hmode Hfiles. unfold fs_config. fold (Totality.normalized path).
  rewrite value_bind, Hfiles, value_bind.
  destruct (value (table_loop stray _ dir (Totality.normalized path) _))
    as [pc|] eqn:Htable; [|discriminate].
  intros [= <-]. exists pc.
  apply table_loop_member in Htable.
  assert (Hpc : 0 <= FsConfig.mode pc < 4096).
  { destruct (built_in_modes ids) as [Hd Hf].
    destruct dir;
      [exact (proj1 (List.Forall_forall _ _) Hd pc Htable)
      |exact (proj1 (List.Forall_forall _ _) Hf pc Htable)]. }
  cbn [table_result out_uid out_gid out_capabilities out_mode].
  rewrite set_mode_split by assumption.
  repeat split; try assumption.
  - rewrite Z.add_comm, Z.mul_comm, Z.mod_add by lia. apply Z.mod_small, Hpc.
  - rewrite Z.add_comm, Z.mul_comm, Z.div_add by lia.
    rewrite Z.div_small by exact Hpc. lia.
Qed.

Lemma built_in_result_witness :
  exists pc,
    In pc (android_dirs Totality.aosp_ids)
    /\ out_uid (Totality.catch_all true 16384) = uid pc
    /\ out_gid (Totality.catch_all true 16384) = gid pc
    /\ out_capabilities (Totality.catch_all true 16384) = capabilities pc
    /\ out_mode (Totality.catch_all true 16384) mod 4096 = FsConfig.mode pc
    /\ out_mode (Totality.catch_all true 16384) / 4096 = 16384 / 4096.
Proof.
  apply (built_in_result "x" Totality.aosp_ids ∅ (lit "/lost+found") true
           None 16384 (Totality.catch_all true 16384)).
  - split; [discriminate|reflexivity].
  - vm_compute. reflexivity.
  - vm_compute. reflexivity.
Defined.

End ModeBits.

(** ** The prefix [fs_config_open] takes from [target_out_path] *)

Module OutPrefix.
Import C CFacts FsConfig.

Lemma c_str_drop (n : nat) : forall t,
  (n <= length (c_str t))%nat -> c_str (drop n t) = drop n (c_str t).
Proof.
  induction n as [|n IH]; intros t Hn; [reflexivity|].
  destruct t as [|c t]; [reflexivity|]. cbn [c_str] in *.
  destruct (Ascii.eqb c NUL); cbn [length] in Hn; [lia|].
  cbn [drop skipn]. apply IH. lia.
Qed.

Lemma char_at_app_l (p q : list ascii) (i : nat) :
  (i < length p)%nat -> char_at (p ++ q) i = char_at p i.
Proof. intros Hi. unfold char_at. now rewrite app_nth1. Qed.

Lemma char_at_slashes (p : list ascii) (k i : nat) :
  (i < k)%nat -> char_at (p ++ replicate k "/"%char) (length p + i) = "/"%char.
Proof.
  intros Hi. unfold char_at. rewrite app_nth2 by lia.
  replace (length p + i - length p)%nat with i by lia.
  revert i Hi. induction k as [|k IH]; intros i Hi; [lia|].
  destruct i as [|i]; [reflexivity|]. cbn [replicate nth]. apply IH. lia.
Qed.

Lemma char_at_last (p : list ascii) (c : ascii) :
  char_at (p ++ [c]) (length p) = c.
Proof.
  unfold char_at. rewrite app_nth2 by lia.
  now replace (length p - length p)%nat with O by lia.
Qed.

(** The loop over the trailing slashes stops at the end of the part that
    does not end in a slash. *)
Lemma strip_slashes_at (t p : list ascii) :
  last p <> Some "/"%char ->
  (forall c p', p = p' ++ [c] -> char_at t (length p') = c) ->
  forall k,
    (forall i, (i < k)%nat -> char_at t (length p + i) = "/"%char) ->
    strip_slashes t (length p + k) = length p.
Proof.
  intros Hlast Hend. induction k as [|k IH]; intros Hslash.
  - rewrite Nat.add_0_r.
    destruct p as [|c p _] using rev_ind; [reflexivity|].
    rewrite last_snoc in Hlast.
    rewrite length_app. cbn [length]. rewrite Nat.add_1_r.
    cbn [strip_slashes]. rewrite (Hend c p eq_refl).
    destruct (Ascii.eqb_spec c "/"); congruence.
  - rewrite Nat.add_succ_r. cbn [strip_slashes].
    rewrite Hslash by lia. rewrite Ascii.eqb_refl.
    apply IH. intros i Hi. apply Hslash. lia.
Qed.

Lemma strip_slashes_stops (t p : list ascii) (k : nat) :
  c_str t = p ++ replicate k "/"%char ->
  last p <> Some "/"%char ->
  strip_slashes t (Z.to_nat (strlen t)) = length p.
Proof.
  intros Hs Hlast.
  rewrite strlen_c_str, Nat2Z.id, Hs, length_app, length_replicate.
  apply strip_slashes_at; [assumption| |].
  - intros c p' ->.
    rewrite char_at_c_str, Hs, char_at_app_l, char_at_last
      by (rewrite ?Hs; repeat rewrite length_app; cbn [length]; lia).
    reflexivity.
  - intros i Hi.
    rewrite char_at_c_str, Hs
      by (rewrite Hs, length_app, length_replicate; lia).
    now apply char_at_slashes.
Qed.

Definition system : list ascii := lit "/system".

(** The [strcmp] of [fs_config_open] compares all that is left of the
    string from the offset on, the slashes passed over included. *)
Lemma strcmp_system (t : list ascii) (n : nat) :
  (n <= length (c_str t))%nat ->
  strcmp (drop n t) system = 0 <-> drop n (c_str t) = system.
Proof.
  intros Hn. rewrite strcmp_zero, c_str_drop by assumption. reflexivity.
Qed.

Lemma int_of_small (z : Z) : - 2 ^ 31 <= z < 2 ^ 31 -> int_of z = z.
Proof.
  intros Hz. unfold int_of. rewrite Z.mod_small by lia. lia.
Qed.

(** What the loop and the test of "/system" leave of a count below
    [2^31]. *)
Lemma target_out_path_len_small (t : list ascii) :
  strlen t < 2 ^ 31 ->
  let len := strip_slashes t (Z.to_nat (strlen t)) in
  target_out_path_len t
  = if (length system <=? len)%nat
       && (strcmp (drop (len - length system) t) system =? 0)
    then Z.of_nat (len - length system)
    else Z.of_nat len.
Proof.
  intros Hmax len. pose proof (strlen_nonneg t) as H0.
  assert (Hle : forall n, (strip_slashes t n <= n)%nat).
  { induction n as [|n IH]; cbn [strip_slashes]; [lia|].
    destruct (Ascii.eqb (char_at t n) "/"); lia. }
  pose proof (Hle (Z.to_nat (strlen t))) as Hlen. fold len in Hlen.
  unfold target_out_path_len. fold system.
  rewrite (int_of_small (strlen t)) by lia.
  change (strlen system) with 7. change (int_of 7) with 7.
  change (length system) with 7%nat.
  assert (Hcount : (if 0 <? strlen t
                    then Z.of_nat (strip_slashes t (Z.to_nat (strlen t)))
                    else strlen t) = Z.of_nat len).
  { destruct (Z.ltb_spec 0 (strlen t)); [reflexivity|].
    subst len. replace (strlen t) with 0 by lia. reflexivity. }
  rewrite Hcount.
  destruct (Z.leb_spec 7 (Z.of_nat len)), (Nat.leb_spec 7 len); try lia;
    cbn [andb]; [|reflexivity].
  replace (Z.to_nat (Z.of_nat len - 7)) with (len - 7)%nat by lia.
  destruct (strcmp (drop (len - 7) t) system =? 0); [|reflexivity].
  unfold size_wrap, SIZE_WIDTH. rewrite Z.mod_small by lia.
  rewrite int_of_small by lia. lia.
Qed.

(** X11.  With one or more slashes at the end of a [target_out_path]
    shorter than [2^31], the prefix of the name opened is the path without
    these slashes and nothing else is taken off, also when what is left
    ends in /system. *)
Theorem trailing_slashes_only (t p : list ascii) (k : nat) :
  strlen t < 2 ^ 31 ->
  c_str t = p ++ replicate (S k) "/"%char ->
  last p <> Some "/"%char ->
  precision_string (target_out_path_len t) t = p.
Proof.
  intros Hmax Hs Hlast. rewrite target_out_path_len_small by exact Hmax.
  cbv zeta. rewrite (strip_slashes_stops t p (S k) Hs Hlast).
  unfold precision_string.
  destruct (length system <=? length p)%nat eqn:Hlong; cbn [andb].
  - apply Nat.leb_le in Hlong.
    destruct (Z.eqb_spec (strcmp (drop (length p - length system) t) system)
                0) as [Hcmp|_].
    + apply strcmp_system in Hcmp;
        [|rewrite Hs, length_app; lia].
      apply (f_equal length) in Hcmp.
      rewrite length_drop, Hs, length_app, length_replicate in Hcmp. lia.
    + destruct (Z.ltb_spec (Z.of_nat (length p)) 0); [lia|].
      rewrite Nat2Z.id, Hs. now rewrite take_app_length.
  - destruct (Z.ltb_spec (Z.of_nat (length p)) 0); [lia|].
    rewrite Nat2Z.id, Hs. now rewrite take_app_length.
Qed.

Lemma trailing_slashes_only_witness :
  precision_string (target_out_path_len (lit "out/system//"))
    (lit "out/system//")
  = lit "out/system".
Proof.
  apply (trailing_slashes_only (lit "out/system//") (lit "out/system") 1).
  - reflexivity.
  - reflexivity.
  - vm_compute. discriminate.
Defined.

(** X12.  Without a slash at the end of a [target_out_path] shorter than
    [2^31], the prefix of the name opened is the path without its final
    /system when it ends so, and the whole path otherwise. *)
Theorem system_suffix_stripped (t : list ascii) :
  strlen t < 2 ^ 31 ->
  last (c_str t) <> Some "/"%char ->
  precision_string (target_out_path_len t) t
  = if decide (system `suffix_of` c_str t)
    then take (length (c_str t) - length system) (c_str t)
    else c_str t.
Proof.
  intros Hmax Hlast. rewrite target_out_path_len_small by exact Hmax.
  cbv zeta.
  rewrite (strip_slashes_stops t (c_str t) 0)
    by (cbn [replicate]; now rewrite ?app_nil_r).
  unfold precision_string.
  assert (Hprint : forall n : nat,
            (if Z.of_nat n <? 0 then c_str t
             else take (Z.to_nat (Z.of_nat n)) (c_str t))
            = take n (c_str t)).
  { intros n. destruct (Z.ltb_spec (Z.of_nat n) 0); [lia|].
    now rewrite Nat2Z.id. }
  destruct (decide (system `suffix_of` c_str t)) as [[q Hq]|Hno].
  - assert (Hlen : (length system <= length (c_str t))%nat)
      by (rewrite Hq, length_app; lia).
    apply Nat.leb_le in Hlen as Hlong. rewrite Hlong. cbn [andb].
    apply Nat.leb_le in Hlong.
    assert (Hcmp : strcmp (drop (length (c_str t) - length system) t) system
                   = 0).
    { apply strcmp_system; [lia|].
      rewrite Hq at 2. rewrite Hq, length_app.
      replace (length q + length system - length system)%nat
        with (length q) by lia.
      now rewrite drop_app_length. }
    rewrite Hcmp. cbn [Z.eqb]. apply Hprint.
  - destruct (length system <=? length (c_str t))%nat eqn:Hlong;
      cbn [andb]; [|now rewrite Hprint, firstn_all].
    apply Nat.leb_le in Hlong.
    destruct (Z.eqb_spec
                (strcmp (drop (length (c_str t) - length system) t) system)
                0) as [Hcmp|_]; [|now rewrite Hprint, firstn_all].
    apply strcmp_system in Hcmp; [|lia].
    exfalso. apply Hno.
    exists (take (length (c_str t) - length system) (c_str t)).
    rewrite <- Hcmp at 2. symmetry. apply take_drop.
Qed.

Lemma system_suffix_stripped_witness :
  precision_string (target_out_path_len (lit "out/system"))
    (lit "out/system")
  = lit "out".
Proof.
  apply (system_suffix_stripped (lit "out/system")).
  - reflexivity.
  - vm_compute. discriminate.
Defined.

End OutPrefix.

(** ** The runs of the cold boot *)

Module ColdBootRuns.
Import C Ueventd ColdBootOrder.

(** The object after [k] successful turns of the loop of
    [ForkSubProcesses] from index [i]. *)
Fixpoint after_forks {Uevent} (env : environment Uevent) (i k : nat)
    (cb : ColdBoot Uevent) : ColdBoot Uevent :=
  match k with
  | O => cb
  | S k' =>
      after_forks env (S i) k'
        {| num_handler_subprocesses_ := num_handler_subprocesses_ _ cb;
           uevent_queue_ := uevent_queue_ _ cb;
           subprocess_pids_ :=
             {[fork_result _ env i]} ∪ subprocess_pids_ _ cb |}
  end.

(** The [Fork] events of the turns [i], ..., [i + k - 1]. *)
Definition fork_events {Uevent} (env : environment Uevent) (i k : nat)
  : list event :=
  map (fun j => Fork (fork_result _ env j)) (seq i k).

(** The [HandleFirmwareEvent] calls on [n] uevents queued from position
    [from] on. *)
Definition firmware_events (from n : nat) : list event :=
  map (fun k => HandleFirmwareEvent (Z.of_nat (from + k))) (seq 0 n).

Section Runs.

Variable Uevent : Type.
Variable COLDBOOT_DONE : string.

Ltac run_bind :=
  rewrite bind_run;
  cbn [get emit put stop mret proc_ret outcome object trace fst snd app];
  cbv zeta.

Lemma handled_app evs1 evs2 :
  handled (evs1 ++ evs2) = handled evs1 ++ handled evs2.
Proof. unfold handled. apply omap_app. Qed.

Lemma handled_fork_events (env : environment Uevent) i k :
  handled (fork_events env i k) = [].
Proof.
  unfold fork_events. induction (seq i k) as [|j js IH]; [reflexivity|exact IH].
Qed.

Lemma handled_firmware_events from n : handled (firmware_events from n) = [].
Proof.
  unfold firmware_events.
  induction (seq 0 n) as [|j js IH]; [reflexivity|exact IH].
Qed.

Lemma handled_device_events hs : handled (map HandleDeviceEvent hs) = hs.
Proof.
  induction hs as [|h hs IH]; [reflexivity|].
  cbn [map]. change (handled (HandleDeviceEvent h :: ?evs))
    with (h :: handled evs). now rewrite IH.
Qed.

(** *** [RegenerateUevents] *)

Lemma regenerate_loop_effect uevents : forall cb : ColdBoot Uevent,
  regenerate_loop Uevent uevents cb
  = (Ok tt,
     {| num_handler_subprocesses_ := num_handler_subprocesses_ _ cb;
        uevent_queue_ := uevent_queue_ _ cb ++ uevents;
        subprocess_pids_ := subprocess_pids_ _ cb |},
     firmware_events (length (uevent_queue_ _ cb)) (length uevents)).
Proof.
  induction uevents as [|uevent uevents IH]; intros cb.
  - destruct cb as [N queue pids]. cbn. now rewrite app_nil_r.
  - cbn [regenerate_loop]. do 3 run_bind. rewrite IH.
    cbn [outcome object trace fst snd num_handler_subprocesses_
         uevent_queue_ subprocess_pids_].
    rewrite <- app_assoc. cbn [app]. f_equal.
    unfold firmware_events. cbn [length seq map].
    rewrite Nat.add_0_r. f_equal.
    rewrite <- seq_shift, map_map. apply map_ext. intros k.
    rewrite length_app. cbn [length]. do 2 f_equal. lia.
Qed.

(** X13.  [RegenerateUevents] appends the uevents delivered to the
    queue, in the order of delivery, calls [HandleFirmwareEvent] once on each
    of them in that order, and leaves the worker count and the set of pids as
    they are. *)
Theorem regenerate_appends (env : environment Uevent) (cb : ColdBoot Uevent) :
  let run := RegenerateUevents Uevent env cb in
  outcome run = Ok tt
  /\ uevent_queue_ _ (object run) = uevent_queue_ _ cb ++ regenerated _ env
  /\ num_handler_subprocesses_ _ (object run)
     = num_handler_subprocesses_ _ cb
  /\ subprocess_pids_ _ (object run) = subprocess_pids_ _ cb
  /\ trace run
     = firmware_events (length (uevent_queue_ _ cb))
         (length (regenerated _ env)).
Proof.
  unfold RegenerateUevents. cbv zeta. rewrite regenerate_loop_effect.
  repeat split.
Qed.

(** *** [ForkSubProcesses] *)

Lemma after_forks_fields (env : environment Uevent) k : forall i cb,
  num_handler_subprocesses_ _ (after_forks env i k cb)
  = num_handler_subprocesses_ _ cb
  /\ uevent_queue_ _ (after_forks env i k cb) = uevent_queue_ _ cb
  /\ subprocess_pids_ _ (after_forks env i k cb)
     = list_to_set (map (fork_result _ env) (seq i k))
       ∪ subprocess_pids_ _ cb.
Proof.
  induction k as [|k IH]; intros i cb; cbn [after_forks].
  - repeat split. cbn. set_solver.
  - destruct (IH (S i)
                {| num_handler_subprocesses_ :=
                     num_handler_subprocesses_ _ cb;
                   uevent_queue_ := uevent_queue_ _ cb;
                   subprocess_pids_ :=
                     {[fork_result _ env i]} ∪ subprocess_pids_ _ cb |})
      as (HN & Hq & Hp).
    rewrite HN, Hq, Hp. repeat split.
    cbn [num_handler_subprocesses_ uevent_queue_ subprocess_pids_
         seq map list_to_set]. set_solver.
Qed.

(** While [fork] returns pids of children, the loop goes on. *)
Lemma fork_loop_prefix (env : environment Uevent) fuel k :
  forall remaining i cb,
    (k <= remaining)%nat ->
    (forall j, (j < k)%nat -> 0 < fork_result _ env (i + j)) ->
    fork_loop Uevent env fuel remaining (Z.of_nat i) cb
    = let rest := fork_loop Uevent env fuel (remaining - k)
                    (Z.of_nat (i + k)) (after_forks env i k cb) in
      (outcome rest, object rest, fork_events env i k ++ trace rest).
Proof.
  induction k as [|k IH]; intros remaining i cb Hk Hpos.
  - rewrite Nat.sub_0_r, Nat.add_0_r. cbv zeta. apply run_eta.
  - destruct remaining as [|remaining]; [lia|].
    cbn [fork_loop]. rewrite Nat2Z.id.
    pose proof (Hpos O ltac:(lia)) as Hpid. rewrite Nat.add_0_r in Hpid.
    run_bind.
    destruct (Z.ltb_spec (fork_result _ env i) 0); [lia|].
    do 2 run_bind.
    destruct (Z.eqb_spec (fork_result _ env i) 0); [lia|].
    do 2 run_bind.
    replace (Z.of_nat i + 1) with (Z.of_nat (S i)) by lia.
    rewrite (IH remaining (S i)); [|lia|].
    + cbv zeta. cbn [outcome object trace fst snd after_forks].
      replace (S i + k)%nat with (i + S k)%nat by lia.
      replace (S remaining - S k)%nat with (remaining - k)%nat by lia.
      reflexivity.
    + intros j Hj. replace (S i + j)%nat with (i + S j)%nat by lia.
      apply Hpos. lia.
Qed.

(** The turn of the loop in which [fork] fails. *)
Lemma fork_loop_fails (env : environment Uevent) fuel remaining i cb :
  fork_result _ env i < 0 ->
  fork_loop Uevent env fuel (S remaining) (Z.of_nat i) cb
  = (Halt Aborted, cb, [Fork (fork_result _ env i)]).
Proof.
  intros Hneg. cbn [fork_loop]. rewrite Nat2Z.id. run_bind.
  destruct (Z.ltb_spec (fork_result _ env i) 0); [|lia].
  run_bind. reflexivity.
Qed.

(** The turn of the loop in which [fork] returns in the child. *)
Lemma fork_loop_child (env : environment Uevent) fuel remaining i cb :
  fork_result _ env i = 0 ->
  let child := UeventHandlerMain Uevent fuel (Z.of_nat i)
                 (num_handler_subprocesses_ _ cb) cb in
  fork_loop Uevent env fuel (S remaining) (Z.of_nat i) cb
  = (outcome child, object child, Fork 0 :: trace child).
Proof.
  intros Hzero child. cbn [fork_loop]. rewrite Nat2Z.id, Hzero.
  cbn [Z.ltb Z.eqb Z.compare]. do 3 run_bind. rewrite bind_run.
  fold child.
  destruct (UeventHandlerMain_run Uevent fuel (Z.of_nat i)
              (num_handler_subprocesses_ _ cb) cb) as (Hhalt & _).
  fold child in Hhalt.
  destruct (outcome child) as [[]|h]; [contradiction|reflexivity].
Qed.

Lemma fork_events_S (env : environment Uevent) i k :
  fork_events env i (S k)
  = fork_events env i k ++ [Fork (fork_result _ env (i + k))].
Proof. unfold fork_events. now rewrite seq_S, map_app. Qed.

Lemma ForkSubProcesses_prefix (env : environment Uevent) fuel cb k :
  (k <= Z.to_nat (num_handler_subprocesses_ _ cb))%nat ->
  (forall j, (j < k)%nat -> 0 < fork_result _ env j) ->
  ForkSubProcesses Uevent env fuel cb
  = let rest := fork_loop Uevent env fuel
                  (Z.to_nat (num_handler_subprocesses_ _ cb) - k)
                  (Z.of_nat k) (after_forks env 0 k cb) in
    (outcome rest, object rest, fork_events env 0 k ++ trace rest).
Proof.
  intros Hk Hpos. unfold ForkSubProcesses. run_bind.
  change (fork_loop Uevent env fuel ?r 0 ?c)
    with (fork_loop Uevent env fuel r (Z.of_nat 0) c).
  rewrite (fork_loop_prefix env fuel k) by assumption.
  cbv zeta. rewrite <- run_eta. reflexivity.
Qed.

(** The object [Run] hands to [ForkSubProcesses]. *)
Definition regenerated_object (env : environment Uevent)
    (cb : ColdBoot Uevent) : ColdBoot Uevent :=
  {| num_handler_subprocesses_ := num_handler_subprocesses_ _ cb;
     uevent_queue_ := uevent_queue_ _ cb ++ regenerated _ env;
     subprocess_pids_ := subprocess_pids_ _ cb |}.

Lemma Run_forks (env : environment Uevent) fuel cb :
  let regen := firmware_events (length (uevent_queue_ _ cb))
                 (length (regenerated _ env)) in
  let forks := ForkSubProcesses Uevent env fuel (regenerated_object env cb) in
  let waits := WaitForSubProcesses Uevent env (object forks) in
  Run Uevent COLDBOOT_DONE env fuel cb
  = match outcome forks with
    | Halt h => (Halt h, object forks, regen ++ trace forks)
    | Ok _ =>
        match outcome waits with
        | Halt h =>
            (Halt h, object waits,
             regen ++ trace forks ++ restorecon_events ++ trace waits)
        | Ok _ =>
            (Ok tt, object waits,
             regen ++ trace forks ++ restorecon_events
             ++ trace waits ++ mark_done_events Uevent COLDBOOT_DONE env)
        end
    end.
Proof.
  cbv zeta. rewrite Run_phases. cbv zeta.
  unfold RegenerateUevents. rewrite regenerate_loop_effect.
  reflexivity.
Qed.

(** X14.  When a [fork] fails, cold boot aborts there: after the
    regeneration of the uevents and the forks up to the failed one, nothing
    is called; no restorecon, no [waitpid], no marker. *)
Theorem fork_failure_aborts (env : environment Uevent) (fuel : nat)
    (cb : ColdBoot Uevent) (k : nat) :
  (k < Z.to_nat (num_handler_subprocesses_ _ cb))%nat ->
  (forall j, (j < k)%nat -> 0 < fork_result _ env j) ->
  fork_result _ env k < 0 ->
  let run := Run Uevent COLDBOOT_DONE env fuel cb in
  outcome run = Halt Aborted
  /\ trace run
     = firmware_events (length (uevent_queue_ _ cb))
         (length (regenerated _ env))
       ++ fork_events env 0 (S k).
Proof.
  intros Hk Hpos Hneg. cbv zeta. rewrite Run_forks. cbv zeta.
  rewrite (ForkSubProcesses_prefix env fuel _ k)
    by (cbn [regenerated_object num_handler_subprocesses_]; (lia || assumption)).
  cbn [regenerated_object num_handler_subprocesses_]. cbv zeta.
  replace (Z.to_nat (num_handler_subprocesses_ _ cb) - k)%nat
    with (S (Z.to_nat (num_handler_subprocesses_ _ cb) - S k)) by lia.
  rewrite fork_loop_fails by assumption.
  cbn [outcome object trace fst snd].
  rewrite fork_events_S. split; reflexivity.
Qed.

Lemma handler_loop_trace fuel : forall i total size (cb : ColdBoot Uevent),
  trace (handler_loop Uevent fuel i total size cb)
  = map HandleDeviceEvent
      (handled (trace (handler_loop Uevent fuel i total size cb))).
Proof.
  induction fuel as [|fuel IH]; intros i total size cb; [reflexivity|].
  cbn [handler_loop]. destruct (i <? size); [|reflexivity].
  rewrite Partition.emit_then. unfold trace at 1 3. cbn [snd].
  change (handled (HandleDeviceEvent i :: ?evs)) with (i :: handled evs).
  cbn [map]. f_equal. apply IH.
Qed.

(** X15.  In the child that the turn [k] of the loop of
    [ForkSubProcesses] forks, the run ends in [_exit(EXIT_SUCCESS)]; after
    the fork it calls [HandleDeviceEvent] and nothing else, once on each
    position of the queue that is [k] modulo the number of workers, on no
    other position; the queue is the one the regeneration left. *)
Theorem child_handles_its_class (env : environment Uevent) (fuel : nat)
    (cb : ColdBoot Uevent) (k : nat) :
  let N := num_handler_subprocesses_ _ cb in
  let size :=
    Z.of_nat (length (uevent_queue_ _ cb ++ regenerated _ env)) in
  (k < Z.to_nat N)%nat ->
  size + N <= 2 ^ 32 ->
  size < Z.of_nat fuel ->
  (forall j, (j < k)%nat -> 0 < fork_result _ env j) ->
  fork_result _ env k = 0 ->
  let run := Run Uevent COLDBOOT_DONE env fuel cb in
  outcome run = Halt (Exited EXIT_SUCCESS)
  /\ exists hs,
       trace run
       = firmware_events (length (uevent_queue_ _ cb))
           (length (regenerated _ env))
         ++ fork_events env 0 (S k) ++ map HandleDeviceEvent hs
       /\ forall i,
            count_occ Z.eq_dec hs i
            = if (0 <=? i) && (i <? size) && (i mod N =? Z.of_nat k)
              then 1%nat else 0%nat.
Proof.
  intros N size Hk Hsize Hfuel Hpos Hzero. cbv zeta.
  rewrite Run_forks. cbv zeta.
  rewrite (ForkSubProcesses_prefix env fuel _ k)
    by (cbn [regenerated_object num_handler_subprocesses_]; (lia || assumption)).
  cbn [regenerated_object num_handler_subprocesses_]. cbv zeta.
  fold N. fold (regenerated_object env cb).
  replace (Z.to_nat N - k)%nat with (S (Z.to_nat N - S k)) by lia.
  rewrite fork_loop_child by assumption.
  set (cbk := after_forks env 0 k (regenerated_object env cb)).
  destruct (after_forks_fields env k 0 (regenerated_object env cb))
    as (HN & Hq & _).
  fold cbk in HN, Hq.
  cbn [regenerated_object num_handler_subprocesses_ uevent_queue_] in HN, Hq.
  fold N in HN. rewrite HN.
  destruct (Partition.handler_loop_spec Uevent N size cbk ltac:(lia) Hsize
              fuel (Z.of_nat k) ltac:(lia) ltac:(lia))
    as (evs & Hloop & Hcount).
  pose proof (handler_loop_trace fuel (Z.of_nat k) N size cbk) as Htrace.
  rewrite Hloop in Htrace. cbn [trace snd] in Htrace.
  unfold UeventHandlerMain. run_bind. rewrite Hq. fold size.
  rewrite bind_run, Hloop.
  cbn [stop outcome object trace fst snd]. cbv zeta.
  split; [reflexivity|]. exists (handled evs). split.
  - rewrite fork_events_S, Nat.add_0_l, Hzero, app_nil_r, <- Htrace.
    rewrite <- !app_assoc. reflexivity.
  - intros i. rewrite Hcount.
    rewrite (Z.mod_small (Z.of_nat k) N) by lia.
    destruct (Z.leb_spec (Z.of_nat k) i), (Z.leb_spec 0 i);
      try reflexivity; try lia.
    cbn [andb].
    destruct (Z.eqb_spec (i mod N) (Z.of_nat k)) as [Hmod|_];
      [|now rewrite !andb_false_r].
    pose proof (Z.mod_pos_bound i N ltac:(lia)).
    pose proof (Z.mod_le i N ltac:(lia) ltac:(lia)). lia.
Qed.

(** *** [WaitForSubProcesses] *)

(** The [waitpid] events of a list of returns. *)
Definition waitpid_events (returns : list (Z * wstatus)) : list event :=
  map (fun r => Waitpid r.1 r.2) returns.

(** A run returns or halts in one of the ways listed. *)
Definition ends {A} (allowed : list halt) (r : result A) : Prop :=
  match r with
  | Ok _ => True
  | Halt h => In h allowed
  end.

Lemma wait_loop_effect returns : forall cb : ColdBoot Uevent,
  let run := wait_loop Uevent returns cb in
  num_handler_subprocesses_ _ (object run) = num_handler_subprocesses_ _ cb
  /\ uevent_queue_ _ (object run) = uevent_queue_ _ cb
  /\ subprocess_pids_ _ (object run) ⊆ subprocess_pids_ _ cb
  /\ (outcome run = Ok tt -> subprocess_pids_ _ (object run) = ∅)
  /\ ends [Aborted; Blocked] (outcome run)
  /\ exists n, trace run = waitpid_events (take n returns).
Proof.
  induction returns as [|[pid status] returns IH]; intros cb;
    cbn [wait_loop]; run_bind;
    destruct (decide (subprocess_pids_ _ cb = ∅)) as [Hempty|Hpids];
    try (cbn; repeat split; try discriminate; try done; try (now left);
         try (now right; left); exists O; reflexivity).
  run_bind.
  assert (Hsame :
    let run := wait_loop Uevent returns cb in
    num_handler_subprocesses_ _ (object run)
    = num_handler_subprocesses_ _ cb
    /\ uevent_queue_ _ (object run) = uevent_queue_ _ cb
    /\ subprocess_pids_ _ (object run) ⊆ subprocess_pids_ _ cb
    /\ (outcome run = Ok tt -> subprocess_pids_ _ (object run) = ∅)
    /\ ends [Aborted; Blocked] (outcome run)
    /\ exists n, Waitpid pid status :: trace run
                 = waitpid_events (take n ((pid, status) :: returns))).
  { destruct (IH cb) as (HN & Hq & Hsub & Hok & Hends & n & Hn).
    repeat split; try assumption. exists (S n). cbn. now rewrite Hn. }
  destruct (Z.eqb_spec pid (-1)) as [|Hpid]; [exact Hsame|].
  destruct (decide (pid ∈ subprocess_pids_ _ cb)) as [Hmine|_];
    [|exact Hsame].
  destruct status as [exit_status|sig|]; [| |exact Hsame].
  - destruct (Z.eqb_spec exit_status EXIT_SUCCESS) as [->|Hfail].
    + run_bind.
      destruct (IH {| num_handler_subprocesses_ :=
                        num_handler_subprocesses_ _ cb;
                      uevent_queue_ := uevent_queue_ _ cb;
                      subprocess_pids_ := subprocess_pids_ _ cb ∖ {[pid]} |})
        as (HN & Hq & Hsub & Hok & Hends & m & Hm).
      cbn [num_handler_subprocesses_ uevent_queue_ subprocess_pids_] in *.
      repeat split; try assumption; [set_solver|].
      exists (S m). cbn. now rewrite Hm.
    + cbn. repeat split; try discriminate; try done; [now left|].
      exists 1%nat. reflexivity.
  - cbn. repeat split; try discriminate; try done; [now left|].
    exists 1%nat. reflexivity.
Qed.

(** X16.  [WaitForSubProcesses] returns only with an empty set of pids;
    it otherwise aborts or stays in [waitpid].  It never adds a pid, changes
    neither the queue nor the worker count, and calls nothing but
    [waitpid]. *)
Theorem wait_returns_with_no_pid (env : environment Uevent)
    (cb : ColdBoot Uevent) :
  let run := WaitForSubProcesses Uevent env cb in
  (outcome run = Ok tt -> subprocess_pids_ _ (object run) = ∅)
  /\ ends [Aborted; Blocked] (outcome run)
  /\ subprocess_pids_ _ (object run) ⊆ subprocess_pids_ _ cb
  /\ uevent_queue_ _ (object run) = uevent_queue_ _ cb
  /\ num_handler_subprocesses_ _ (object run)
     = num_handler_subprocesses_ _ cb
  /\ exists n, trace run = waitpid_events (take n (waitpid_results _ env)).
Proof.
  destruct (wait_loop_effect (waitpid_results _ env) cb)
    as (HN & Hq & Hsub & Hok & Hends & Hn).
  unfold WaitForSubProcesses. cbv zeta. repeat split; assumption.
Qed.

(** X17.  [WaitForSubProcesses] aborts only on the report of a pid of
    the set that is not -1 and either exited with a status other than 0 or
    was killed by a signal; that report is the last [waitpid] of the run. *)
Theorem abort_only_for_failed_worker (env : environment Uevent)
    (cb : ColdBoot Uevent) :
  let run := WaitForSubProcesses Uevent env cb in
  outcome run = Halt Aborted ->
  exists pid status,
    last (trace run) = Some (Waitpid pid status)
    /\ pid ∈ subprocess_pids_ _ cb
    /\ pid <> -1
    /\ ((exists exit_status,
           status = WExited exit_status /\ exit_status <> EXIT_SUCCESS)
        \/ exists sig, status = WSignaled sig).
Proof.
  unfold WaitForSubProcesses. cbv zeta. revert cb.
  induction (waitpid_results _ env) as [|[pid status] returns IH]; intros cb;
    cbn [wait_loop]; run_bind;
    destruct (decide (subprocess_pids_ _ cb = ∅)) as [Hempty|Hpids];
    try discriminate.
  run_bind.
  assert (Hsame :
    outcome (wait_loop Uevent returns cb) = Halt Aborted ->
    exists pid' status',
      last (Waitpid pid status :: trace (wait_loop Uevent returns cb))
      = Some (Waitpid pid' status')
      /\ pid' ∈ subprocess_pids_ _ cb
      /\ pid' <> -1
      /\ ((exists exit_status,
             status' = WExited exit_status /\ exit_status <> EXIT_SUCCESS)
          \/ exists sig, status' = WSignaled sig)).
  { intros Habort.
    destruct (IH cb Habort) as (pid' & status' & Hlast & Hrest).
    exists pid', status'. split; [|exact Hrest].
    rewrite last_cons, Hlast. reflexivity. }
  destruct (Z.eqb_spec pid (-1)) as [|Hpid]; [exact Hsame|].
  destruct (decide (pid ∈ subprocess_pids_ _ cb)) as [Hmine|_];
    [|exact Hsame].
  destruct status as [exit_status|sig|]; [| |exact Hsame].
  - destruct (Z.eqb_spec exit_status EXIT_SUCCESS) as [->|Hfail].
    + run_bind. intros Habort.
      destruct (IH _ Habort) as (pid' & status' & Hlast & Hin & Hrest).
      exists pid', status'. split; [|split; [|exact Hrest]].
      * rewrite last_cons, Hlast. reflexivity.
      * cbn [subprocess_pids_] in Hin. set_solver.
    + intros _. exists pid, (WExited exit_status).
      repeat split; try assumption. left. now exists exit_status.
  - intros _. exists pid, (WSignaled sig).
    repeat split; try assumption. right. now exists sig.
Qed.

Lemma wait_loop_completes returns : forall cb : ColdBoot Uevent,
  -1 ∉ subprocess_pids_ _ cb ->
  (forall pid, pid ∈ subprocess_pids_ _ cb ->
     In (pid, WExited EXIT_SUCCESS) returns) ->
  (forall pid status, pid ∈ subprocess_pids_ _ cb ->
     In (pid, status) returns ->
     status = WExited EXIT_SUCCESS \/ status = WOther) ->
  outcome (wait_loop Uevent returns cb) = Ok tt.
Proof.
  induction returns as [|[pid status] returns IH]; intros cb Hminus Hall Hgood;
    cbn [wait_loop]; run_bind;
    destruct (decide (subprocess_pids_ _ cb = ∅)) as [Hempty|Hpids];
    try reflexivity.
  { apply set_choose_L in Hpids as [pid Hpid].
    destruct (Hall pid Hpid). }
  run_bind.
  assert (Hother : forall pid', pid' ∈ subprocess_pids_ _ cb -> pid' <> pid ->
                     In (pid', WExited EXIT_SUCCESS) returns).
  { intros pid' Hin Hne. destruct (Hall pid' Hin) as [[= <- _]|Hrest];
      [contradiction|exact Hrest]. }
  assert (Hrest : forall pid' status', pid' ∈ subprocess_pids_ _ cb ->
                    In (pid', status') returns ->
                    status' = WExited EXIT_SUCCESS \/ status' = WOther).
  { intros pid' status' Hin Hret. apply (Hgood pid' status' Hin).
    now right. }
  destruct (Z.eqb_spec pid (-1)) as [->|Hpid].
  { apply IH; try assumption.
    intros pid' Hin. apply Hother; [exact Hin|]. intros ->. contradiction. }
  destruct (decide (pid ∈ subprocess_pids_ _ cb)) as [Hmine|Hforeign].
  - destruct (Hgood pid status Hmine ltac:(now left)) as [->| ->].
    + cbn [Z.eqb EXIT_SUCCESS]. run_bind.
      apply IH; cbn [subprocess_pids_].
      * set_solver.
      * intros pid' Hin. apply Hother; set_solver.
      * intros pid' status' Hin. apply Hrest. set_solver.
    + apply IH; try assumption.
      intros pid' Hin. destruct (Hall pid' Hin) as [[=]|Hin']. exact Hin'.
  - apply IH; try assumption.
    intros pid' Hin. apply Hother; [exact Hin|]. intros ->. contradiction.
Qed.

(** *** [Run] and [ueventd_main] *)

Lemma forked_pid (env : environment Uevent) (N : nat) (pid : Z) :
  pid ∈ (list_to_set (map (fork_result _ env) (seq 0 N)) : gset Z)
  <-> exists k, (k < N)%nat /\ pid = fork_result _ env k.
Proof.
  rewrite elem_of_list_to_set, list_elem_of_In, in_map_iff.
  split.
  - intros (k & <- & Hk). apply in_seq in Hk. exists k. split; [lia|done].
  - intros (k & Hk & ->). exists k. split; [done|]. apply in_seq. lia.
Qed.

(** X18.  When every [fork] returns the pid of a child, [waitpid]
    reports each of these pids as exited with status 0, and reports none of
    them as failed or killed, cold boot completes: [Run] returns with no pid
    left, after the restorecon and the creation of the marker, whatever else
    [waitpid] reports in between. *)
Theorem cold_boot_completes (env : environment Uevent) (fuel : nat)
    (cb : ColdBoot Uevent) :
  let N := Z.to_nat (num_handler_subprocesses_ _ cb) in
  subprocess_pids_ _ cb = ∅ ->
  (forall k, (k < N)%nat -> 0 < fork_result _ env k) ->
  (forall k, (k < N)%nat ->
     In (fork_result _ env k, WExited EXIT_SUCCESS) (waitpid_results _ env)) ->
  (forall k status, (k < N)%nat ->
     In (fork_result _ env k, status) (waitpid_results _ env) ->
     status = WExited EXIT_SUCCESS \/ status = WOther) ->
  let run := Run Uevent COLDBOOT_DONE env fuel cb in
  outcome run = Ok tt
  /\ subprocess_pids_ _ (object run) = ∅
  /\ uevent_queue_ _ (object run) = uevent_queue_ _ cb ++ regenerated _ env
  /\ exists n,
       trace run
       = firmware_events (length (uevent_queue_ _ cb))
           (length (regenerated _ env))
         ++ fork_events env 0 N
         ++ restorecon_events
         ++ waitpid_events (take n (waitpid_results _ env))
         ++ mark_done_events Uevent COLDBOOT_DONE env.
Proof.
  intros N Hnone Hpos Hreaped Hgood. cbv zeta.
  rewrite Run_forks. cbv zeta.
  rewrite (ForkSubProcesses_prefix env fuel _ N)
    by (cbn [regenerated_object num_handler_subprocesses_];
        fold N; (lia || assumption)).
  cbn [regenerated_object num_handler_subprocesses_]. cbv zeta.
  fold N. fold (regenerated_object env cb).
  rewrite Nat.sub_diag. cbn [fork_loop mret proc_ret outcome object trace
                             fst snd].
  rewrite app_nil_r.
  set (cbN := after_forks env 0 N (regenerated_object env cb)).
  destruct (after_forks_fields env N 0 (regenerated_object env cb))
    as (_ & Hq & Hpids).
  fold cbN in Hq, Hpids.
  cbn [regenerated_object uevent_queue_ subprocess_pids_] in Hq, Hpids.
  rewrite Hnone, (right_id_L ∅ (∪)) in Hpids.
  unfold WaitForSubProcesses.
  destruct (wait_loop_effect (waitpid_results _ env) cbN)
    as (_ & Hq' & _ & Hempty & _ & n & Hn).
  assert (Hok : outcome (wait_loop Uevent (waitpid_results _ env) cbN)
                = Ok tt).
  { apply wait_loop_completes; rewrite Hpids.
    - intros (k & Hk & Heq)%forked_pid. specialize (Hpos k Hk). lia.
    - intros pid (k & Hk & ->)%forked_pid. now apply Hreaped.
    - intros pid status (k & Hk & ->)%forked_pid. now apply Hgood. }
  rewrite Hok. cbn [outcome object trace fst snd].
  repeat split.
  - exact (Hempty Hok).
  - now rewrite Hq', Hq.
  - exists n. now rewrite Hn.
Qed.

Lemma ends_incl {A} (allowed allowed' : list halt) (r : result A) :
  ends allowed r -> incl allowed allowed' -> ends allowed' r.
Proof. destruct r as [a|h]; [done|]. intros Hin Hincl. now apply Hincl. Qed.

Lemma handler_loop_ends fuel : forall i total size (cb : ColdBoot Uevent),
  ends [OutOfFuel] (outcome (handler_loop Uevent fuel i total size cb)).
Proof.
  induction fuel as [|fuel IH]; intros i total size cb; [now left|].
  cbn [handler_loop]. destruct (i <? size); [|exact I].
  rewrite Partition.emit_then. apply IH.
Qed.

Lemma UeventHandlerMain_ends fuel process_num total (cb : ColdBoot Uevent) :
  ends [Exited EXIT_SUCCESS; OutOfFuel]
    (outcome (UeventHandlerMain Uevent fuel process_num total cb)).
Proof.
  unfold UeventHandlerMain. run_bind. rewrite bind_run.
  pose proof (handler_loop_ends fuel process_num total
                (Z.of_nat (length (uevent_queue_ _ cb))) cb) as Hloop.
  destruct (outcome (handler_loop Uevent fuel process_num total _ cb))
    as [[]|h]; cbn [stop outcome fst]; cbv zeta.
  - now left.
  - right. exact Hloop.
Qed.

Lemma fork_loop_ends (env : environment Uevent) fuel remaining :
  forall i cb,
    ends [Aborted; Exited EXIT_SUCCESS; OutOfFuel]
      (outcome (fork_loop Uevent env fuel remaining i cb)).
Proof.
  induction remaining as [|remaining IH]; intros i cb; [exact I|].
  cbn [fork_loop]. run_bind.
  destruct (fork_result _ env (Z.to_nat i) <? 0); run_bind; [now left|].
  run_bind.
  destruct (fork_result _ env (Z.to_nat i) =? 0).
  - rewrite bind_run.
    pose proof (UeventHandlerMain_ends fuel i
                  (num_handler_subprocesses_ _ cb) cb) as Hchild.
    destruct (UeventHandlerMain_run Uevent fuel i
                (num_handler_subprocesses_ _ cb) cb) as (Hhalt & _).
    destruct (outcome (UeventHandlerMain Uevent fuel i _ cb)) as [[]|h];
      [contradiction|].
    right. exact Hchild.
  - do 2 run_bind. apply IH.
Qed.

Lemma Run_ends (env : environment Uevent) fuel cb :
  ends [Aborted; Blocked; Exited EXIT_SUCCESS; OutOfFuel]
    (outcome (Run Uevent COLDBOOT_DONE env fuel cb)).
Proof.
  rewrite Run_forks. cbv zeta.
  set (forks := ForkSubProcesses Uevent env fuel (regenerated_object env cb)).
  assert (Hforks : ends [Aborted; Exited EXIT_SUCCESS; OutOfFuel]
                     (outcome forks)).
  { unfold forks, ForkSubProcesses. run_bind. apply fork_loop_ends. }
  destruct (outcome forks) as [[]|h].
  - destruct (wait_loop_effect (waitpid_results _ env) (object forks))
      as (_ & _ & _ & _ & Hwaits & _).
    unfold WaitForSubProcesses.
    destruct (outcome (wait_loop Uevent (waitpid_results _ env)
                         (object forks))) as [[]|h]; [exact I|].
    cbn [outcome fst ends] in *. set_solver.
  - cbn [outcome fst ends] in *. set_solver.
Qed.

(** X19.  [ueventd_main] never returns.  It reaches the poll loop
    exactly when the marker exists or [Run] returns; when the marker exists
    it goes there at once, with no cold boot; when a cold boot does not
    return, the daemon ends as the cold boot does and polls nothing. *)
Theorem ueventd_main_polls (env : environment Uevent) (fuel : nat) :
  let main := ueventd_main Uevent COLDBOOT_DONE env fuel in
  let run := Run Uevent COLDBOOT_DONE env fuel (ColdBoot_new Uevent env) in
  main.1 <> Ok tt
  /\ (main.1 = Halt Polling
      <-> coldboot_done_exists _ env = true \/ outcome run = Ok tt)
  /\ (coldboot_done_exists _ env = true ->
      main.2 = [Access COLDBOOT_DONE true; Poll])
  /\ (coldboot_done_exists _ env = false ->
      main.2 = Access COLDBOOT_DONE false :: trace run
               ++ match outcome run with Ok _ => [Poll] | Halt _ => [] end).
Proof.
  cbv zeta. unfold ueventd_main. run_bind.
  destruct (coldboot_done_exists _ env); cbn [negb].
  { repeat run_bind. repeat split; try discriminate; auto. }
  rewrite bind_run.
  pose proof (Run_ends env fuel (ColdBoot_new Uevent env)) as Hends.
  destruct (outcome (Run Uevent COLDBOOT_DONE env fuel _)) as [[]|h].
  - cbv zeta. repeat run_bind. repeat split; try discriminate; auto.
  - cbn [outcome object trace fst snd].
    repeat split; try discriminate.
    + intros [= ->]. cbn [ends] in Hends. set_solver.
    + intros [|]; discriminate.
    + intros _. now rewrite app_nil_r.
Qed.

End Runs.

(** Two workers on five uevents; the second [fork] fails. *)
Definition failing_fork : environment unit :=
  {| hardware_concurrency := 2;
     regenerated := [(); (); (); (); ()];
     fork_result := fun k => if (k =? 1)%nat then -1 else 100 + Z.of_nat k;
     waitpid_results := [];
     open_result := 3;
     coldboot_done_exists := false |}.

Lemma fork_failure_aborts_witness :
  outcome (Run unit marker failing_fork 0 (ColdBoot_new unit failing_fork))
  = Halt Aborted
  /\ trace (Run unit marker failing_fork 0 (ColdBoot_new unit failing_fork))
     = firmware_events 0 5 ++ fork_events failing_fork 0 2.
Proof.
  apply (fork_failure_aborts unit marker failing_fork 0
           (ColdBoot_new unit failing_fork) 1).
  - vm_compute. lia.
  - intros j Hj. destruct j as [|j]; [reflexivity|lia].
  - reflexivity.
Defined.

(** The same run seen from the second child: its [fork] returns 0. *)
Definition second_child : environment unit :=
  {| hardware_concurrency := 2;
     regenerated := [(); (); (); (); ()];
     fork_result := fun k => if (k =? 1)%nat then 0 else 100 + Z.of_nat k;
     waitpid_results := [];
     open_result := 3;
     coldboot_done_exists := false |}.

Lemma child_handles_its_class_witness :
  outcome (Run unit marker second_child 6 (ColdBoot_new unit second_child))
  = Halt (Exited EXIT_SUCCESS)
  /\ exists hs,
       trace (Run unit marker second_child 6 (ColdBoot_new unit second_child))
       = firmware_events 0 5 ++ fork_events second_child 0 2
         ++ map HandleDeviceEvent hs
       /\ forall i,
            count_occ Z.eq_dec hs i
            = if (0 <=? i) && (i <? 5) && (i mod 2 =? 1)
              then 1%nat else 0%nat.
Proof.
  apply (child_handles_its_class unit marker second_child 6
           (ColdBoot_new unit second_child) 1).
  - vm_compute. lia.
  - vm_compute. discriminate.
  - reflexivity.
  - intros j Hj. destruct j as [|j]; [reflexivity|lia].
  - reflexivity.
Defined.

(** A worker killed by a signal, after the report of a process that is
    not a worker. *)
Definition killed_worker : environment unit :=
  {| hardware_concurrency := 1;
     regenerated := [];
     fork_result := fun k => 100 + Z.of_nat k;
     waitpid_results := [(7, WExited 1); (100, WSignaled 9)];
     open_result := 3;
     coldboot_done_exists := false |}.

Definition one_pid : ColdBoot unit :=
  {| num_handler_subprocesses_ := 1;
     uevent_queue_ := [];
     subprocess_pids_ := {[100]} |}.

Lemma abort_only_for_failed_worker_witness :
  exists pid status,
    last (trace (WaitForSubProcesses unit killed_worker one_pid))
    = Some (Waitpid pid status)
    /\ pid ∈ subprocess_pids_ _ one_pid
    /\ pid <> -1
    /\ ((exists exit_status,
           status = WExited exit_status /\ exit_status <> EXIT_SUCCESS)
        \/ exists sig, status = WSignaled sig).
Proof.
  apply (abort_only_for_failed_worker unit killed_worker one_pid).
  vm_compute. reflexivity.
Defined.

Lemma cold_boot_completes_witness :
  outcome (Run unit marker two_workers 0 (ColdBoot_new unit two_workers))
  = Ok tt
  /\ subprocess_pids_ _
       (object (Run unit marker two_workers 0
                  (ColdBoot_new unit two_workers))) = ∅
  /\ uevent_queue_ _
       (object (Run unit marker two_workers 0
                  (ColdBoot_new unit two_workers))) = [(); ()]
  /\ exists n,
       trace (Run unit marker two_workers 0 (ColdBoot_new unit two_workers))
       = firmware_events 0 2
         ++ fork_events two_workers 0 2
         ++ restorecon_events
         ++ waitpid_events (take n (waitpid_results _ two_workers))
         ++ mark_done_events unit marker two_workers.
Proof.
  apply (cold_boot_completes unit marker two_workers 0
           (ColdBoot_new unit two_workers)).
  - reflexivity.
  - intros k Hk. cbn. lia.
  - intros k Hk. destruct k as [|[|k]]; [cbn; tauto|cbn; tauto|].
    vm_compute in Hk. lia.
  - intros k status Hk Hin. destruct k as [|[|k]];
      [| |vm_compute in Hk; lia];
      unfold EXIT_SUCCESS; vm_compute in Hin; intuition congruence.
Defined.

End ColdBootRuns.

(** ** Entries of [android_dirs] that no query selects *)

Module Shadowed.
Import C CFacts FsConfig.

(** A directory rule matches whenever a rule does whose prefix continues
    its own. *)
Lemma longer_prefix_matches (stray : ascii) (pq pr path : list ascii)
    (plen : Z) :
  c_str pq `prefix_of` c_str pr ->
  value (fs_config_cmp stray true pr (strlen pr) path plen) = true ->
  value (fs_config_cmp stray true pq (strlen pq) path plen) = true.
Proof.
  intros [rest Hrest]. unfold fs_config_cmp.
  assert (Hlen : strlen pq <= strlen pr).
  { rewrite !strlen_c_str, Hrest, length_app. lia. }
  destruct (Z.ltb_spec plen (strlen pr)); [discriminate|].
  destruct (Z.ltb_spec plen (strlen pq)); [lia|].
  cbn [value ret fst]. rewrite !Z.eqb_eq, !strncmp_zero.
  rewrite !strlen_c_str, !Nat2Z.id. intros Hcmp.
  apply (f_equal (take (length (c_str pq)))) in Hcmp.
  rewrite !take_take in Hcmp.
  replace (length (c_str pq) `min` length (c_str pr))%nat
    with (length (c_str pq)) in Hcmp
    by (rewrite Hrest, length_app; lia).
  rewrite <- Hcmp, Hrest, take_app_length. now rewrite firstn_all.
Qed.

(** An entry that comes after one whose prefix it continues is dead: the
    loop over the table gives the same with and without it. *)
Lemma table_loop_shadowed (stray : ascii)
    (pre : list fs_path_config) (q : fs_path_config)
    (mid : list fs_path_config) (r : fs_path_config)
    (post : list fs_path_config) (pq pr path : list ascii) (plen : Z) :
  prefix q = Some pq -> prefix r = Some pr ->
  c_str pq `prefix_of` c_str pr ->
  table_loop stray (pre ++ q :: mid ++ r :: post) true path plen
  = table_loop stray (pre ++ q :: mid ++ post) true path plen.
Proof.
  intros Hq Hr Hpre.
  assert (Hcmp : forall pfx,
            fs_config_cmp stray true pfx (strlen pfx) path plen
            = ret (value (fs_config_cmp stray true pfx (strlen pfx)
                            path plen))).
  { intros pfx. unfold fs_config_cmp.
    destruct (plen <? strlen pfx); reflexivity. }
  assert (Hstep : forall pfx (rest1 rest2 : M (option fs_path_config))
                         (pc : fs_path_config),
            (value (fs_config_cmp stray true pfx (strlen pfx) path plen)
             = false -> rest1 = rest2) ->
            (do hit <- fs_config_cmp stray true pfx (strlen pfx) path plen;
             if hit : bool then ret (Some pc) else rest1)
            = (do hit <- fs_config_cmp stray true pfx (strlen pfx) path plen;
               if hit : bool then ret (Some pc) else rest2)).
  { intros pfx rest1 rest2 pc Hrest. rewrite Hcmp.
    destruct (value (fs_config_cmp stray true pfx (strlen pfx) path plen));
      [reflexivity|]. now rewrite Hrest. }
  induction pre as [|p pre IH]; cbn [app table_loop].
  - rewrite Hq. apply Hstep. intros Hmiss.
    induction mid as [|m mid IHmid]; cbn [app table_loop].
    + rewrite Hr, Hcmp.
      destruct (value (fs_config_cmp stray true pr (strlen pr) path plen))
        eqn:Hhit; [|destruct (table_loop stray post true path plen) as [? ?];
                    unfold bind, ret; cbn; reflexivity].
      apply (longer_prefix_matches stray pq pr path plen Hpre) in Hhit.
      congruence.
    + destruct (prefix m) as [pm|]; [|reflexivity].
      apply Hstep. intros _. exact IHmid.
  - destruct (prefix p) as [pp|]; [|reflexivity].
    apply Hstep. intros _. exact IH.
Qed.

(** X20.  Three entries of [android_dirs] are never selected, each
    coming after an entry whose prefix it continues: data/app-private and
    data/app-ephemeral after data/app, data/nativetest64 after
    data/nativetest.  For every directory query the table gives the same
    without them. *)
Theorem android_dirs_dead_entries (stray : ascii) (ids : android_ids)
    (path : list ascii) (plen : Z) :
  (prefix <$> android_dirs ids !! 3%nat) = Some (Some (lit "data/app-private"))
  /\ (prefix <$> android_dirs ids !! 4%nat)
     = Some (Some (lit "data/app-ephemeral"))
  /\ (prefix <$> android_dirs ids !! 15%nat)
     = Some (Some (lit "data/nativetest64"))
  /\ table_loop stray (android_dirs ids) true path plen
     = table_loop stray
         (delete 3%nat (delete 4%nat (delete 15%nat (android_dirs ids))))
         true path plen.
Proof.
  split; [reflexivity|]. split; [reflexivity|]. split; [reflexivity|].
  set (app_rule := rule "00771" (AID_SYSTEM ids) (AID_SYSTEM ids) 0).
  set (test_rule := rule "00750" AID_ROOT (AID_SHELL ids) 0).
  set (t0 := android_dirs ids).
  set (t1 := delete 15%nat t0).
  set (t2 := delete 4%nat t1).
  set (t3 := delete 3%nat t2).
  transitivity (table_loop stray t1 true path plen).
  { replace t0
      with (take 14 (android_dirs ids)
            ++ test_rule (lit "data/nativetest")
            :: [] ++ test_rule (lit "data/nativetest64")
            :: drop 16 (android_dirs ids)) by reflexivity.
    replace t1
      with (take 14 (android_dirs ids)
            ++ test_rule (lit "data/nativetest")
            :: [] ++ drop 16 (android_dirs ids)) by reflexivity.
    apply (table_loop_shadowed stray _ _ _ _ _
             (lit "data/nativetest") (lit "data/nativetest64"));
      [reflexivity|reflexivity|].
    exists (lit "64"). reflexivity. }
  transitivity (table_loop stray t2 true path plen).
  { replace t1
      with (take 2 (android_dirs ids)
            ++ app_rule (lit "data/app")
            :: [app_rule (lit "data/app-private")]
            ++ app_rule (lit "data/app-ephemeral")
            :: drop 5 (delete 15%nat (android_dirs ids))) by reflexivity.
    replace t2
      with (take 2 (android_dirs ids)
            ++ app_rule (lit "data/app")
            :: [app_rule (lit "data/app-private")]
            ++ drop 5 (delete 15%nat (android_dirs ids))) by reflexivity.
    apply (table_loop_shadowed stray _ _ _ _ _
             (lit "data/app") (lit "data/app-ephemeral"));
      [reflexivity|reflexivity|].
    exists (lit "-ephemeral"). reflexivity. }
  replace t2
    with (take 2 (android_dirs ids)
          ++ app_rule (lit "data/app")
          :: [] ++ app_rule (lit "data/app-private")
          :: drop 4 (delete 4%nat (delete 15%nat (android_dirs ids))))
    by reflexivity.
  replace t3
    with (take 2 (android_dirs ids)
          ++ app_rule (lit "data/app")
          :: [] ++ drop 4 (delete 4%nat (delete 15%nat (android_dirs ids))))
    by reflexivity.
  apply (table_loop_shadowed stray _ _ _ _ _
           (lit "data/app") (lit "data/app-private"));
    [reflexivity|reflexivity|].
  exists (lit "-private"). reflexivity.
Qed.

End Shadowed.
